(** * Fantasy Cricket Assistant: the chat turn, the match cache and the
      match-data client of [main.py], and [save_chat] of [backend.py].

    The program is a Streamlit script.  Each run of the script either
    refreshes the cached match list (the "Fetch Latest Matches" button) or
    handles one user message.  Both handlers are embedded here as state
    transformers over a [world]: the Streamlit session state, the trace of
    what the script shows and of the calls it makes to the outside, and the
    [chat_history] table behind [save_chat].

    Values that come from JSON (the provider's payloads, the structured
    answer of the intent model) are Python objects whose shape the script
    never checks, so they are embedded as an untyped [pyval] and every
    operation on them can raise, as it does in Python.  A Python string is
    held as its UTF-8 bytes, and [chars] gives its characters; what the
    interpreter's Unicode tables decide ([str.lower], which characters are
    decimal digits) is a parameter of the program.  JSON numbers are
    integers (fractional numbers are left out). *)

From Stdlib Require Import String Ascii List ZArith Bool Lia DecimalString DecimalPos.
Import ListNotations.
Local Open Scope list_scope.
Local Open Scope string_scope.

(** ** Python values *)

#[local] Set Warnings "-register-all".

Inductive pyval : Type :=
| PNone
| PBool (b : bool)
| PInt (z : Z)
| PStr (s : string)
| PList (l : list pyval)
| PDict (d : list (string * pyval)).

(** The exceptions the script can meet.  [RequestException] stands for the
    class of that name in [requests] and all its subclasses but [HTTPError],
    which [raise_for_status] raises and which is kept apart with the status
    it reports. *)
Inductive exn : Type :=
| TypeError
| AttributeError
| KeyError
| NameError
| ValueError
| IndexError
| HTTPError (status_code : Z)
| RequestException (detail : string)
| OtherException (detail : string).

Inductive result (A : Type) : Type :=
| Ok (a : A)
| Raise (e : exn).
Arguments Ok {A} a.
Arguments Raise {A} e.

Definition nl : string := String (ascii_of_nat 10) EmptyString.

(** ** Text

    A byte [10xxxxxx] continues the character that the bytes before it
    began; every other byte begins a character. *)
Definition is_continuation (c : ascii) : bool :=
  let n := nat_of_ascii c in andb (Nat.leb 128 n) (Nat.ltb n 192).

Definition starts_with_continuation (s : string) : bool :=
  match s with
  | String c _ => is_continuation c
  | EmptyString => false
  end.

(** The characters of [s] in order, each as the text of that one
    character. *)
Fixpoint chars (s : string) : list string :=
  match s with
  | EmptyString => []
  | String c s' =>
      if starts_with_continuation s' then
        match chars s' with
        | g :: gs => String c g :: gs
        | [] => [String c EmptyString]
        end
      else String c EmptyString :: chars s'
  end.

(** [s[:n]] *)
Definition first_chars (n : nat) (s : string) : string :=
  String.concat "" (firstn n (chars s)).

(** [bool(v)] *)
Definition truthy (v : pyval) : bool :=
  match v with
  | PNone => false
  | PBool b => b
  | PInt z => negb (Z.eqb z 0)
  | PStr s => negb (String.eqb s "")
  | PList l => match l with [] => false | _ => true end
  | PDict d => match d with [] => false | _ => true end
  end.

(** Lookup of a key in a [dict], kept as the list of its items in order. *)
Fixpoint assoc (k : string) (d : list (string * pyval)) : option pyval :=
  match d with
  | [] => None
  | (k', v) :: d' => if String.eqb k k' then Some v else assoc k d'
  end.

(** [v.get(k, default)] *)
Definition py_get (v : pyval) (k : string) (default : pyval) : result pyval :=
  match v with
  | PDict d => Ok (match assoc k d with Some x => x | None => default end)
  | _ => Raise AttributeError
  end.

(** [v == s] for a string [s] *)
Definition py_eq_str (v : pyval) (s : string) : bool :=
  match v with
  | PStr t => String.eqb t s
  | _ => false
  end.

(** [needle in hay] on strings *)
Fixpoint is_substring (needle hay : string) : bool :=
  if String.prefix needle hay then true
  else match hay with
       | EmptyString => false
       | String _ hay' => is_substring needle hay'
       end.

(** [k in v] for a string [k] *)
Definition py_contains (k : string) (v : pyval) : result bool :=
  match v with
  | PDict d => Ok (match assoc k d with Some _ => true | None => false end)
  | PList l => Ok (existsb (fun x => py_eq_str x k) l)
  | PStr s => Ok (is_substring k s)
  | _ => Raise TypeError
  end.

(** [v[k]] for a string [k] *)
Definition py_getitem (v : pyval) (k : string) : result pyval :=
  match v with
  | PDict d => match assoc k d with Some x => Ok x | None => Raise KeyError end
  | _ => Raise TypeError
  end.

(** [v - 1] *)
Definition py_sub1 (v : pyval) : result Z :=
  match v with
  | PInt z => Ok (z - 1)%Z
  | PBool b => Ok ((if b then 1 else 0) - 1)%Z
  | _ => Raise TypeError
  end.

(** [len(v)] *)
Definition py_len (v : pyval) : result Z :=
  match v with
  | PList l => Ok (Z.of_nat (List.length l))
  | PDict d => Ok (Z.of_nat (List.length d))
  | PStr s => Ok (Z.of_nat (List.length (chars s)))
  | _ => Raise TypeError
  end.

(** [v[i]] for an integer [i] with [0 <= i < len(v)] *)
Definition py_index (v : pyval) (i : Z) : result pyval :=
  match v with
  | PList l => match nth_error l (Z.to_nat i) with
               | Some x => Ok x
               | None => Raise IndexError
               end
  | PStr s => match nth_error (chars s) (Z.to_nat i) with
              | Some c => Ok (PStr c)
              | None => Raise IndexError
              end
  | PDict _ => Raise KeyError
  | _ => Raise TypeError
  end.

(** The items a [for] loop over [v] visits. *)
Definition py_iter (v : pyval) : result (list pyval) :=
  match v with
  | PList l => Ok l
  | PDict d => Ok (map (fun kv => PStr (fst kv)) d)
  | PStr s => Ok (map PStr (chars s))
  | _ => Raise TypeError
  end.

(** [v.items()] *)
Definition py_items (v : pyval) : result (list (string * pyval)) :=
  match v with
  | PDict d => Ok d
  | _ => Raise AttributeError
  end.

(** [sep.join(vs)] *)
Fixpoint strings_of (vs : list pyval) : result (list string) :=
  match vs with
  | [] => Ok []
  | PStr s :: vs' =>
      match strings_of vs' with
      | Ok ss => Ok (s :: ss)
      | Raise e => Raise e
      end
  | _ :: _ => Raise TypeError
  end.

Definition py_join (sep : string) (vs : list pyval) : result string :=
  match strings_of vs with
  | Ok ss => Ok (String.concat sep ss)
  | Raise e => Raise e
  end.

(** [str(z)] *)
Definition str_of_int (z : Z) : string := NilZero.string_of_int (Z.to_int z).

(** [isinstance(v, (str, int, float, bool))] *)
Definition is_scalar (v : pyval) : bool :=
  match v with
  | PBool _ | PInt _ | PStr _ => true
  | _ => false
  end.

(** ** The world the script runs in *)

(** One entry of [st.session_state.messages]. *)
Record message : Type := { role : string; text : string }.

(** One entry of [st.session_state.match_list_for_llm]. *)
Record MatchListEntry : Type :=
  { entry_index : Z; entry_name : pyval; entry_id : pyval }.

(** One row of the [chat_history] table. *)
Record ChatRecord : Type :=
  { username : string; question : string; answer : string }.

(** What a run shows and what it asks of the outside, in order. *)
Inductive event : Type :=
| EvChat (who : string) (body : string)     (* st.chat_message(who): st.markdown(body) *)
| EvArea (body : string)                    (* response_area.markdown(body) *)
| EvWrite (body : string)                   (* st.write *)
| EvWarning (body : string)                 (* st.warning *)
| EvError (body : string)                   (* st.error *)
| EvSpinner (body : string)                 (* st.spinner *)
| EvGet (url : string) (params : list (string * pyval))   (* requests.get *)
| EvIntent (user_query summary : string)    (* intent_model.generate_content *)
| EvSend (prompt : string).                 (* chat.send_message *)

Record world : Type :=
  { messages : list message;
    current_match_data : pyval;
    match_list_for_llm : list MatchListEntry;
    trace : list event;
    chat_history : list ChatRecord }.

(** The session state of a fresh session, nothing shown, an empty table. *)
Definition initial_world : world :=
  {| messages := [];
     current_match_data := PNone;
     match_list_for_llm := [];
     trace := [];
     chat_history := [] |}.

(** ** Statements that change the world and may raise *)

Definition M (A : Type) : Type := world -> result A * world.

Definition ret {A} (a : A) : M A := fun w => (Ok a, w).

Definition bind {A B} (c : M A) (k : A -> M B) : M B :=
  fun w =>
    match c w with
    | (Ok a, w') => k a w'
    | (Raise e, w') => (Raise e, w')
    end.

Notation "x <- c ;; k" := (bind c (fun x => k))
  (at level 61, c at next level, right associativity).
Notation "c ;; k" := (bind c (fun _ => k))
  (at level 61, right associativity).

(** An expression that may raise, evaluated as a statement. *)
Definition lift {A} (r : result A) : M A := fun w => (r, w).

Definition raise {A} (e : exn) : M A := fun w => (Raise e, w).

(** [try: body / except <classes>: handler] *)
Definition try_except {A} (body : M A) (caught : exn -> bool) (handler : exn -> M A) : M A :=
  fun w =>
    match body w with
    | (Ok a, w') => (Ok a, w')
    | (Raise e, w') => if caught e then handler e w' else (Raise e, w')
    end.

Definition emit (ev : event) : M unit :=
  fun w =>
    (Ok tt,
     {| messages := messages w;
        current_match_data := current_match_data w;
        match_list_for_llm := match_list_for_llm w;
        trace := (trace w ++ [ev])%list;
        chat_history := chat_history w |}).

Definition append_message (m : message) : M unit :=
  fun w =>
    (Ok tt,
     {| messages := (messages w ++ [m])%list;
        current_match_data := current_match_data w;
        match_list_for_llm := match_list_for_llm w;
        trace := trace w;
        chat_history := chat_history w |}).

Definition set_current_match_data (v : pyval) : M unit :=
  fun w =>
    (Ok tt,
     {| messages := messages w;
        current_match_data := v;
        match_list_for_llm := match_list_for_llm w;
        trace := trace w;
        chat_history := chat_history w |}).

Definition set_match_list_for_llm (l : list MatchListEntry) : M unit :=
  fun w =>
    (Ok tt,
     {| messages := messages w;
        current_match_data := current_match_data w;
        match_list_for_llm := l;
        trace := trace w;
        chat_history := chat_history w |}).

Definition get_world : M world := fun w => (Ok w, w).

(** ** backend.py *)

Module Backend.

(** [save_chat(username, question, answer)]: one insert into
    [chat_history], taken to succeed; the response of the insert is the
    row. *)
Definition save_chat (u q a : string) : M ChatRecord :=
  fun w =>
    let row := {| username := u; question := q; answer := a |} in
    (Ok row,
     {| messages := messages w;
        current_match_data := current_match_data w;
        match_list_for_llm := match_list_for_llm w;
        trace := trace w;
        chat_history := (chat_history w ++ [row])%list |}).

End Backend.

(** ** What the outside answers *)

(** The outcome of [requests.get(url, params=params)]: the call raises, or
    it returns a response with a status code and what [response.json()]
    gives on it. *)
Inductive http_outcome : Type :=
| GetRaises (e : exn)
| Response (status_code : Z) (json : result pyval).

(** A streamed reply: the [text] of the chunks that arrive, in order, and
    the exception that ends the stream early, if one does. *)
Record stream : Type := { chunks : list string; failure : option exn }.

(** [except requests.exceptions.RequestException] *)
Definition is_request_exception (e : exn) : bool :=
  match e with
  | HTTPError _ | RequestException _ => true
  | _ => false
  end.

(** [except Exception] *)
Definition is_exception (e : exn) : bool := true.

(** The cursor shown after the text while the reply streams, as the bytes
    the source file holds between the quotes. *)
Definition cursor : string :=
  string_of_list_ascii
    (map ascii_of_nat [195; 162; 226; 128; 147; 197; 146]%nat).

Definition nonempty (s : string) : bool := negb (String.eqb s "").

(** A match of the provider, as the dict of its fields. *)
Abbreviation Match := (list (string * pyval)) (only parsing).

Section Program.

(** What the interpreter brings.  [str_lower s] is [s.lower()].
    [unicode_decimal c] is the decimal digit value of the character [c] in
    the interpreter's Unicode tables when [c] is a decimal digit, which is
    what [\d] and [int] go by.  [int_max_str_digits] is
    [sys.get_int_max_str_digits()], the most digits [int] converts: 4300
    unless configured, where a configured limit is at least 640, and 0 for
    no limit (as in the interpreters that have no such setting). *)
Variable str_lower : string -> string.
Variable unicode_decimal : string -> option Z.
Variable int_max_str_digits : nat.

(** [str(e)] of an exception and [str(v)] of a list or dict: texts the
    interpreter and the libraries choose. *)
Variable exn_str : exn -> string.
Variable container_str : pyval -> string.

(** [CRICKET_API_KEY] *)
Variable API_KEY : string.

(** The services: the match-data provider behind [requests.get], the
    structured call of the intent model together with [json.loads] of its
    text, and [chat.send_message(prompt, stream=True)]. *)
Variable requests_get : string -> list (string * pyval) -> http_outcome.
Variable generate_intent : string -> string -> result pyval.
Variable send_message : string -> stream.

(** [f"{v}"].  The integers the script formats come out of [int], in
    [json.loads] or in the regex fallback, so that they are within the
    limit on the digits of a conversion. *)
Definition py_str (v : pyval) : string :=
  match v with
  | PNone => "None"
  | PBool true => "True"
  | PBool false => "False"
  | PInt z => str_of_int z
  | PStr s => s
  | PList _ | PDict _ => container_str v
  end.

(** [v or d] *)
Definition py_or (v : pyval) (d : string) : pyval :=
  if truthy v then v else PStr d.

(** [v.lower()] *)
Definition py_lower (v : pyval) : result string :=
  match v with
  | PStr s => Ok (str_lower s)
  | _ => Raise AttributeError
  end.

(** *** class CricketData *)

Definition get_url (url_type : string) (id : pyval) : string :=
  let base_url := "https://api.cricapi.com/v1/" in
  if String.eqb url_type "currentMatches"
  then base_url ++ url_type ++ "?apikey=" ++ API_KEY ++ "&offset=0"
  else base_url ++ url_type ++ "?apikey=" ++ API_KEY ++ "&offset=0&id=" ++ py_str id.

Definition get_params (id : pyval) : list (string * pyval) :=
  ([("apikey", PStr API_KEY); ("offset", PInt 0)]
     ++ (if truthy id then [("id", id)] else []))%list.

(** [response.raise_for_status()] *)
Definition raise_for_status (status_code : Z) : M unit :=
  if andb (400 <=? status_code)%Z (status_code <? 600)%Z
  then raise (HTTPError status_code)
  else ret tt.

Definition _make_api_request (url_type : string) (id : pyval) : M pyval :=
  let url := get_url url_type id in
  let params := get_params id in
  try_except
    (emit (EvGet url params) ;;
     match requests_get url params with
     | GetRaises e => raise e
     | Response status_code json =>
         raise_for_status status_code ;;
         data <- lift json ;;
         status <- lift (py_get data "status" PNone) ;;
         if negb (py_eq_str status "success") then
           reason <- lift (py_get data "reason" (PStr "Unknown error")) ;;
           emit (EvError ("Cricket API call for " ++ url_type ++ " failed: "
                            ++ py_str reason)) ;;
           ret PNone
         else
           lift (py_get data "data" (PDict []))
     end)
    is_request_exception
    (fun e =>
       emit (EvError ("Network or API error for " ++ url_type ++ ": " ++ exn_str e)) ;;
       ret PNone).

Definition get_match_info (match_id : pyval) : M pyval :=
  _make_api_request "match_info" match_id.

Definition get_match_squad (match_id : pyval) : M pyval :=
  _make_api_request "match_squad" match_id.

Definition get_current_matches : M pyval :=
  _make_api_request "currentMatches" PNone.

(** *** class LLM *)

(** The pattern [match (\d+)], over the characters of a text. *)

(** [\d] *)
Definition is_digit (c : string) : bool :=
  match unicode_decimal c with
  | Some _ => true
  | None => false
  end.

(** The longest run of digits that [cs] starts with. *)
Fixpoint span_digits (cs : list string) : list string :=
  match cs with
  | c :: cs' => if is_digit c then c :: span_digits cs' else []
  | [] => []
  end.

(** What is left of [cs] after the prefix [p], when [cs] starts with it. *)
Fixpoint strip_prefix (p cs : list string) : option (list string) :=
  match p with
  | [] => Some cs
  | a :: p' =>
      match cs with
      | b :: cs' => if String.eqb a b then strip_prefix p' cs' else None
      | [] => None
      end
  end.

(** The pattern tried at the start of [cs]: group 1 of the match. *)
Definition match_here (cs : list string) : option (list string) :=
  match strip_prefix (chars "match ") cs with
  | Some rest =>
      match span_digits rest with
      | [] => None
      | ds => Some ds
      end
  | None => None
  end.

(** [re.search(r'match (\d+)', s)] on the characters of [s]: group 1 of
    the leftmost match. *)
Fixpoint re_search (cs : list string) : option (list string) :=
  match match_here cs with
  | Some ds => Some ds
  | None =>
      match cs with
      | [] => None
      | _ :: cs' => re_search cs'
      end
  end.

Definition digit_value (c : string) : Z :=
  match unicode_decimal c with
  | Some v => v
  | None => 0%Z
  end.

(** [int] refuses a text with more digits than the limit, when there is a
    limit. *)
Definition over_int_limit (digits : nat) : bool :=
  andb (Nat.ltb 0 int_max_str_digits) (Nat.ltb int_max_str_digits digits).

(** [int(ds)] for a run of decimal digits [ds], which group 1 of the
    pattern always is: the conversion raises [ValueError] beyond the limit
    and nothing else. *)
Definition int_of_digits (ds : list string) : result Z :=
  if over_int_limit (List.length ds) then Raise ValueError
  else Ok (fold_left (fun acc c => (10 * acc + digit_value c)%Z) ds 0%Z).

(** The regex fallback of the [except] branch: the match is searched in
    [user_query.lower()], and a [ValueError] of [int] is dropped before
    [return {}]. *)
Definition regex_fallback (user_query : string) : pyval :=
  match re_search (chars (str_lower user_query)) with
  | Some group1 =>
      match int_of_digits group1 with
      | Ok number => PDict [("match_number", PInt number)]
      | Raise _ => PDict []       (* except ValueError: pass *)
      end
  | None => PDict []
  end.

Definition intent_warning (e : exn) : string :=
  "Could not parse match intent from LLM: " ++ exn_str e ++ ". Falling back to regex.".

Definition get_match_intent (user_query current_matches_summary : string) : M pyval :=
  try_except
    (emit (EvIntent user_query current_matches_summary) ;;
     lift (generate_intent user_query current_matches_summary))
    is_exception
    (fun e =>
       emit (EvWarning (intent_warning e)) ;;
       ret (regex_fallback user_query)).

(** *** The "Fetch Latest Matches" button *)

Definition summary_entry (i : Z) (m_name m_status : pyval) : string :=
  str_of_int (i + 1) ++ ". **" ++ py_str m_name ++ "** - " ++ py_str m_status.

(** The body of [for i, m in enumerate(matches)], from index [i] on. *)
Fixpoint refresh_loop (ms : list pyval) (i : Z) (match_summary : list string)
  : M (list string) :=
  match ms with
  | [] => ret match_summary
  | m :: rest =>
      match_summary' <-
        (if (i <? 5)%Z then
           m_name <- lift (py_get m "name" (PStr "N/A")) ;;
           m_status <- lift (py_get m "status" (PStr "N/A")) ;;
           ret (match_summary ++ [summary_entry i m_name m_status])%list
         else ret match_summary) ;;
      m_name <- lift (py_get m "name" (PStr "N/A")) ;;
      m_id <- lift (py_get m "id" (PStr "N/A")) ;;
      w <- get_world ;;
      set_match_list_for_llm
        (match_list_for_llm w
           ++ [{| entry_index := i + 1; entry_name := m_name; entry_id := m_id |}])%list ;;
      refresh_loop rest (i + 1) match_summary'
  end.

Definition refresh_message (formatted_matches : string) : string :=
  "Here are some of the current matches:" ++ nl ++ formatted_matches ++ nl ++ nl
    ++ "I've stored this information. Now you can ask me for fantasy recommendations based on these matches, or ask about a specific match by its number (e.g., 'tell me about match 1') or by its name.".

Definition fetch_latest_matches : M unit :=
  emit (EvSpinner "Fetching current matches...") ;;
  matches <- get_current_matches ;;
  if truthy matches then
    set_current_match_data matches ;;
    set_match_list_for_llm [] ;;
    ms <- lift (py_iter matches) ;;
    match_summary <- refresh_loop ms 0 [] ;;
    let formatted_matches := String.concat nl match_summary in
    append_message {| role := "assistant"; text := refresh_message formatted_matches |}
  else
    append_message {| role := "assistant";
                      text := "Could not fetch current matches. Please try again later." |}.

(** *** A user message: step 1, the match the message is about *)

(** The local variables of the turn that outlive step 1; [match_intent]
    is [None] while the name is unbound. *)
Record locals : Type :=
  { selected_match_id : pyval;
    selected_match_name : pyval;
    match_intent : option pyval }.

Definition summary_line (m : MatchListEntry) : string :=
  str_of_int (entry_index m) ++ ". " ++ py_str (entry_name m).

Definition debug_identified (how : string) (m_name m_id : pyval) : string :=
  "DEBUG: Identified match by " ++ how ++ ": " ++ py_str m_name
    ++ " (ID: " ++ py_str m_id ++ ")".

(** The branch [if "match_number" in match_intent]; returns
    [(selected_match_id, selected_match_name)]. *)
Definition select_by_number (cache intent : pyval) : M (pyval * pyval) :=
  number <- lift (py_getitem intent "match_number") ;;
  match_index <- lift (py_sub1 number) ;;
  in_range <-
    (if (0 <=? match_index)%Z then
       n <- lift (py_len cache) ;;
       ret (match_index <? n)%Z
     else ret false) ;;
  if (in_range : bool) then
    m <- lift (py_index cache match_index) ;;
    m_id <- lift (py_get m "id" PNone) ;;
    m_name <- lift (py_get m "name" PNone) ;;
    emit (EvWrite (debug_identified "number" m_name m_id)) ;;
    ret (m_id, m_name)
  else
    number <- lift (py_getitem intent "match_number") ;;
    emit (EvWarning ("Match number " ++ py_str number ++ " is out of range.")) ;;
    ret (PNone, PNone).

(** The loop [for m in current_match_data] of the branch
    [elif "match_name" in match_intent], left at the first hit. *)
Fixpoint search_by_name (ms : list pyval) (intent : pyval) : M (pyval * pyval) :=
  match ms with
  | [] => ret (PNone, PNone)
  | m :: rest =>
      m_name <- lift (py_get m "name" (PStr "")) ;;
      have <- lift (py_lower m_name) ;;
      wanted <- lift (py_getitem intent "match_name") ;;
      want <- lift (py_lower wanted) ;;
      if String.eqb have want then
        m_id <- lift (py_get m "id" PNone) ;;
        m_name <- lift (py_get m "name" PNone) ;;
        emit (EvWrite (debug_identified "name" m_name m_id)) ;;
        ret (m_id, m_name)
      else search_by_name rest intent
  end.

Definition select_by_name (cache intent : pyval) : M (pyval * pyval) :=
  ms <- lift (py_iter cache) ;;
  sel <- search_by_name ms intent ;;
  (if negb (truthy (fst sel)) then
     wanted <- lift (py_getitem intent "match_name") ;;
     emit (EvWarning ("Could not find match with name: " ++ py_str wanted ++ "."))
   else ret tt) ;;
  ret sel.

(** The statement [if match_intent: ... else: ...]. *)
Definition route_intent (cache intent : pyval) : M locals :=
  if truthy intent then
    by_number <- lift (py_contains "match_number" intent) ;;
    if (by_number : bool) then
      sel <- select_by_number cache intent ;;
      ret {| selected_match_id := fst sel; selected_match_name := snd sel;
             match_intent := Some intent |}
    else
      by_name <- lift (py_contains "match_name" intent) ;;
      if (by_name : bool) then
        sel <- select_by_name cache intent ;;
        ret {| selected_match_id := fst sel; selected_match_name := snd sel;
               match_intent := Some intent |}
      else
        ret {| selected_match_id := PNone; selected_match_name := PNone;
               match_intent := Some intent |}
  else
    emit (EvWrite "DEBUG: No specific match intent detected by LLM.") ;;
    ret {| selected_match_id := PNone; selected_match_name := PNone;
           match_intent := Some intent |}.

Definition resolve_match (user_input : string) : M locals :=
  w <- get_world ;;
  if andb (truthy (current_match_data w))
          (match match_list_for_llm w with [] => false | _ => true end)
  then
    let current_matches_summary_text :=
      String.concat nl (map summary_line (match_list_for_llm w)) in
    intent <- get_match_intent user_input current_matches_summary_text ;;
    route_intent (current_match_data w) intent
  else
    ret {| selected_match_id := PNone; selected_match_name := PNone;
           match_intent := None |}.

(** *** Step 2, the details of the selected match *)

Definition apology : string :=
  "I understood you were asking about a specific match, but I couldn't find its details or ID. Please ensure the match number/name is correct and try again.".

(** The loop over [match_info.items()]. *)
Fixpoint info_lines (items : list (string * pyval)) : string :=
  match items with
  | [] => ""
  | (key, value) :: rest =>
      (if is_scalar value then "- " ++ key ++ ": " ++ py_str value ++ nl else "")
        ++ info_lines rest
  end.

(** [[player.get('name', 'N/A') for player in ...]] *)
Fixpoint player_names (ps : list pyval) : M (list pyval) :=
  match ps with
  | [] => ret []
  | player :: rest =>
      p_name <- lift (py_get player "name" (PStr "N/A")) ;;
      names <- player_names rest ;;
      ret (p_name :: names)
  end.

(** The loop [for team_squad in match_squad]. *)
Fixpoint squad_lines (teams : list pyval) : M string :=
  match teams with
  | [] => ret ""
  | team_squad :: rest =>
      team_name <- lift (py_get team_squad "name" (PStr "Unknown Team")) ;;
      listed <- lift (py_get team_squad "players" (PList [])) ;;
      ps <- lift (py_iter listed) ;;
      players <- player_names ps ;;
      joined <- lift (py_join ", " players) ;;
      lines <- squad_lines rest ;;
      ret ("  - " ++ py_str team_name ++ ": " ++ joined ++ nl ++ lines)
  end.

Definition info_block (loc : locals) (match_info : pyval) : M string :=
  if truthy match_info then
    items <- lift (py_items match_info) ;;
    ret ("Detailed Info for Match ID " ++ py_str (selected_match_id loc) ++ " ("
           ++ py_str (py_or (selected_match_name loc) "N/A") ++ "):" ++ nl
           ++ info_lines items ++ nl)
  else ret "".

Definition squad_block (match_squad : pyval) : M string :=
  if truthy match_squad then
    teams <- lift (py_iter match_squad) ;;
    lines <- squad_lines teams ;;
    ret ("Squads:" ++ nl ++ lines ++ nl)
  else ret "".

(** The test of the [elif]: [current_match_data and (match_intent and
    ("match_number" in match_intent or "match_name" in match_intent))]. *)
Definition intent_named_a_match (loc : locals) : M bool :=
  w <- get_world ;;
  if truthy (current_match_data w) then
    match match_intent loc with
    | None => raise NameError
    | Some intent =>
        if truthy intent then
          by_number <- lift (py_contains "match_number" intent) ;;
          if (by_number : bool) then ret true
          else lift (py_contains "match_name" intent)
        else ret false
    end
  else ret false.

(** Returns [detailed_match_info_for_llm]. *)
Definition fetch_details (loc : locals) : M string :=
  if truthy (selected_match_id loc) then
    emit (EvSpinner ("Fetching details for "
                       ++ py_str (py_or (selected_match_name loc) "the selected match")
                       ++ "...")) ;;
    match_info <- get_match_info (selected_match_id loc) ;;
    match_squad <- get_match_squad (selected_match_id loc) ;;
    info <- info_block loc match_info ;;
    squads <- squad_block match_squad ;;
    ret (info ++ squads)
  else
    named <- intent_named_a_match loc ;;
    ret (if (named : bool) then apology else "").

(** *** Step 3, the prompt *)

Fixpoint general_lines (ms : list pyval) : M (list string) :=
  match ms with
  | [] => ret []
  | m :: rest =>
      m_name <- lift (py_get m "name" (PStr "N/A")) ;;
      m_status <- lift (py_get m "status" (PStr "N/A")) ;;
      m_id <- lift (py_get m "id" (PStr "N/A")) ;;
      lines <- general_lines rest ;;
      ret (("Match: " ++ py_str m_name ++ ", Status: " ++ py_str m_status
              ++ ", ID: " ++ py_str m_id) :: lines)
  end.

(** The general block of the context: empty without cached matches. *)
Definition general_block : M string :=
  w <- get_world ;;
  if truthy (current_match_data w) then
    ms <- lift (py_iter (current_match_data w)) ;;
    lines <- general_lines ms ;;
    ret ("General Current Match Data:" ++ nl ++ String.concat nl lines ++ nl ++ nl)
  else ret "".

(** What [detailed_match_info_for_llm] adds to the context. *)
Definition detail_block (detailed_match_info_for_llm : string) : string :=
  if nonempty detailed_match_info_for_llm
  then detailed_match_info_for_llm ++ nl
  else "".

(** Returns [context_for_llm]. *)
Definition assemble_context (detailed_match_info_for_llm : string) : M string :=
  general <- general_block ;;
  ret (general ++ detail_block detailed_match_info_for_llm).

Definition full_prompt (context_for_llm user_input : string) : string :=
  if nonempty context_for_llm
  then context_for_llm ++ "User Query: " ++ user_input
  else user_input.

(** *** The streamed reply *)

(** The loop [for chunk in response], with [full_bot_reply] so far. *)
Fixpoint consume (texts : list string) (full_bot_reply : string) : M string :=
  match texts with
  | [] => ret full_bot_reply
  | chunk_text :: rest =>
      if nonempty chunk_text then
        emit (EvArea (full_bot_reply ++ chunk_text ++ cursor)) ;;
        consume rest (full_bot_reply ++ chunk_text)
      else consume rest full_bot_reply
  end.

Definition stream_reply (prompt : string) : M string :=
  emit (EvSend prompt) ;;
  let response := send_message prompt in
  full_bot_reply <- consume (chunks response) "" ;;
  match failure response with
  | Some e => raise e
  | None =>
      emit (EvArea full_bot_reply) ;;
      ret full_bot_reply
  end.

(** *** The whole turn *)

(** Steps 1 to 3 of the [try]; returns [full_prompt_to_gemini]. *)
Definition build_prompt (user_input : string) : M string :=
  loc <- resolve_match user_input ;;
  detailed_match_info_for_llm <- fetch_details loc ;;
  context_for_llm <- assemble_context detailed_match_info_for_llm ;;
  ret (full_prompt context_for_llm user_input).

(** The body of the [try]; returns [bot_reply]. *)
Definition try_block (user_input : string) : M string :=
  full_prompt_to_gemini <- build_prompt user_input ;;
  emit (EvWrite ("DEBUG: Sending to LLM (first 200 chars): "
                   ++ first_chars 200 full_prompt_to_gemini ++ "...")) ;;
  stream_reply full_prompt_to_gemini.

Definition error_reply (e : exn) : string :=
  "Error communicating with Gemini or fetching match details: " ++ exn_str e.

(** [if user_input:] and all below it. *)
Definition chat_turn (user_input : string) : M unit :=
  if nonempty user_input then
    emit (EvChat "user" user_input) ;;
    append_message {| role := "user"; text := user_input |} ;;
    emit (EvArea "Thinking...") ;;
    bot_reply <-
      try_except (try_block user_input) is_exception
        (fun e =>
           emit (EvArea (error_reply e)) ;;
           emit (EvError ("An error occurred: " ++ exn_str e)) ;;
           ret (error_reply e)) ;;
    append_message {| role := "assistant"; text := bot_reply |}
  else ret tt.


(** ** Vocabulary of the statements *)

(** The three intents the docstring of [get_match_intent] lists. *)
Inductive MatchIntent : Type :=
| ByNumber (n : Z)
| ByName (s : string)
| Unresolved.

(** How the turn reads the value [get_match_intent] returned: a falsy
    value names no match; in a dict [match_number] is looked at first, then
    [match_name]. *)
Definition intent_of (v : pyval) : option MatchIntent :=
  if negb (truthy v) then Some Unresolved
  else
    match v with
    | PDict d =>
        match assoc "match_number" d with
        | Some (PInt n) => Some (ByNumber n)
        | Some _ => None
        | None =>
            match assoc "match_name" d with
            | Some (PStr s) => Some (ByName s)
            | Some _ => None
            | None => Some Unresolved
            end
        end
    | _ => None
    end.

Definition field (k : string) (default : pyval) (m : Match) : pyval :=
  match assoc k m with Some x => x | None => default end.

(** The world with more events on its trace. *)
Definition log (evs : list event) (w : world) : world :=
  {| messages := messages w;
     current_match_data := current_match_data w;
     match_list_for_llm := match_list_for_llm w;
     trace := (trace w ++ evs)%list;
     chat_history := chat_history w |}.

(** The entries the refresh stores for the matches [ms], numbered from
    [i + 1]. *)
Fixpoint entries_from (i : Z) (ms : list Match) : list MatchListEntry :=
  match ms with
  | [] => []
  | m :: rest =>
      {| entry_index := i + 1;
         entry_name := field "name" (PStr "N/A") m;
         entry_id := field "id" (PStr "N/A") m |} :: entries_from (i + 1) rest
  end.

(** The session holds the matches [ms] of one refresh. *)
Definition refreshed (ms : list Match) (w : world) : Prop :=
  ms <> []
  /\ current_match_data w = PList (map PDict ms)
  /\ match_list_for_llm w = entries_from 0 ms.

(** The text of the last [response_area.markdown], if there was one. *)
Fixpoint displayed_from (shown : option string) (tr : list event) : option string :=
  match tr with
  | [] => shown
  | EvArea body :: rest => displayed_from (Some body) rest
  | _ :: rest => displayed_from shown rest
  end.

Definition displayed (w : world) : option string := displayed_from None (trace w).

(** The provider calls on a trace. *)
Definition is_get (ev : event) : bool :=
  match ev with EvGet _ _ => true | _ => false end.

Definition fetches (evs : list event) : list event := filter is_get evs.


(** The JSON value of an intent, as the docstring of
    [get_match_intent] writes it. *)
Definition intent_json (i : MatchIntent) : pyval :=
  match i with
  | ByNumber n => PDict [("match_number", PInt n)]
  | ByName s => PDict [("match_name", PStr s)]
  | Unresolved => PDict []
  end.

(** The characters the fallback scans: those of the lowered query, so
    that "match" is found whatever the case of its letters. *)
Definition scanned (user_query : string) : list string :=
  chars (str_lower user_query).

(** The characters of "match ". *)
Definition keyword : list string := ["m"; "a"; "t"; "c"; "h"; " "].

Definition all_digits (cs : list string) : bool := forallb is_digit cs.

Definition starts_with_digit (cs : list string) : bool :=
  match cs with
  | c :: _ => is_digit c
  | [] => false
  end.

(** The words of the fallback rule, to compare [regex_fallback] with: the
    scanned text holds, right after the characters [pre], the word "match",
    one space and a digit. *)
Definition match_digits_after (pre : list string) (user_query : string) : Prop :=
  exists d post,
    scanned user_query = (pre ++ keyword ++ d :: post)%list
    /\ is_digit d = true.

(** The number a run of digits writes: each digit counts with its
    decimal value, ten times the digit after it. *)
Fixpoint number_written (ds : list string) : Z :=
  match ds with
  | [] => 0%Z
  | d :: rest =>
      match unicode_decimal d with
      | Some value =>
          (value * 10 ^ Z.of_nat (List.length rest) + number_written rest)%Z
      | None => number_written rest
      end
  end.

(** The first "match <digits>" of the query: the characters before it, the
    whole run of its digits, and what follows them. *)
Definition first_match_digits (user_query : string) (pre ds post : list string) : Prop :=
  scanned user_query = (pre ++ keyword ++ ds ++ post)%list
  /\ ds <> []
  /\ all_digits ds = true
  /\ starts_with_digit post = false
  /\ forall pre', match_digits_after pre' user_query ->
                  List.length pre <= List.length pre'.

(** The fallback rule: the number written by the whole run of digits of
    the first "match <digits>" of the query when [int] converts that many
    digits, and no intent when it does not or when the query has no such
    place. *)
Inductive fallback_spec (user_query : string) : MatchIntent -> Prop :=
| fallback_found (pre ds post : list string) :
    first_match_digits user_query pre ds post ->
    over_int_limit (List.length ds) = false ->
    fallback_spec user_query (ByNumber (number_written ds))
| fallback_too_long (pre ds post : list string) :
    first_match_digits user_query pre ds post ->
    over_int_limit (List.length ds) = true ->
    fallback_spec user_query Unresolved
| fallback_none :
    (forall pre, ~ match_digits_after pre user_query) ->
    fallback_spec user_query Unresolved.

(** ** Running statements *)

Lemma log_nil (w : world) : log [] w = w.
Proof. destruct w; unfold log; simpl. now rewrite app_nil_r. Qed.

Lemma log_log (e1 e2 : list event) (w : world) :
  log e2 (log e1 w) = log (e1 ++ e2) w.
Proof. unfold log; simpl. now rewrite app_assoc. Qed.

Lemma emit_log (ev : event) (w : world) : emit ev w = (Ok tt, log [ev] w).
Proof. reflexivity. Qed.

Lemma bind_ok {A B} (c : M A) (k : A -> M B) (w w' : world) (a : A) :
  c w = (Ok a, w') -> bind c k w = k a w'.
Proof. intros H; unfold bind; now rewrite H. Qed.

Lemma bind_raise {A B} (c : M A) (k : A -> M B) (w w' : world) (e : exn) :
  c w = (Raise e, w') -> bind c k w = (Raise e, w').
Proof. intros H; unfold bind; now rewrite H. Qed.

(** ** Strings *)

Lemma append_nil_r (s : string) : s ++ "" = s.
Proof. induction s; simpl; congruence. Qed.

Lemma append_assoc (a b c : string) : (a ++ b) ++ c = a ++ b ++ c.
Proof. induction a; simpl; congruence. Qed.

Lemma chars_cons (c : ascii) (s : string) : chars (String c s) <> [].
Proof.
  cbn [chars]. destruct (starts_with_continuation s); [|discriminate].
  destruct (chars s); discriminate.
Qed.

(** ** The regular expression *)

Lemma chars_keyword : chars "match " = keyword.
Proof. reflexivity. Qed.

Lemma strip_prefix_app (p r : list string) : strip_prefix p (p ++ r)%list = Some r.
Proof.
  induction p as [|a p IH]; cbn [strip_prefix app]; [reflexivity|].
  now rewrite String.eqb_refl.
Qed.

Lemma strip_prefix_some (p cs r : list string) :
  strip_prefix p cs = Some r -> cs = (p ++ r)%list.
Proof.
  revert cs; induction p as [|a p IH]; cbn [strip_prefix app]; intros cs H.
  - congruence.
  - destruct cs as [|b cs]; [discriminate|].
    destruct (String.eqb_spec a b) as [->|]; [|discriminate].
    now rewrite (IH _ H).
Qed.

Lemma span_digits_all (cs : list string) : all_digits (span_digits cs) = true.
Proof.
  unfold all_digits; induction cs as [|c cs IH]; cbn [span_digits]; [reflexivity|].
  destruct (is_digit c) eqn:Hc; cbn [forallb]; [|reflexivity].
  now rewrite Hc.
Qed.

Lemma span_digits_split (cs : list string) :
  exists post, cs = (span_digits cs ++ post)%list /\ starts_with_digit post = false.
Proof.
  induction cs as [|c cs (post & Hs & Hp)]; cbn [span_digits].
  - exists []; auto.
  - destruct (is_digit c) eqn:Hc.
    + exists post; cbn [app]; split; [congruence | assumption].
    + exists (c :: cs); cbn; auto.
Qed.

Lemma span_digits_app (ds post : list string) :
  all_digits ds = true -> starts_with_digit post = false ->
  span_digits (ds ++ post)%list = ds.
Proof.
  unfold all_digits; induction ds as [|c ds IH]; cbn [forallb app]; intros Hd Hp.
  - destruct post as [|c post]; cbn in *; [reflexivity | now rewrite Hp].
  - apply andb_true_iff in Hd as [Hc Hd].
    cbn [span_digits]. now rewrite Hc, (IH Hd Hp).
Qed.

Lemma match_here_some (cs g : list string) :
  match_here cs = Some g ->
  exists post,
    cs = (keyword ++ g ++ post)%list /\ g <> [] /\ all_digits g = true
    /\ starts_with_digit post = false.
Proof.
  unfold match_here. rewrite chars_keyword.
  destruct (strip_prefix keyword cs) as [rest|] eqn:Hs; [|discriminate].
  pose proof (span_digits_all rest) as Hall.
  destruct (span_digits_split rest) as (post & Hr & Hp).
  destruct (span_digits rest) as [|d ds] eqn:Hspan; [discriminate|].
  intros [= <-].
  exists post; repeat split; auto; [|discriminate].
  apply strip_prefix_some in Hs. now rewrite Hs, <- Hr.
Qed.

Lemma match_here_digit (d : string) (post : list string) :
  is_digit d = true -> match_here (keyword ++ d :: post)%list <> None.
Proof.
  intros Hd; unfold match_here. rewrite chars_keyword, strip_prefix_app.
  cbn [span_digits]. rewrite Hd. discriminate.
Qed.

(** [re_search] returns the whole run of digits of the leftmost place
    where the pattern matches, and [None] only when it matches nowhere. *)
Lemma re_search_sound (cs : list string) :
  match re_search cs with
  | Some g =>
      exists pre post,
        cs = (pre ++ keyword ++ g ++ post)%list /\ g <> [] /\ all_digits g = true
        /\ starts_with_digit post = false
        /\ forall pre' d post',
             cs = (pre' ++ keyword ++ d :: post')%list -> is_digit d = true ->
             List.length pre <= List.length pre'
  | None =>
      forall pre d post,
        cs = (pre ++ keyword ++ d :: post)%list -> is_digit d = true -> False
  end.
Proof.
  induction cs as [|c cs IH].
  - cbn. intros [|? pre] d post H; cbn in H; discriminate.
  - cbn [re_search].
    destruct (match_here (c :: cs)) as [g|] eqn:Hm.
    + destruct (match_here_some _ _ Hm) as (post & Hs & Hne & Hd & Hp).
      exists [], post; repeat split; auto; cbn; intros; lia.
    + assert (Hfirst : forall d post, c :: cs = (keyword ++ d :: post)%list ->
                                      is_digit d = true -> False).
      { intros d post E Hd. rewrite E in Hm.
        now apply (match_here_digit d post Hd). }
      destruct (re_search cs) as [g|].
      * destruct IH as (pre & post & Hs & Hne & Hd & Hp & Hleft).
        exists (c :: pre), post; repeat split; auto.
        { rewrite Hs at 1; reflexivity. }
        intros [|c' pre'] d post' E Hdig.
        { exfalso; eapply Hfirst; eauto. }
        cbn [app] in E. injection E as _ E.
        cbn [List.length]; apply le_n_S; exact (Hleft pre' d post' E Hdig).
      * intros [|c' pre] d post E Hdig.
        { eapply Hfirst; eauto. }
        cbn [app] in E. injection E as _ E. exact (IH pre d post E Hdig).
Qed.

(** [int] reads the number that the digits write. *)
Lemma fold_number_written (ds : list string) (acc : Z) :
  fold_left (fun acc c => (10 * acc + digit_value c)%Z) ds acc
  = (acc * 10 ^ Z.of_nat (List.length ds) + number_written ds)%Z.
Proof.
  revert acc; induction ds as [|d ds IH]; intros acc.
  - cbn. lia.
  - cbn [fold_left number_written List.length]. rewrite IH.
    rewrite Nat2Z.inj_succ, Z.pow_succ_r by lia.
    unfold digit_value. destruct (unicode_decimal d); ring.
Qed.

Lemma int_of_digits_within (ds : list string) :
  over_int_limit (List.length ds) = false ->
  int_of_digits ds = Ok (number_written ds).
Proof.
  intros Hl. unfold int_of_digits. rewrite Hl, fold_number_written.
  f_equal; lia.
Qed.

Lemma int_of_digits_beyond (ds : list string) :
  over_int_limit (List.length ds) = true ->
  int_of_digits ds = Raise ValueError.
Proof. intros Hl. unfold int_of_digits. now rewrite Hl. Qed.

(** What [re_search] finds in the scanned query is its first
    "match <digits>". *)
Lemma re_search_first (user_query : string) :
  match re_search (scanned user_query) with
  | Some g => exists pre post, first_match_digits user_query pre g post
  | None => forall pre, ~ match_digits_after pre user_query
  end.
Proof.
  pose proof (re_search_sound (scanned user_query)) as Hsound.
  destruct (re_search (scanned user_query)) as [g|].
  - destruct Hsound as (pre & post & Hs & Hne & Hd & Hp & Hleft).
    exists pre, post. repeat split; auto.
    intros pre' (d & post' & Hq & Hdig). exact (Hleft pre' d post' Hq Hdig).
  - intros pre (d & post & Hq & Hdig). exact (Hsound pre d post Hq Hdig).
Qed.

(** [regex_fallback] follows the fallback rule. *)
Lemma regex_fallback_spec (user_query : string) :
  exists i, regex_fallback user_query = intent_json i /\ fallback_spec user_query i.
Proof.
  unfold regex_fallback. fold (scanned user_query).
  pose proof (re_search_first user_query) as Hfirst.
  destruct (re_search (scanned user_query)) as [g|].
  - destruct Hfirst as (pre & post & Hfirst).
    destruct (over_int_limit (List.length g)) eqn:Hl.
    + exists Unresolved. rewrite (int_of_digits_beyond g Hl).
      split; [reflexivity|]. now apply (fallback_too_long _ pre g post).
    + exists (ByNumber (number_written g)). rewrite (int_of_digits_within g Hl).
      split; [reflexivity|]. now apply (fallback_found _ pre g post).
  - exists Unresolved; split; [reflexivity|]. now apply fallback_none.
Qed.

Lemma app_inj_length {A} (a b a' b' : list A) :
  (a ++ b = a' ++ b')%list -> List.length a = List.length a' ->
  a = a' /\ b = b'.
Proof.
  revert a'; induction a as [|c a IH]; intros [|c' a'] H Hl;
    cbn in *; try discriminate; auto.
  injection H as -> H. injection Hl as Hl.
  destruct (IH _ H Hl) as [-> ->]; auto.
Qed.

Lemma first_is_match_digits (user_query : string) (pre ds post : list string) :
  first_match_digits user_query pre ds post -> match_digits_after pre user_query.
Proof.
  intros (Hq & Hne & Hd & _). destruct ds as [|d ds]; [congruence|].
  exists d, (ds ++ post)%list; split; [exact Hq|].
  unfold all_digits in Hd; cbn in Hd.
  now apply andb_true_iff in Hd as [Hd _].
Qed.

(** A query has one first "match <digits>". *)
Lemma first_match_digits_unique (user_query : string)
      (pre ds post pre' ds' post' : list string) :
  first_match_digits user_query pre ds post ->
  first_match_digits user_query pre' ds' post' ->
  ds = ds'.
Proof.
  intros H H'.
  pose proof (first_is_match_digits _ _ _ _ H) as Hm.
  pose proof (first_is_match_digits _ _ _ _ H') as Hm'.
  destruct H as (Hq & Hne & Hd & Hp & Hleft).
  destruct H' as (Hq' & Hne' & Hd' & Hp' & Hleft').
  assert (Hlen : List.length pre = List.length pre')
    by (apply Nat.le_antisymm; auto).
  rewrite Hq in Hq'.
  destruct (app_inj_length _ _ _ _ Hq' Hlen) as [_ Hrest].
  apply app_inv_head in Hrest.
  rewrite <- (span_digits_app ds post Hd Hp).
  rewrite <- (span_digits_app ds' post' Hd' Hp').
  now rewrite Hrest.
Qed.

(** The fallback rule fixes the intent. *)
Lemma fallback_spec_functional (user_query : string) (i j : MatchIntent) :
  fallback_spec user_query i -> fallback_spec user_query j -> i = j.
Proof.
  intros Hi Hj.
  destruct Hi as [pre ds post Hf Hl | pre ds post Hf Hl | Hnone];
    destruct Hj as [pre' ds' post' Hf' Hl' | pre' ds' post' Hf' Hl' | Hnone'];
    try reflexivity;
    try (exfalso; eapply Hnone; eapply first_is_match_digits; eassumption);
    try (exfalso; eapply Hnone'; eapply first_is_match_digits; eassumption);
    pose proof (first_match_digits_unique _ _ _ _ _ _ _ Hf Hf') as ->;
    congruence.
Qed.


(** What [get_match_intent] returns, and what it shows on the way. *)
Definition intent_value (user_query summary : string) : pyval :=
  match generate_intent user_query summary with
  | Ok parsed_json => parsed_json
  | Raise _ => regex_fallback user_query
  end.

Definition intent_events (user_query summary : string) : list event :=
  EvIntent user_query summary
    :: match generate_intent user_query summary with
       | Ok _ => []
       | Raise e => [EvWarning (intent_warning e)]
       end.

Lemma get_match_intent_run (user_query summary : string) (w : world) :
  get_match_intent user_query summary w
  = (Ok (intent_value user_query summary),
     log (intent_events user_query summary) w).
Proof.
  unfold get_match_intent, intent_value, intent_events, try_except, bind, lift.
  rewrite emit_log.
  destruct (generate_intent user_query summary) as [v|e]; [reflexivity|].
  cbn [is_exception]. unfold bind, ret. rewrite emit_log, log_log. reflexivity.
Qed.

(** C5, amended.  When the structured intent call fails to run, or its
    text does not parse as JSON, [get_match_intent] does not raise: it
    warns and returns the value of the regex fallback.  That value is
    [{"match_number": n}] for the number [n] written by the whole run of
    digits after the first "match " of the lowered query, when [int]
    converts that many digits; it is the empty object when the run is
    longer than the limit of [int], and when the query holds no such
    place. *)
Theorem failed_intent_call_falls_back_to_regex
  (user_query summary : string) (e : exn) (w : world) :
  generate_intent user_query summary = Raise e ->
  exists i,
    get_match_intent user_query summary w
    = (Ok (intent_json i),
       log [EvIntent user_query summary; EvWarning (intent_warning e)] w)
    /\ fallback_spec user_query i.
Proof.
  intros Hfail.
  destruct (regex_fallback_spec user_query) as (i & Hi & Hspec).
  exists i; split; [|exact Hspec].
  rewrite get_match_intent_run.
  unfold intent_value, intent_events. now rewrite Hfail, Hi.
Qed.


(** ** Statements that only add to the trace *)

Definition only_logs {A} (c : M A) : Prop :=
  forall w, exists evs, snd (c w) = log evs w.

Lemma only_logs_ret {A} (a : A) : only_logs (ret a).
Proof. intros w; exists []; simpl; now rewrite log_nil. Qed.

Lemma only_logs_lift {A} (r : result A) : only_logs (lift r).
Proof. intros w; exists []; simpl; now rewrite log_nil. Qed.

Lemma only_logs_raise {A} (e : exn) : only_logs (@raise A e).
Proof. intros w; exists []; simpl; now rewrite log_nil. Qed.

Lemma only_logs_get_world : only_logs get_world.
Proof. intros w; exists []; simpl; now rewrite log_nil. Qed.

Lemma only_logs_emit (ev : event) : only_logs (emit ev).
Proof. intros w; exists [ev]; reflexivity. Qed.

Lemma only_logs_bind {A B} (c : M A) (k : A -> M B) :
  only_logs c -> (forall a, only_logs (k a)) -> only_logs (bind c k).
Proof.
  intros Hc Hk w; unfold bind.
  destruct (Hc w) as (e1 & H1).
  destruct (c w) as [[a|e] w1]; simpl in H1; subst w1.
  - destruct (Hk a (log e1 w)) as (e2 & H2).
    exists (e1 ++ e2)%list. now rewrite H2, log_log.
  - now exists e1.
Qed.

Lemma only_logs_try {A} (body : M A) (caught : exn -> bool) (handler : exn -> M A) :
  only_logs body -> (forall e, only_logs (handler e)) ->
  only_logs (try_except body caught handler).
Proof.
  intros Hb Hh w; unfold try_except.
  destruct (Hb w) as (e1 & H1).
  destruct (body w) as [[a|e] w1]; simpl in H1; subst w1.
  - now exists e1.
  - destruct (caught e); [|now exists e1].
    destruct (Hh e (log e1 w)) as (e2 & H2).
    exists (e1 ++ e2)%list. now rewrite H2, log_log.
Qed.

Ltac quiet :=
  repeat first
    [ assumption
    | apply only_logs_ret
    | apply only_logs_lift
    | apply only_logs_raise
    | apply only_logs_emit
    | apply only_logs_get_world
    | apply only_logs_bind; [|intros ?]
    | apply only_logs_try; [|intros ?]
    | match goal with
      | |- only_logs (if ?b then _ else _) => destruct b
      | |- only_logs (match ?x with _ => _ end) => destruct x
      end ].

Lemma only_logs_make_api_request (url_type : string) (id : pyval) :
  only_logs (_make_api_request url_type id).
Proof. unfold _make_api_request, raise_for_status. quiet. Qed.

Lemma only_logs_get_match_intent (q summary : string) :
  only_logs (get_match_intent q summary).
Proof. unfold get_match_intent. quiet. Qed.

Lemma only_logs_select_by_number (cache intent : pyval) :
  only_logs (select_by_number cache intent).
Proof. unfold select_by_number. quiet. Qed.

Lemma only_logs_search_by_name (ms : list pyval) (intent : pyval) :
  only_logs (search_by_name ms intent).
Proof. induction ms as [|m ms IH]; cbn [search_by_name]; quiet. Qed.

Lemma only_logs_select_by_name (cache intent : pyval) :
  only_logs (select_by_name cache intent).
Proof.
  unfold select_by_name.
  apply only_logs_bind; [quiet|intros ms].
  apply only_logs_bind; [apply only_logs_search_by_name|intros sel].
  quiet.
Qed.

Lemma only_logs_route_intent (cache intent : pyval) :
  only_logs (route_intent cache intent).
Proof.
  unfold route_intent.
  destruct (truthy intent); [|quiet].
  apply only_logs_bind; [quiet|intros [|]].
  - apply only_logs_bind; [apply only_logs_select_by_number|intros; quiet].
  - apply only_logs_bind; [quiet|intros [|]]; [|quiet].
    apply only_logs_bind; [apply only_logs_select_by_name|intros; quiet].
Qed.

Lemma only_logs_resolve_match (q : string) : only_logs (resolve_match q).
Proof.
  unfold resolve_match.
  apply only_logs_bind; [quiet|intros w].
  destruct (_ && _); [|quiet].
  apply only_logs_bind; [apply only_logs_get_match_intent|intros intent].
  apply only_logs_route_intent.
Qed.

Lemma only_logs_player_names (ps : list pyval) : only_logs (player_names ps).
Proof. induction ps as [|p ps IH]; cbn [player_names]; quiet. Qed.

Lemma only_logs_squad_lines (teams : list pyval) : only_logs (squad_lines teams).
Proof.
  induction teams as [|t teams IH]; cbn [squad_lines]; [quiet|].
  do 3 (apply only_logs_bind; [quiet|intros ?]).
  apply only_logs_bind; [apply only_logs_player_names|intros ?].
  quiet.
Qed.

Lemma only_logs_fetch_details (loc : locals) : only_logs (fetch_details loc).
Proof.
  unfold fetch_details, get_match_info, get_match_squad, info_block, squad_block,
    intent_named_a_match.
  destruct (truthy (selected_match_id loc)).
  - apply only_logs_bind; [quiet|intros _].
    do 2 (apply only_logs_bind; [apply only_logs_make_api_request|intros ?]).
    apply only_logs_bind; [quiet|intros ?].
    apply only_logs_bind; [|intros; quiet].
    destruct (truthy _); [|quiet].
    apply only_logs_bind; [quiet|intros ?].
    apply only_logs_bind; [apply only_logs_squad_lines|intros; quiet].
  - quiet.
Qed.

Lemma only_logs_general_lines (ms : list pyval) : only_logs (general_lines ms).
Proof. induction ms as [|m ms IH]; cbn [general_lines]; quiet. Qed.

Lemma only_logs_assemble_context (detail : string) :
  only_logs (assemble_context detail).
Proof.
  unfold assemble_context, general_block.
  apply only_logs_bind; [|intros; quiet].
  apply only_logs_bind; [quiet|intros w].
  destruct (truthy _); [|quiet].
  apply only_logs_bind; [quiet|intros ?].
  apply only_logs_bind; [apply only_logs_general_lines|intros; quiet].
Qed.

Lemma only_logs_build_prompt (q : string) : only_logs (build_prompt q).
Proof.
  unfold build_prompt.
  apply only_logs_bind; [apply only_logs_resolve_match|intros loc].
  apply only_logs_bind; [apply only_logs_fetch_details|intros detail].
  apply only_logs_bind; [apply only_logs_assemble_context|intros; quiet].
Qed.

Lemma only_logs_consume (texts : list string) (acc : string) :
  only_logs (consume texts acc).
Proof.
  revert acc; induction texts as [|t texts IH]; intros acc; cbn [consume]; [quiet|].
  destruct (nonempty t); [|apply IH].
  apply only_logs_bind; [quiet|intros _; apply IH].
Qed.

Lemma only_logs_try_block (q : string) : only_logs (try_block q).
Proof.
  unfold try_block, stream_reply.
  apply only_logs_bind; [apply only_logs_build_prompt|intros p].
  apply only_logs_bind; [quiet|intros _].
  apply only_logs_bind; [quiet|intros _].
  apply only_logs_bind; [apply only_logs_consume|intros; quiet].
Qed.


Lemma try_except_ok {A} (body : M A) caught handler (w w' : world) (a : A) :
  body w = (Ok a, w') -> try_except body caught handler w = (Ok a, w').
Proof. intros H; unfold try_except; now rewrite H. Qed.

Lemma try_except_caught {A} (body : M A) caught handler (w w' : world) (e : exn) :
  body w = (Raise e, w') -> caught e = true ->
  try_except body caught handler w = handler e w'.
Proof. intros H Hc; unfold try_except; now rewrite H, Hc. Qed.

(** The world with one more message in the session. *)
Definition say (m : message) (w : world) : world :=
  {| messages := (messages w ++ [m])%list;
     current_match_data := current_match_data w;
     match_list_for_llm := match_list_for_llm w;
     trace := trace w;
     chat_history := chat_history w |}.

Lemma append_message_say (m : message) (w : world) :
  append_message m w = (Ok tt, say m w).
Proof. reflexivity. Qed.

(** The world in which the [try] of a turn starts. *)
Definition turn_start (user_input : string) (w : world) : world :=
  log [EvArea "Thinking..."]
    (say {| role := "user"; text := user_input |}
       (log [EvChat "user" user_input] w)).

(** [bot_reply] after the [try] and its [except]. *)
Definition reply_of (r : result string) : string :=
  match r with
  | Ok full_bot_reply => full_bot_reply
  | Raise e => error_reply e
  end.

Lemma chat_turn_run (user_input : string) (w : world) :
  nonempty user_input = true ->
  exists evs,
    chat_turn user_input w
    = (Ok tt,
       say {| role := "assistant";
              text := reply_of (fst (try_block user_input (turn_start user_input w))) |}
         (log evs (turn_start user_input w))).
Proof.
  intros Hq. unfold chat_turn. rewrite Hq.
  erewrite bind_ok; [|apply emit_log].
  erewrite bind_ok; [|apply append_message_say].
  erewrite bind_ok; [|apply emit_log].
  fold (turn_start user_input w).
  destruct (only_logs_try_block user_input (turn_start user_input w)) as (evs & Hevs).
  destruct (try_block user_input (turn_start user_input w)) as [[r|e] w1] eqn:Htb;
    simpl in Hevs; subst w1.
  - exists evs.
    erewrite bind_ok; [|eapply try_except_ok; exact Htb].
    apply append_message_say.
  - exists ((evs ++ [EvArea (error_reply e)])
             ++ [EvError ("An error occurred: " ++ exn_str e)])%list.
    erewrite bind_ok;
      [|erewrite try_except_caught; [|exact Htb|reflexivity];
        erewrite bind_ok; [|apply emit_log];
        erewrite bind_ok; [|apply emit_log];
        reflexivity].
    rewrite append_message_say, !log_log, <- app_assoc. reflexivity.
Qed.

Lemma chat_turn_messages (user_input : string) (w : world) :
  nonempty user_input = true ->
  messages (snd (chat_turn user_input w))
  = (messages w
       ++ [ {| role := "user"; text := user_input |};
            {| role := "assistant";
               text := reply_of (fst (try_block user_input
                                        (turn_start user_input w))) |} ])%list.
Proof.
  intros Hq.
  destruct (chat_turn_run user_input w Hq) as (evs & ->).
  cbn [fst snd say log turn_start messages].
  now rewrite <- app_assoc.
Qed.

(** The claim of C1 as the spec words it: the turn leaves one more row in
    the table, and the row holds the reply of the turn. *)
Definition persisted_once (before after : world) : Prop :=
  exists row,
    chat_history after = (chat_history before ++ [row])%list
    /\ exists m, last (messages after) m = {| role := "assistant"; text := answer row |}.

(** C1, amended.  A turn (a non-empty user message) adds to the session
    transcript the user's message and then exactly one assistant message,
    whose text is the reply of the turn: the streamed text when the [try]
    ends well, the error text when it raises.  It writes nothing to the
    [chat_history] table: [save_chat], which inserts exactly one row with
    the three fields it is given, is never called by the turn. *)
Theorem turn_appends_reply_to_session_only (user_input : string) (w : world) :
  nonempty user_input = true ->
  let w' := snd (chat_turn user_input w) in
  let bot_reply := reply_of (fst (try_block user_input (turn_start user_input w))) in
  fst (chat_turn user_input w) = Ok tt
  /\ messages w'
     = (messages w ++ [ {| role := "user"; text := user_input |};
                        {| role := "assistant"; text := bot_reply |} ])%list
  /\ chat_history w' = chat_history w
  /\ forall u q a w0,
       chat_history (snd (Backend.save_chat u q a w0))
       = (chat_history w0 ++ [ {| username := u; question := q; answer := a |} ])%list.
Proof.
  intros Hq w' bot_reply; subst w' bot_reply.
  split; [|split; [now apply chat_turn_messages|]].
  - now destruct (chat_turn_run user_input w Hq) as (evs & ->).
  - destruct (chat_turn_run user_input w Hq) as (evs & ->).
    split; reflexivity.
Qed.


(** ** The match-data client *)

(** [raise_for_status] raises on this status. *)
Definition is_error_status (status_code : Z) : bool :=
  andb (400 <=? status_code)%Z (status_code <? 600)%Z.

(** The client's [None]: a Failure in the words of the spec. *)
Definition Failure (r : result pyval) : Prop := r = Ok PNone.

Definition network_error (url_type : string) (e : exn) : string :=
  "Network or API error for " ++ url_type ++ ": " ++ exn_str e.

Definition provider_error (url_type : string) (payload : Match) : string :=
  "Cricket API call for " ++ url_type ++ " failed: "
    ++ py_str (field "reason" (PStr "Unknown error") payload).

Lemma api_request_raises (url_type : string) (id : pyval) (e : exn) (w : world) :
  requests_get (get_url url_type id) (get_params id) = GetRaises e ->
  is_request_exception e = true ->
  _make_api_request url_type id w
  = (Ok PNone,
     log [EvGet (get_url url_type id) (get_params id);
          EvError (network_error url_type e)] w).
Proof.
  intros Hget He. unfold _make_api_request.
  erewrite try_except_caught; [| |exact He].
  2: { erewrite bind_ok; [|apply emit_log]. now rewrite Hget. }
  erewrite bind_ok; [|apply emit_log]. unfold ret. now rewrite log_log.
Qed.

Lemma api_error_status (url_type : string) (id : pyval) (status_code : Z)
      (json : result pyval) (w : world) :
  requests_get (get_url url_type id) (get_params id) = Response status_code json ->
  is_error_status status_code = true ->
  _make_api_request url_type id w
  = (Ok PNone,
     log [EvGet (get_url url_type id) (get_params id);
          EvError (network_error url_type (HTTPError status_code))] w).
Proof.
  intros Hget Hst. unfold _make_api_request.
  erewrite try_except_caught; cycle 1.
  { erewrite bind_ok; [|apply emit_log]. rewrite Hget.
    unfold raise_for_status. fold (is_error_status status_code).
    now rewrite Hst. }
  { reflexivity. }
  erewrite bind_ok; [|apply emit_log]. unfold ret. now rewrite log_log.
Qed.

Lemma api_provider_failure (url_type : string) (id : pyval) (status_code : Z)
      (payload : Match) (w : world) :
  requests_get (get_url url_type id) (get_params id)
  = Response status_code (Ok (PDict payload)) ->
  is_error_status status_code = false ->
  py_eq_str (field "status" PNone payload) "success" = false ->
  _make_api_request url_type id w
  = (Ok PNone,
     log [EvGet (get_url url_type id) (get_params id);
          EvError (provider_error url_type payload)] w).
Proof.
  intros Hget Hst Hfail. unfold _make_api_request.
  erewrite try_except_ok; [reflexivity|].
  erewrite bind_ok; [|apply emit_log]. rewrite Hget.
  unfold raise_for_status. fold (is_error_status status_code). rewrite Hst.
  unfold bind, ret, lift; cbn [py_get]. fold (field "status" PNone payload).
  rewrite Hfail; cbn [negb]. rewrite emit_log, log_log. reflexivity.
Qed.

Lemma api_success (url_type : string) (id : pyval) (status_code : Z)
      (payload : Match) (w : world) :
  requests_get (get_url url_type id) (get_params id)
  = Response status_code (Ok (PDict payload)) ->
  is_error_status status_code = false ->
  py_eq_str (field "status" PNone payload) "success" = true ->
  _make_api_request url_type id w
  = (Ok (field "data" (PDict []) payload),
     log [EvGet (get_url url_type id) (get_params id)] w).
Proof.
  intros Hget Hst Hgood. unfold _make_api_request.
  erewrite try_except_ok; [reflexivity|].
  erewrite bind_ok; [|apply emit_log]. rewrite Hget.
  unfold raise_for_status. fold (is_error_status status_code). rewrite Hst.
  unfold bind, ret, lift; cbn [py_get]. fold (field "status" PNone payload).
  rewrite Hgood; cbn [negb]. reflexivity.
Qed.


(** ** The cached matches *)

Definition general_line (m : Match) : string :=
  "Match: " ++ py_str (field "name" (PStr "N/A") m)
    ++ ", Status: " ++ py_str (field "status" (PStr "N/A") m)
    ++ ", ID: " ++ py_str (field "id" (PStr "N/A") m).

(** The general block of the context, for the cached matches [ms]. *)
Definition general_text (ms : list Match) : string :=
  "General Current Match Data:" ++ nl
    ++ String.concat nl (map general_line ms) ++ nl ++ nl.

(** The numbered list the intent model is given. *)
Definition summary_text (ms : list Match) : string :=
  String.concat nl (map summary_line (entries_from 0 ms)).

Lemma refreshed_log (ms : list Match) (evs : list event) (w : world) :
  refreshed ms w -> refreshed ms (log evs w).
Proof. intros H; exact H. Qed.

Lemma refreshed_truthy (ms : list Match) (w : world) :
  refreshed ms w -> truthy (current_match_data w) = true.
Proof.
  intros (Hne & -> & _). destruct ms; [congruence | reflexivity].
Qed.

Lemma general_lines_run (ms : list Match) (w : world) :
  general_lines (map PDict ms) w = (Ok (map general_line ms), w).
Proof.
  induction ms as [|m ms IH]; [reflexivity|].
  cbn [map general_lines]. unfold bind, lift, ret in *; cbn [py_get].
  now rewrite IH.
Qed.

Lemma general_block_run (ms : list Match) (w : world) :
  refreshed ms w -> general_block w = (Ok (general_text ms), w).
Proof.
  intros Hr. pose proof (refreshed_truthy _ _ Hr) as Ht.
  destruct Hr as (_ & Hc & _).
  unfold general_block, bind, get_world. rewrite Ht, Hc.
  unfold lift; cbn [py_iter]. now rewrite general_lines_run.
Qed.

Lemma general_block_no_cache (w : world) :
  truthy (current_match_data w) = false -> general_block w = (Ok "", w).
Proof.
  intros Ht. unfold general_block, bind, get_world. now rewrite Ht.
Qed.

Lemma assemble_context_run (ms : list Match) (detail : string) (w : world) :
  refreshed ms w ->
  assemble_context detail w = (Ok (general_text ms ++ detail_block detail), w).
Proof.
  intros Hr. unfold assemble_context.
  erewrite bind_ok; [|apply general_block_run; exact Hr]. reflexivity.
Qed.

Lemma resolve_match_refreshed (q : string) (ms : list Match) (w : world) :
  refreshed ms w ->
  resolve_match q w
  = route_intent (PList (map PDict ms)) (intent_value q (summary_text ms))
      (log (intent_events q (summary_text ms)) w).
Proof.
  intros Hr. pose proof (refreshed_truthy _ _ Hr) as Ht.
  destruct Hr as (Hne & Hc & He).
  unfold resolve_match, bind at 1, get_world. rewrite Ht, He.
  destruct ms as [|m ms]; [congruence|].
  cbn [entries_from andb].
  erewrite bind_ok; [|apply get_match_intent_run].
  now rewrite Hc.
Qed.

Lemma resolve_match_no_cache (q : string) (w : world) :
  truthy (current_match_data w) = false ->
  resolve_match q w
  = (Ok {| selected_match_id := PNone; selected_match_name := PNone;
           match_intent := None |}, w).
Proof.
  intros Ht. unfold resolve_match, bind, get_world. now rewrite Ht.
Qed.

(** *** What an intent value looks like *)

Lemma intent_by_number (v : pyval) (n : Z) :
  intent_of v = Some (ByNumber n) ->
  exists d, v = PDict d /\ truthy v = true
            /\ assoc "match_number" d = Some (PInt n).
Proof.
  unfold intent_of. destruct (truthy v) eqn:Ht; cbn [negb]; [|discriminate].
  destruct v as [| | | | |d]; try discriminate.
  destruct (assoc "match_number" d) as [[| | n'| | |]|] eqn:Hn; try discriminate.
  - intros [= ->]. now exists d.
  - destruct (assoc "match_name" d) as [[]|]; discriminate.
Qed.

Lemma intent_by_name (v : pyval) (s : string) :
  intent_of v = Some (ByName s) ->
  exists d, v = PDict d /\ truthy v = true
            /\ assoc "match_number" d = None
            /\ assoc "match_name" d = Some (PStr s).
Proof.
  unfold intent_of. destruct (truthy v) eqn:Ht; cbn [negb]; [|discriminate].
  destruct v as [| | | | |d]; try discriminate.
  destruct (assoc "match_number" d) as [[]|] eqn:Hn; try discriminate.
  destruct (assoc "match_name" d) as [[| | |s'| |]|] eqn:Hs; try discriminate.
  intros [= ->]. now exists d.
Qed.


(** *** A match named by its number *)

Definition out_of_range (n : Z) : string :=
  "Match number " ++ str_of_int n ++ " is out of range.".

(** The locals after step 1 when the match [m] was selected. *)
Definition selected (m : Match) (intent : pyval) : locals :=
  {| selected_match_id := field "id" PNone m;
     selected_match_name := field "name" PNone m;
     match_intent := Some intent |}.

(** The locals after step 1 when an intent came back and nothing was
    selected. *)
Definition nothing_selected (intent : pyval) : locals :=
  {| selected_match_id := PNone; selected_match_name := PNone;
     match_intent := Some intent |}.

Definition identified (how : string) (m : Match) : event :=
  EvWrite (debug_identified how (field "name" PNone m) (field "id" PNone m)).

Lemma select_by_number_in_range (ms : list Match) (d : Match) (n : Z) (w : world) :
  assoc "match_number" d = Some (PInt n) ->
  (1 <= n <= Z.of_nat (List.length ms))%Z ->
  exists m,
    nth_error ms (Z.to_nat (n - 1)) = Some m
    /\ select_by_number (PList (map PDict ms)) (PDict d) w
       = (Ok (field "id" PNone m, field "name" PNone m),
          log [identified "number" m] w).
Proof.
  intros Hd Hn.
  destruct (nth_error ms (Z.to_nat (n - 1))) as [m|] eqn:Hm.
  2: { apply nth_error_None in Hm. lia. }
  exists m; split; [reflexivity|].
  unfold select_by_number, bind, lift, ret; cbn [py_getitem]. rewrite Hd.
  assert (H0 : (0 <=? n - 1)%Z = true) by (apply Z.leb_le; lia).
  cbn [py_sub1 py_len py_index]. rewrite H0. cbv beta iota.
  rewrite length_map.
  match goal with
  | |- context [Z.ltb ?a ?b] =>
      assert (Z.ltb a b = true) as -> by (apply Z.ltb_lt; lia)
  end.
  rewrite (map_nth_error PDict _ _ Hm). cbn [py_get].
  now rewrite emit_log.
Qed.

Lemma select_by_number_out_of_range (ms : list Match) (d : Match) (n : Z) (w : world) :
  assoc "match_number" d = Some (PInt n) ->
  ~ (1 <= n <= Z.of_nat (List.length ms))%Z ->
  select_by_number (PList (map PDict ms)) (PDict d) w
  = (Ok (PNone, PNone), log [EvWarning (out_of_range n)] w).
Proof.
  intros Hd Hn.
  unfold select_by_number, bind, lift, ret; cbn [py_getitem]. rewrite Hd.
  cbn [py_sub1 py_len].
  destruct (Z.leb_spec 0 (n - 1)); cbv beta iota.
  - rewrite length_map.
    match goal with
    | |- context [Z.ltb ?a ?b] =>
        assert (Z.ltb a b = false) as -> by (apply Z.ltb_ge; lia)
    end.
    now rewrite emit_log.
  - now rewrite emit_log.
Qed.

Lemma route_by_number (cache : pyval) (d : Match) (n : Z) (w : world) :
  truthy (PDict d) = true ->
  assoc "match_number" d = Some (PInt n) ->
  route_intent cache (PDict d) w
  = bind (select_by_number cache (PDict d))
      (fun sel => ret {| selected_match_id := fst sel;
                         selected_match_name := snd sel;
                         match_intent := Some (PDict d) |}) w.
Proof.
  intros Ht Hd. unfold route_intent. rewrite Ht.
  unfold bind at 1, lift; cbn [py_contains]. now rewrite Hd.
Qed.

(** *** Step 2 when no match was selected *)

Lemma intent_named_by_number (loc : locals) (d : Match) (n : Z) (w : world) :
  truthy (current_match_data w) = true ->
  match_intent loc = Some (PDict d) ->
  truthy (PDict d) = true ->
  assoc "match_number" d = Some (PInt n) ->
  intent_named_a_match loc w = (Ok true, w).
Proof.
  intros Hc Hi Ht Hd. unfold intent_named_a_match, bind, get_world.
  rewrite Hc, Hi, Ht. unfold lift; cbn [py_contains]. now rewrite Hd.
Qed.

Lemma intent_named_by_name (loc : locals) (d : Match) (s : pyval) (w : world) :
  truthy (current_match_data w) = true ->
  match_intent loc = Some (PDict d) ->
  truthy (PDict d) = true ->
  assoc "match_number" d = None ->
  assoc "match_name" d = Some s ->
  intent_named_a_match loc w = (Ok true, w).
Proof.
  intros Hc Hi Ht Hn Hs. unfold intent_named_a_match, bind, get_world.
  rewrite Hc, Hi, Ht. unfold lift; cbn [py_contains]. now rewrite Hn, Hs.
Qed.

Lemma fetch_details_unselected (loc : locals) (named : bool) (w : world) :
  truthy (selected_match_id loc) = false ->
  intent_named_a_match loc w = (Ok named, w) ->
  fetch_details loc w = (Ok (if named then apology else ""), w).
Proof.
  intros Hid Hn. unfold fetch_details. rewrite Hid.
  erewrite bind_ok; [|exact Hn]. reflexivity.
Qed.

(** The prompt of a turn over cached matches, from the detail text. *)
Definition prompt_with (ms : list Match) (detail user_input : string) : string :=
  general_text ms ++ detail_block detail ++ "User Query: " ++ user_input.

Lemma full_prompt_general (ms : list Match) (detail user_input : string) :
  full_prompt (general_text ms ++ detail_block detail) user_input
  = prompt_with ms detail user_input.
Proof.
  unfold full_prompt, prompt_with. cbn. now rewrite append_assoc.
Qed.


(** *** The prompt of a turn *)

Lemma build_prompt_unselected (q : string) (ms : list Match) (loc : locals)
      (named : bool) (evs : list event) (w : world) :
  refreshed ms w ->
  resolve_match q w = (Ok loc, log evs w) ->
  truthy (selected_match_id loc) = false ->
  intent_named_a_match loc (log evs w) = (Ok named, log evs w) ->
  build_prompt q w
  = (Ok (prompt_with ms (if named then apology else "") q), log evs w).
Proof.
  intros Hr Hres Hid Hnamed. unfold build_prompt.
  erewrite bind_ok; [|exact Hres].
  erewrite bind_ok; [|apply fetch_details_unselected; eassumption].
  erewrite bind_ok; [|apply assemble_context_run, refreshed_log, Hr].
  unfold ret. now rewrite full_prompt_general.
Qed.

(** The request for the details of the match [id] opens with the call
    for its info. *)
Definition fetch_opens_with (loc : locals) (w : world) : Prop :=
  exists r evs,
    fetch_details loc w
    = (r, log (EvSpinner ("Fetching details for "
                            ++ py_str (py_or (selected_match_name loc) "the selected match")
                            ++ "...")
                 :: EvGet (get_url "match_info" (selected_match_id loc))
                      (get_params (selected_match_id loc))
                 :: evs) w).

Lemma api_request_opens (url_type : string) (id : pyval) (w : world) :
  exists r evs,
    _make_api_request url_type id w
    = (r, log (EvGet (get_url url_type id) (get_params id) :: evs) w).
Proof.
  unfold _make_api_request, try_except.
  erewrite bind_ok; [|apply emit_log].
  match goal with
  | |- context [match ?body ?w0 with _ => _ end] =>
      assert (Hq : only_logs body) by (unfold raise_for_status; quiet);
      destruct (Hq w0) as (e1 & Hb);
      destruct (body w0) as [[a|e] w1]; simpl in Hb; subst w1
  end.
  - exists (Ok a), e1. now rewrite log_log.
  - destruct (is_request_exception e).
    + erewrite bind_ok; [|apply emit_log].
      exists (Ok PNone), (e1 ++ [EvError (network_error url_type e)])%list.
      unfold ret. now rewrite !log_log.
    + exists (Raise e), e1. now rewrite log_log.
Qed.

Lemma fetch_details_opens (loc : locals) (w : world) :
  truthy (selected_match_id loc) = true -> fetch_opens_with loc w.
Proof.
  intros Hid. unfold fetch_opens_with, fetch_details. rewrite Hid.
  erewrite bind_ok; [|apply emit_log].
  set (w1 := log _ w).
  destruct (api_request_opens "match_info" (selected_match_id loc) w1)
    as (r1 & e1 & H1).
  unfold get_match_info.
  match goal with
  | |- exists r evs, bind ?c ?k ?w0 = _ =>
      assert (Hk : forall a, only_logs (k a))
  end.
  { intros a.
    apply only_logs_bind; [apply only_logs_make_api_request|intros sq].
    unfold info_block, squad_block.
    apply only_logs_bind; [quiet|intros ?].
    apply only_logs_bind; [|intros; quiet].
    destruct (truthy sq); [|quiet].
    apply only_logs_bind; [quiet|intros ?].
    apply only_logs_bind; [apply only_logs_squad_lines|intros; quiet]. }
  destruct r1 as [a|e].
  - erewrite bind_ok; [|exact H1].
    destruct (Hk a (log (EvGet (get_url "match_info" (selected_match_id loc))
                           (get_params (selected_match_id loc)) :: e1) w1))
      as (e2 & H2).
    match goal with
    | |- exists r evs, ?t = _ => destruct t as [r w2]; simpl in H2; subst w2
    end.
    exists r, (e1 ++ e2)%list. subst w1. now rewrite !log_log.
  - erewrite bind_raise; [|exact H1].
    exists (Raise e), e1. subst w1. now rewrite log_log.
Qed.


Lemma resolve_by_number_in_range (q : string) (ms : list Match) (n : Z) (w : world) :
  refreshed ms w ->
  intent_of (intent_value q (summary_text ms)) = Some (ByNumber n) ->
  (1 <= n <= Z.of_nat (List.length ms))%Z ->
  exists m,
    nth_error ms (Z.to_nat (n - 1)) = Some m
    /\ resolve_match q w
       = (Ok (selected m (intent_value q (summary_text ms))),
          log (intent_events q (summary_text ms) ++ [identified "number" m]) w).
Proof.
  intros Hr Hi Hn.
  destruct (intent_by_number _ _ Hi) as (d & Hv & Ht & Hd).
  rewrite (resolve_match_refreshed q ms w Hr), Hv in *.
  destruct (select_by_number_in_range ms d n
              (log (intent_events q (summary_text ms)) w) Hd Hn)
    as (m & Hm & Hsel).
  exists m; split; [exact Hm|].
  rewrite (route_by_number _ _ _ _ Ht Hd).
  erewrite bind_ok; [|exact Hsel].
  unfold ret, selected; cbn [fst snd]. now rewrite log_log.
Qed.

Lemma resolve_by_number_out_of_range (q : string) (ms : list Match) (n : Z) (w : world) :
  refreshed ms w ->
  intent_of (intent_value q (summary_text ms)) = Some (ByNumber n) ->
  ~ (1 <= n <= Z.of_nat (List.length ms))%Z ->
  resolve_match q w
  = (Ok (nothing_selected (intent_value q (summary_text ms))),
     log (intent_events q (summary_text ms) ++ [EvWarning (out_of_range n)]) w).
Proof.
  intros Hr Hi Hn.
  destruct (intent_by_number _ _ Hi) as (d & Hv & Ht & Hd).
  rewrite (resolve_match_refreshed q ms w Hr), Hv in *.
  rewrite (route_by_number _ _ _ _ Ht Hd).
  erewrite bind_ok; [|apply select_by_number_out_of_range; eassumption].
  unfold ret, nothing_selected; cbn [fst snd]. now rewrite log_log.
Qed.

Lemma build_prompt_out_of_range (q : string) (ms : list Match) (n : Z) (w : world) :
  refreshed ms w ->
  intent_of (intent_value q (summary_text ms)) = Some (ByNumber n) ->
  ~ (1 <= n <= Z.of_nat (List.length ms))%Z ->
  build_prompt q w
  = (Ok (prompt_with ms apology q),
     log (intent_events q (summary_text ms) ++ [EvWarning (out_of_range n)]) w).
Proof.
  intros Hr Hi Hn.
  destruct (intent_by_number _ _ Hi) as (d & Hv & Ht & Hd).
  apply (build_prompt_unselected q ms
           (nothing_selected (intent_value q (summary_text ms))) true); auto.
  - now apply resolve_by_number_out_of_range.
  - rewrite Hv in *. eapply intent_named_by_number; eauto.
    + now apply (refreshed_truthy ms).
    + reflexivity.
Qed.

Lemma out_of_range_turn
  (q : string) (ms : list Match) (n : Z) (w : world) :
  refreshed ms w ->
  intent_of (intent_value q (summary_text ms)) = Some (ByNumber n) ->
  ~ (1 <= n <= Z.of_nat (List.length ms))%Z ->
  resolve_match q w
  = (Ok (nothing_selected (intent_value q (summary_text ms))),
     log (intent_events q (summary_text ms) ++ [EvWarning (out_of_range n)]) w)
  /\ build_prompt q w
     = (Ok (prompt_with ms apology q),
        log (intent_events q (summary_text ms) ++ [EvWarning (out_of_range n)]) w)
  /\ fetches (intent_events q (summary_text ms) ++ [EvWarning (out_of_range n)]) = [].
Proof.
  intros Hr Hi Hn. repeat split.
  - now apply resolve_by_number_out_of_range.
  - now apply build_prompt_out_of_range.
  - unfold intent_events.
    destruct (generate_intent q (summary_text ms)); reflexivity.
Qed.

Lemma fetches_intent_events (q summary : string) (more : list event) :
  fetches (intent_events q summary ++ more) = fetches more.
Proof.
  unfold intent_events. destruct (generate_intent q summary); reflexivity.
Qed.

(** *** An intent that names no match *)

Lemma intent_unresolved (v : pyval) :
  intent_of v = Some Unresolved ->
  truthy v = false
  \/ exists d, v = PDict d /\ truthy v = true
               /\ assoc "match_number" d = None /\ assoc "match_name" d = None.
Proof.
  unfold intent_of. destruct (truthy v) eqn:Ht; cbn [negb]; [|now left].
  destruct v as [| | | | |d]; try discriminate.
  destruct (assoc "match_number" d) as [[]|] eqn:Hn; try discriminate.
  destruct (assoc "match_name" d) as [[]|] eqn:Hs; try discriminate.
  intros _. right. now exists d.
Qed.

(** What step 1 shows for an intent that names no match: the debug line
    when the value is falsy, nothing otherwise. *)
Definition no_intent_note (v : pyval) : list event :=
  if truthy v then []
  else [EvWrite "DEBUG: No specific match intent detected by LLM."].

Lemma route_unresolved (cache v : pyval) (w : world) :
  intent_of v = Some Unresolved ->
  route_intent cache v w = (Ok (nothing_selected v), log (no_intent_note v) w).
Proof.
  intros Hi. unfold no_intent_note.
  destruct (intent_unresolved v Hi) as [Hf | (d & -> & Ht & Hn & Hs)].
  - unfold route_intent. rewrite Hf.
    erewrite bind_ok; [|apply emit_log]. reflexivity.
  - unfold route_intent. rewrite Ht.
    unfold bind, lift; cbn [py_contains]. rewrite Hn, Hs.
    unfold ret. now rewrite log_nil.
Qed.

Lemma intent_named_unresolved (v : pyval) (w : world) :
  intent_of v = Some Unresolved ->
  intent_named_a_match (nothing_selected v) w = (Ok false, w).
Proof.
  intros Hi. unfold intent_named_a_match, bind, get_world.
  destruct (truthy (current_match_data w)); [|reflexivity].
  cbn [nothing_selected match_intent].
  destruct (intent_unresolved v Hi) as [Hf | (d & -> & Ht & Hn & Hs)].
  - now rewrite Hf.
  - rewrite Ht. unfold lift; cbn [py_contains]. now rewrite Hn, Hs.
Qed.

(** The turn of an intent that names no match: nothing is selected,
    nothing is requested, and the prompt holds the general match list and
    the query alone. *)
Lemma unresolved_turn (q : string) (ms : list Match) (w : world) :
  refreshed ms w ->
  let v := intent_value q (summary_text ms) in
  let shown := (intent_events q (summary_text ms) ++ no_intent_note v)%list in
  intent_of v = Some Unresolved ->
  resolve_match q w = (Ok (nothing_selected v), log shown w)
  /\ build_prompt q w
     = (Ok (general_text ms ++ "User Query: " ++ q), log shown w)
  /\ fetches shown = [].
Proof.
  intros Hr v shown Hi; subst v shown.
  assert (Hres : resolve_match q w
                 = (Ok (nothing_selected (intent_value q (summary_text ms))),
                    log (intent_events q (summary_text ms)
                           ++ no_intent_note (intent_value q (summary_text ms))) w)).
  { rewrite (resolve_match_refreshed q ms w Hr).
    rewrite (route_unresolved _ _ _ Hi). now rewrite log_log. }
  repeat split; [exact Hres| |].
  - apply (build_prompt_unselected q ms
             (nothing_selected (intent_value q (summary_text ms))) false); auto.
    now apply intent_named_unresolved.
  - rewrite fetches_intent_events. unfold no_intent_note.
    now destruct (truthy (intent_value q (summary_text ms))).
Qed.

(** C3, amended.  Over the cached matches of a refresh, of length [L], an
    intent [ByNumber n] selects the [n]-th cached match exactly when
    [1 <= n <= L]: the selected id and name are the [id] and [name] fields
    of that match, and when that id is truthy the details are requested
    for it.  For [n] outside the range the turn warns that the number is
    out of range, selects nothing and requests nothing; it then goes on
    with a prompt that holds the general match list, the apology text and
    the query.  The turn of an unresolved intent selects and requests
    nothing either, but shows no warning, and its prompt holds the general
    match list and the query alone. *)
Theorem by_number_selects_nth_or_warns
  (q : string) (ms : list Match) (n : Z) (w : world) :
  refreshed ms w ->
  let v := intent_value q (summary_text ms) in
  let asked := intent_events q (summary_text ms) in
  let apologises := general_text ms ++ apology ++ nl ++ "User Query: " ++ q in
  (intent_of v = Some (ByNumber n) ->
   ((1 <= n <= Z.of_nat (List.length ms))%Z ->
    exists m,
      nth_error ms (Z.to_nat (n - 1)) = Some m
      /\ resolve_match q w
         = (Ok (selected m v), log (asked ++ [identified "number" m]) w)
      /\ (truthy (field "id" PNone m) = true ->
          fetch_opens_with (selected m v)
            (log (asked ++ [identified "number" m]) w))
      /\ (truthy (field "id" PNone m) = false ->
          build_prompt q w
          = (Ok apologises, log (asked ++ [identified "number" m]) w)))
   /\ (~ (1 <= n <= Z.of_nat (List.length ms))%Z ->
       resolve_match q w
       = (Ok (nothing_selected v), log (asked ++ [EvWarning (out_of_range n)]) w)
       /\ build_prompt q w
          = (Ok apologises, log (asked ++ [EvWarning (out_of_range n)]) w)
       /\ fetches (asked ++ [EvWarning (out_of_range n)]) = []))
  /\ (intent_of v = Some Unresolved ->
      resolve_match q w
      = (Ok (nothing_selected v), log (asked ++ no_intent_note v) w)
      /\ build_prompt q w
         = (Ok (general_text ms ++ "User Query: " ++ q),
            log (asked ++ no_intent_note v) w)
      /\ fetches (asked ++ no_intent_note v) = []).
Proof.
  intros Hr v asked apologises; subst v asked apologises. split.
  - intros Hi. split.
    + intros Hn.
      destruct (resolve_by_number_in_range q ms n w Hr Hi Hn) as (m & Hm & Hres).
      exists m; repeat split; auto.
      * intros Hid. now apply fetch_details_opens.
      * intros Hid.
        destruct (intent_by_number _ _ Hi) as (d & Hv & Ht & Hd).
        apply (build_prompt_unselected q ms
                 (selected m (intent_value q (summary_text ms))) true); auto.
        rewrite Hv in *. eapply intent_named_by_number; eauto.
        -- now apply (refreshed_truthy ms).
        -- reflexivity.
    + intros Hn. now apply out_of_range_turn.
  - intros Hi. now apply unresolved_turn.
Qed.


(** ** The streamed reply *)

(** What the loop over the chunks shows, from [full_bot_reply = acc]. *)
Fixpoint frames (texts : list string) (acc : string) : list event :=
  match texts with
  | [] => []
  | t :: rest =>
      if nonempty t then EvArea (acc ++ t ++ cursor) :: frames rest (acc ++ t)
      else frames rest acc
  end.

Lemma concat_cons (t : string) (rest : list string) :
  String.concat "" (t :: rest) = t ++ String.concat "" rest.
Proof.
  destruct rest as [|t' rest]; cbn [String.concat].
  - now rewrite append_nil_r.
  - reflexivity.
Qed.

Lemma nonempty_append (a b : string) :
  nonempty a = true -> nonempty (a ++ b) = true.
Proof. destruct a; [discriminate | reflexivity]. Qed.

Lemma nonempty_false (a : string) : nonempty a = false -> a = "".
Proof. destruct a; [reflexivity | discriminate]. Qed.

Lemma consume_run (texts : list string) (acc : string) (w : world) :
  consume texts acc w
  = (Ok (acc ++ String.concat "" texts), log (frames texts acc) w).
Proof.
  revert acc w; induction texts as [|t rest IH]; intros acc w.
  - cbn. now rewrite append_nil_r, log_nil.
  - rewrite concat_cons. cbn [consume frames].
    destruct (nonempty t) eqn:Ht.
    + erewrite bind_ok; [|apply emit_log].
      now rewrite IH, log_log, append_assoc.
    + rewrite IH. now rewrite (nonempty_false _ Ht).
Qed.

Lemma displayed_log (evs : list event) (w : world) :
  displayed (log evs w) = displayed_from (displayed w) evs.
Proof.
  unfold displayed; cbn [log trace].
  generalize (@None string) as shown.
  induction (trace w) as [|ev tr IH]; intros shown; [reflexivity|].
  destruct ev; cbn; apply IH.
Qed.

Lemma displayed_frames (texts : list string) (acc : string) (shown : option string) :
  displayed_from shown (frames texts acc)
  = if nonempty (String.concat "" texts)
    then Some (acc ++ String.concat "" texts ++ cursor)
    else shown.
Proof.
  revert acc shown; induction texts as [|t rest IH]; intros acc shown.
  - reflexivity.
  - rewrite concat_cons. cbn [frames].
    destruct (nonempty t) eqn:Ht.
    + rewrite (nonempty_append _ _ Ht). cbn [displayed_from]. rewrite IH.
      destruct (nonempty (String.concat "" rest)) eqn:Hr.
      * now rewrite !append_assoc.
      * now rewrite (nonempty_false _ Hr), append_nil_r.
    + rewrite (nonempty_false _ Ht). apply IH.
Qed.

Lemma stream_reply_run (prompt : string) (texts : list string) (w : world) :
  send_message prompt = {| chunks := texts; failure := None |} ->
  stream_reply prompt w
  = (Ok (String.concat "" texts),
     log (EvSend prompt :: frames texts "" ++ [EvArea (String.concat "" texts)]) w).
Proof.
  intros Hs. unfold stream_reply.
  erewrite bind_ok; [|apply emit_log]. rewrite Hs; cbn [chunks failure].
  erewrite bind_ok; [|apply consume_run].
  erewrite bind_ok; [|apply emit_log].
  unfold ret. now rewrite !log_log.
Qed.

Lemma stream_reply_opens (prompt : string) (w : world) :
  exists r evs, stream_reply prompt w = (r, log (EvSend prompt :: evs) w).
Proof.
  unfold stream_reply.
  erewrite bind_ok; [|apply emit_log].
  erewrite bind_ok; [|apply consume_run].
  destruct (failure (send_message prompt)) as [e|].
  - exists (Raise e). eexists. unfold raise. now rewrite log_log.
  - erewrite bind_ok; [|apply emit_log].
    exists (Ok (String.concat "" (chunks (send_message prompt)))). eexists.
    unfold ret. now rewrite !log_log.
Qed.

Definition sending (full_prompt_to_gemini : string) : event :=
  EvWrite ("DEBUG: Sending to LLM (first 200 chars): "
             ++ first_chars 200 full_prompt_to_gemini ++ "...").

Lemma try_block_run (q p : string) (w w1 : world) :
  build_prompt q w = (Ok p, w1) ->
  try_block q w = stream_reply p (log [sending p] w1).
Proof.
  intros Hp. unfold try_block.
  erewrite bind_ok; [|exact Hp].
  erewrite bind_ok; [|apply emit_log]. reflexivity.
Qed.

(** The prompt goes to the model: after what step 1 to 3 showed, the
    turn shows the debug line and sends the prompt. *)
Definition sends (q p : string) (evs : list event) (w : world) : Prop :=
  exists r more,
    try_block q w = (r, log (evs ++ sending p :: EvSend p :: more) w).

Lemma try_block_sends (q p : string) (evs : list event) (w : world) :
  build_prompt q w = (Ok p, log evs w) -> sends q p evs w.
Proof.
  intros Hp. unfold sends. rewrite (try_block_run _ _ _ _ Hp).
  destruct (stream_reply_opens p (log [sending p] (log evs w))) as (r & more & ->).
  exists r, more. rewrite !log_log.
  repeat f_equal; now rewrite <- app_assoc.
Qed.


(** C2, amended.  With one cached match and a message that resolves to
    [ByNumber 5], the turn warns that match number 5 is out of range,
    selects no match and requests no details; the prompt it sends holds the
    general match list followed by the apology text (not the general list
    alone) and then the user's query. *)
Theorem number_five_of_one_match_warns_and_apologises
  (q : string) (m : Match) (w : world) :
  refreshed [m] w ->
  intent_of (intent_value q (summary_text [m])) = Some (ByNumber 5) ->
  let shown := (intent_events q (summary_text [m])
                  ++ [EvWarning "Match number 5 is out of range."])%list in
  let prompt := general_text [m] ++ apology ++ nl ++ "User Query: " ++ q in
  resolve_match q w
  = (Ok (nothing_selected (intent_value q (summary_text [m]))), log shown w)
  /\ build_prompt q w = (Ok prompt, log shown w)
  /\ fetches shown = []
  /\ sends q prompt shown w.
Proof.
  intros Hr Hi shown prompt.
  assert (Hout : ~ (1 <= 5 <= Z.of_nat (List.length [m]))%Z) by (cbn; lia).
  destruct (out_of_range_turn q [m] 5 w Hr Hi Hout)
    as (Hres & Hbuild & Hfetch).
  assert (Hprompt : build_prompt q w = (Ok prompt, log shown w)) by exact Hbuild.
  repeat split; auto.
  now apply try_block_sends.
Qed.


(** ** Context assembly *)

Lemma bind_inv {A B} (c : M A) (k : A -> M B) (w w' : world) (b : B) :
  bind c k w = (Ok b, w') ->
  exists a w1, c w = (Ok a, w1) /\ k a w1 = (Ok b, w').
Proof.
  unfold bind. destruct (c w) as [[a|e] w1]; [|discriminate].
  intros H. now exists a, w1.
Qed.

Lemma general_block_inv (w w' : world) (general : string) :
  general_block w = (Ok general, w') ->
  if truthy (current_match_data w)
  then exists rest, general = "General Current Match Data:" ++ rest
  else general = "".
Proof.
  unfold general_block, bind at 1, get_world.
  destruct (truthy (current_match_data w)).
  - intros H.
    apply bind_inv in H as (ms & w1 & _ & H).
    apply bind_inv in H as (lines & w2 & _ & H).
    injection H as <- _. eexists; reflexivity.
  - now intros [= <- _].
Qed.

Lemma resolve_match_cache (q : string) (w w1 : world) (r : result locals) :
  resolve_match q w = (r, w1) -> current_match_data w1 = current_match_data w.
Proof.
  intros H. destruct (only_logs_resolve_match q w) as (evs & Hevs).
  rewrite H in Hevs; simpl in Hevs. now subst w1.
Qed.

Lemma fetch_details_cache (loc : locals) (w w1 : world) (r : result string) :
  fetch_details loc w = (r, w1) -> current_match_data w1 = current_match_data w.
Proof.
  intros H. destruct (only_logs_fetch_details loc w) as (evs & Hevs).
  rewrite H in Hevs; simpl in Hevs. now subst w1.
Qed.

Lemma fetch_details_no_cache (loc : locals) (w : world) :
  truthy (current_match_data w) = false ->
  truthy (selected_match_id loc) = false ->
  fetch_details loc w = (Ok "", w).
Proof.
  intros Hc Hid.
  apply (fetch_details_unselected loc false w Hid).
  unfold intent_named_a_match, bind, get_world. now rewrite Hc.
Qed.

Lemma assemble_context_no_cache (w : world) :
  truthy (current_match_data w) = false -> assemble_context "" w = (Ok "", w).
Proof.
  intros Hc. unfold assemble_context.
  erewrite bind_ok; [|now apply general_block_no_cache]. reflexivity.
Qed.

Lemma build_prompt_no_cache (q : string) (w : world) :
  truthy (current_match_data w) = false -> build_prompt q w = (Ok q, w).
Proof.
  intros Ht. unfold build_prompt.
  erewrite bind_ok; [|now apply resolve_match_no_cache].
  erewrite bind_ok; [|now apply fetch_details_no_cache].
  erewrite bind_ok; [|now apply assemble_context_no_cache].
  reflexivity.
Qed.

(** C6.  Without cached matches nothing is resolved and the prompt of the
    turn is the user's query itself, with nothing shown or asked on the
    way.  In every turn that gets as far as a prompt, the prompt is
    [full_prompt] of the assembled context: the query alone when the
    context is empty, and the context, then "User Query: ", then the query
    when it is not; and the context is empty exactly when no matches are
    cached. *)
Theorem prompt_is_context_then_query (q : string) (w : world) :
  (truthy (current_match_data w) = false -> build_prompt q w = (Ok q, w))
  /\ (forall prompt w',
        build_prompt q w = (Ok prompt, w') ->
        exists loc w1 detail w2 context,
          resolve_match q w = (Ok loc, w1)
          /\ fetch_details loc w1 = (Ok detail, w2)
          /\ assemble_context detail w2 = (Ok context, w')
          /\ (context = "" <-> truthy (current_match_data w) = false)
          /\ (context = "" -> prompt = q)
          /\ (context <> "" -> prompt = context ++ "User Query: " ++ q)).
Proof.
  split; [apply build_prompt_no_cache|].
  intros prompt w' H. unfold build_prompt in H.
  apply bind_inv in H as (loc & w1 & Hres & H).
  apply bind_inv in H as (detail & w2 & Hdet & H).
  apply bind_inv in H as (context & w3 & Hctx & H).
  injection H as <- <-.
  exists loc, w1, detail, w2, context. repeat split; auto.
  - intros ->.
    unfold assemble_context in Hctx.
    apply bind_inv in Hctx as (general & w4 & Hgen & Hctx).
    injection Hctx as Hctx _.
    apply general_block_inv in Hgen.
    rewrite (fetch_details_cache _ _ _ _ Hdet),
      (resolve_match_cache _ _ _ _ Hres) in Hgen.
    destruct (truthy (current_match_data w)); [|reflexivity].
    destruct Hgen as (rest & ->). discriminate Hctx.
  - intros Ht.
    rewrite (resolve_match_no_cache q w Ht) in Hres. injection Hres as <- <-.
    rewrite fetch_details_no_cache in Hdet; [|exact Ht|reflexivity].
    injection Hdet as <- <-.
    rewrite (assemble_context_no_cache w Ht) in Hctx. now injection Hctx as <- _.
  - now intros ->.
  - intros Hne. unfold full_prompt.
    destruct context; [congruence | reflexivity].
Qed.


Lemma nonempty_true (a : string) : a <> "" -> nonempty a = true.
Proof. destruct a; [congruence | reflexivity]. Qed.

Lemma reply_of_stream (q prompt : string) (texts : list string) (w w1 : world) :
  build_prompt q w = (Ok prompt, w1) ->
  send_message prompt = {| chunks := texts; failure := None |} ->
  reply_of (fst (try_block q w)) = String.concat "" texts.
Proof.
  intros Hp Hs.
  rewrite (try_block_run _ _ _ _ Hp), (stream_reply_run _ _ _ Hs). reflexivity.
Qed.

(** C8, amended.  While a reply streams, [full_bot_reply] after the
    [i]-th fragment is the concatenation of the first [i] fragments.  The
    reply area shows that text followed by the cursor as soon as it is not
    empty; fragments with an empty text are skipped, so until the first
    text arrives the area keeps what it showed before.  When the stream
    ends the area shows the whole text without the cursor, and that text is
    the assistant message recorded for the turn. *)
Theorem stream_shows_growing_reply (texts : list string) (i : nat) (w : world) :
  let buffer := String.concat "" (firstn i texts) in
  let w_i := snd (consume (firstn i texts) "" w) in
  fst (consume (firstn i texts) "" w) = Ok buffer
  /\ (buffer <> "" -> displayed w_i = Some (buffer ++ cursor))
  /\ (buffer = "" -> displayed w_i = displayed w)
  /\ (forall prompt,
        send_message prompt = {| chunks := texts; failure := None |} ->
        stream_reply prompt w
        = (Ok (String.concat "" texts),
           log (EvSend prompt :: frames texts ""
                  ++ [EvArea (String.concat "" texts)]) w)
        /\ displayed (snd (stream_reply prompt w)) = Some (String.concat "" texts))
  /\ (forall q w0 prompt w1,
        nonempty q = true ->
        build_prompt q (turn_start q w0) = (Ok prompt, w1) ->
        send_message prompt = {| chunks := texts; failure := None |} ->
        messages (snd (chat_turn q w0))
        = (messages w0 ++ [ {| role := "user"; text := q |};
                            {| role := "assistant";
                               text := String.concat "" texts |} ])%list).
Proof.
  intros buffer w_i; subst buffer w_i.
  rewrite consume_run; cbn [fst snd].
  rewrite displayed_log, displayed_frames.
  repeat split.
  - intros Hne. rewrite (nonempty_true _ Hne). reflexivity.
  - intros ->. reflexivity.
  - now apply stream_reply_run.
  - rewrite (stream_reply_run _ _ _ H); cbn [snd].
    rewrite displayed_log.
    change (EvSend prompt :: frames texts "" ++ [EvArea (String.concat "" texts)])%list
      with ((EvSend prompt :: frames texts "") ++ [EvArea (String.concat "" texts)])%list.
    generalize (EvSend prompt :: frames texts "") as evs.
    generalize (displayed w) as shown.
    intros shown evs; revert shown.
    induction evs as [|ev evs IH]; intros shown; [reflexivity|].
    destruct ev; cbn; apply IH.
  - intros q w0 prompt w1 Hq Hp Hs.
    rewrite (chat_turn_messages q w0 Hq).
    now rewrite (reply_of_stream _ _ _ _ _ Hp Hs).
Qed.


(** *** A match named by its name *)

(** [m.get('name', '')] is text: the name is a string, or absent. *)
Definition name_is_text (m : Match) : bool :=
  match field "name" (PStr "") m with
  | PStr _ => true
  | _ => false
  end.

(** The test of the loop: the name of [m] and [s] are equal once
    lowered. *)
Definition same_name (s : string) (m : Match) : bool :=
  match field "name" (PStr "") m with
  | PStr t => String.eqb (str_lower t) (str_lower s)
  | _ => false
  end.

(** The test of the loop is false on [m]: its name is text, or absent,
    and differs from [s] once both are lowered. *)
Definition other_name (s : string) (m : Match) : bool :=
  match field "name" (PStr "") m with
  | PStr t => negb (String.eqb (str_lower t) (str_lower s))
  | _ => false
  end.


Definition not_found (s : string) : string :=
  "Could not find match with name: " ++ s ++ ".".

Lemma search_by_name_step (m : Match) (rest : list pyval) (d : Match) (s : string)
      (w : world) :
  assoc "match_name" d = Some (PStr s) ->
  name_is_text m = true ->
  search_by_name (PDict m :: rest) (PDict d) w
  = if same_name s m
    then (Ok (field "id" PNone m, field "name" PNone m),
          log [identified "name" m] w)
    else search_by_name rest (PDict d) w.
Proof.
  intros Hs Hm. cbn [search_by_name].
  unfold bind, lift; cbn [py_get py_getitem]. rewrite Hs.
  unfold name_is_text, same_name, field in *.
  destruct (match assoc "name" m with Some x => x | None => PStr "" end);
    try discriminate.
  cbn [py_lower]. destruct (String.eqb (str_lower s0) (str_lower s)); [|reflexivity].
  now rewrite emit_log.
Qed.

Lemma other_name_text (s : string) (m : Match) :
  other_name s m = true -> name_is_text m = true /\ same_name s m = false.
Proof.
  unfold other_name, name_is_text, same_name.
  destruct (field "name" (PStr "") m); try discriminate.
  intros H%negb_true_iff. auto.
Qed.

Lemma other_name_negb (s : string) (m : Match) :
  name_is_text m = true -> other_name s m = negb (same_name s m).
Proof.
  unfold other_name, name_is_text, same_name.
  now destruct (field "name" (PStr "") m).
Qed.

Lemma search_by_name_miss (ms : list Match) (d : Match) (s : string) (w : world) :
  assoc "match_name" d = Some (PStr s) ->
  forallb (other_name s) ms = true ->
  search_by_name (map PDict ms) (PDict d) w = (Ok (PNone, PNone), w).
Proof.
  intros Hs. induction ms as [|m ms IH]; intros Ho; [reflexivity|].
  cbn [forallb] in *.
  apply andb_true_iff in Ho as [Hom Ho].
  destruct (other_name_text _ _ Hom) as [Hm Hdiff].
  cbn [map]. rewrite (search_by_name_step _ _ _ _ _ Hs Hm).
  rewrite Hdiff. auto.
Qed.

Lemma search_by_name_hit (pre post : list Match) (m d : Match) (s : string)
      (w : world) :
  assoc "match_name" d = Some (PStr s) ->
  forallb (other_name s) pre = true ->
  same_name s m = true ->
  search_by_name (map PDict (pre ++ m :: post)%list) (PDict d) w
  = (Ok (field "id" PNone m, field "name" PNone m), log [identified "name" m] w).
Proof.
  intros Hs. induction pre as [|m0 pre IH]; intros Ho Hm.
  - cbn [app map]. rewrite (search_by_name_step _ _ _ _ _ Hs).
    + now rewrite Hm.
    + unfold name_is_text, same_name in *.
      destruct (field "name" (PStr "") m); (reflexivity || discriminate).
  - cbn [forallb] in *.
    apply andb_true_iff in Ho as [Hom Ho].
    destruct (other_name_text _ _ Hom) as [Hm0 Hdiff].
    cbn [app map]. rewrite (search_by_name_step _ _ _ _ _ Hs Hm0).
    rewrite Hdiff. auto.
Qed.

Lemma route_by_name (cache : pyval) (d : Match) (s : pyval) (w : world) :
  truthy (PDict d) = true ->
  assoc "match_number" d = None ->
  assoc "match_name" d = Some s ->
  route_intent cache (PDict d) w
  = bind (select_by_name cache (PDict d))
      (fun sel => ret {| selected_match_id := fst sel;
                         selected_match_name := snd sel;
                         match_intent := Some (PDict d) |}) w.
Proof.
  intros Ht Hn Hs. unfold route_intent. rewrite Ht.
  unfold bind at 1, lift; cbn [py_contains]. rewrite Hn.
  unfold bind at 1; cbn [py_contains]. now rewrite Hs.
Qed.

(** What the turn shows when the name [s] selects [m]: the debug line,
    and the warning when [m] has no usable id. *)
Definition named_events (s : string) (m : Match) : list event :=
  identified "name" m
    :: (if truthy (field "id" PNone m) then [] else [EvWarning (not_found s)]).

Lemma select_by_name_hit (pre post : list Match) (m d : Match) (s : string)
      (w : world) :
  assoc "match_name" d = Some (PStr s) ->
  forallb (other_name s) pre = true ->
  same_name s m = true ->
  select_by_name (PList (map PDict (pre ++ m :: post)%list)) (PDict d) w
  = (Ok (field "id" PNone m, field "name" PNone m), log (named_events s m) w).
Proof.
  intros Hs Ho Hm. unfold select_by_name.
  erewrite bind_ok; [|reflexivity].
  erewrite bind_ok; [|apply (search_by_name_hit pre post m d s); assumption].
  cbn [fst]. unfold named_events.
  destruct (truthy (field "id" PNone m)); cbn [negb].
  - reflexivity.
  - unfold bind, lift, ret; cbn [py_getitem]. rewrite Hs.
    now rewrite emit_log, log_log.
Qed.

Lemma select_by_name_miss (ms : list Match) (d : Match) (s : string) (w : world) :
  assoc "match_name" d = Some (PStr s) ->
  forallb (other_name s) ms = true ->
  select_by_name (PList (map PDict ms)) (PDict d) w
  = (Ok (PNone, PNone), log [EvWarning (not_found s)] w).
Proof.
  intros Hs Ho. unfold select_by_name.
  erewrite bind_ok; [|reflexivity].
  erewrite bind_ok; [|apply (search_by_name_miss ms d s); assumption].
  cbn [fst truthy negb].
  unfold bind, lift, ret; cbn [py_getitem]. rewrite Hs.
  now rewrite emit_log.
Qed.


Lemma resolve_by_name_hit (q : string) (pre post : list Match) (m : Match)
      (s : string) (w : world) :
  let ms := (pre ++ m :: post)%list in
  refreshed ms w ->
  intent_of (intent_value q (summary_text ms)) = Some (ByName s) ->
  forallb (other_name s) pre = true ->
  same_name s m = true ->
  resolve_match q w
  = (Ok (selected m (intent_value q (summary_text ms))),
     log (intent_events q (summary_text ms) ++ named_events s m) w).
Proof.
  intros ms Hr Hi Ho Hm.
  destruct (intent_by_name _ _ Hi) as (d & Hv & Htr & Hn & Hs).
  rewrite (resolve_match_refreshed q ms w Hr), Hv in *.
  rewrite (route_by_name _ _ _ _ Htr Hn Hs).
  erewrite bind_ok; [|apply (select_by_name_hit pre post m d s); assumption].
  unfold ret, selected; cbn [fst snd]. now rewrite log_log.
Qed.

Lemma resolve_by_name_miss (q : string) (ms : list Match) (s : string) (w : world) :
  refreshed ms w ->
  intent_of (intent_value q (summary_text ms)) = Some (ByName s) ->
  forallb (other_name s) ms = true ->
  resolve_match q w
  = (Ok (nothing_selected (intent_value q (summary_text ms))),
     log (intent_events q (summary_text ms) ++ [EvWarning (not_found s)]) w).
Proof.
  intros Hr Hi Ho.
  destruct (intent_by_name _ _ Hi) as (d & Hv & Htr & Hn & Hs).
  rewrite (resolve_match_refreshed q ms w Hr), Hv in *.
  rewrite (route_by_name _ _ _ _ Htr Hn Hs).
  erewrite bind_ok; [|apply (select_by_name_miss ms d s); assumption].
  unfold ret, nothing_selected; cbn [fst snd]. now rewrite log_log.
Qed.

(** A turn whose intent names a match by name and selects no id carries
    the apology. *)
Lemma build_prompt_name_unselected (q : string) (ms : list Match) (s : string)
      (loc : locals) (evs : list event) (w : world) :
  refreshed ms w ->
  intent_of (intent_value q (summary_text ms)) = Some (ByName s) ->
  resolve_match q w = (Ok loc, log evs w) ->
  match_intent loc = Some (intent_value q (summary_text ms)) ->
  truthy (selected_match_id loc) = false ->
  build_prompt q w = (Ok (prompt_with ms apology q), log evs w).
Proof.
  intros Hr Hi Hres Hloc Hid.
  destruct (intent_by_name _ _ Hi) as (d & Hv & Htr & Hn & Hs).
  apply (build_prompt_unselected q ms loc true); auto.
  rewrite Hv in *. eapply intent_named_by_name; eauto.
  now apply (refreshed_truthy ms).
Qed.

Lemma first_match_or_none {A} (f : A -> bool) (l : list A) :
  forallb (fun x => negb (f x)) l = true
  \/ exists pre m post,
       l = (pre ++ m :: post)%list
       /\ forallb (fun x => negb (f x)) pre = true /\ f m = true.
Proof.
  induction l as [|x l [IH | (pre & m & post & -> & Hpre & Hm)]].
  - now left.
  - destruct (f x) eqn:Hx.
    + right. exists [], x, l. auto.
    + left. cbn. now rewrite Hx.
  - destruct (f x) eqn:Hx.
    + right. exists [], x, (pre ++ m :: post)%list. auto.
    + right. exists (x :: pre), m, post. cbn. rewrite Hx. auto.
Qed.

(** Among matches with text names, either every name is another name or
    there is a first match of that name. *)
Lemma first_named_or_none (s : string) (ms : list Match) :
  forallb name_is_text ms = true ->
  forallb (other_name s) ms = true
  \/ exists pre m post,
       ms = (pre ++ m :: post)%list
       /\ forallb (other_name s) pre = true /\ same_name s m = true.
Proof.
  intros Ht.
  assert (Hext : forall l, forallb name_is_text l = true ->
                           forallb (fun x => negb (same_name s x)) l
                           = forallb (other_name s) l).
  { induction l as [|x l IH]; [reflexivity|]. cbn [forallb].
    intros [Hx Hl]%andb_true_iff. now rewrite (other_name_negb s x Hx), IH. }
  destruct (first_match_or_none (same_name s) ms)
    as [Hnone | (pre & m & post & -> & Hpre & Hm)].
  - left. now rewrite <- Hext.
  - right. exists pre, m, post. repeat split; auto.
    rewrite <- Hext; [exact Hpre|].
    rewrite forallb_app in Ht. now apply andb_true_iff in Ht as [Ht _].
Qed.

(** C4, amended.  Over the cached matches of a refresh whose names are
    text, an intent [ByName s] selects a match exactly when some cached
    name equals [s] once both are lowered, and then it is the first such
    match in list order: the selected id and name are its [id] and [name]
    fields, the details are requested when that id is truthy, and when it
    is not the turn warns and its prompt holds the general match list, the
    apology text and the query.  When no cached name matches, the turn
    warns that the match was not found, selects nothing and requests
    nothing, and goes on with that same prompt.  The turn of an unresolved
    intent selects and requests nothing either, but shows no warning, and
    its prompt holds the general match list and the query alone. *)
Theorem by_name_selects_first_match_or_warns
  (q : string) (ms : list Match) (s : string) (w : world) :
  refreshed ms w ->
  forallb name_is_text ms = true ->
  let v := intent_value q (summary_text ms) in
  let asked := intent_events q (summary_text ms) in
  let apologises := general_text ms ++ apology ++ nl ++ "User Query: " ++ q in
  (intent_of v = Some (ByName s) ->
   (forall pre m post,
       ms = (pre ++ m :: post)%list ->
       forallb (other_name s) pre = true ->
       same_name s m = true ->
       resolve_match q w = (Ok (selected m v), log (asked ++ named_events s m) w)
       /\ (truthy (field "id" PNone m) = true ->
           fetch_opens_with (selected m v) (log (asked ++ named_events s m) w))
       /\ (truthy (field "id" PNone m) = false ->
           build_prompt q w
           = (Ok apologises, log (asked ++ named_events s m) w)))
   /\ (forallb (other_name s) ms = true ->
       resolve_match q w
       = (Ok (nothing_selected v), log (asked ++ [EvWarning (not_found s)]) w)
       /\ build_prompt q w
          = (Ok apologises, log (asked ++ [EvWarning (not_found s)]) w)
       /\ fetches (asked ++ [EvWarning (not_found s)]) = [])
   /\ (forallb (other_name s) ms = true
       \/ exists pre m post,
            ms = (pre ++ m :: post)%list
            /\ forallb (other_name s) pre = true /\ same_name s m = true))
  /\ (intent_of v = Some Unresolved ->
      resolve_match q w
      = (Ok (nothing_selected v), log (asked ++ no_intent_note v) w)
      /\ build_prompt q w
         = (Ok (general_text ms ++ "User Query: " ++ q),
            log (asked ++ no_intent_note v) w)
      /\ fetches (asked ++ no_intent_note v) = []).
Proof.
  intros Hr Ht v asked apologises; subst v asked apologises. split.
  - intros Hi. repeat split.
    + subst ms. now apply resolve_by_name_hit.
    + intros Hid. now apply fetch_details_opens.
    + intros Hid. subst ms.
      apply (build_prompt_name_unselected q _ s
               (selected m (intent_value q (summary_text (pre ++ m :: post)%list))));
        auto.
      now apply resolve_by_name_hit.
    + now apply resolve_by_name_miss.
    + apply (build_prompt_name_unselected q ms s
               (nothing_selected (intent_value q (summary_text ms))));
        auto.
      now apply resolve_by_name_miss.
    + now rewrite fetches_intent_events.
    + now apply first_named_or_none.
  - intros Hi. now apply unresolved_turn.
Qed.




(** ** The refresh *)

(** The summary lines of the refresh, for matches numbered from [i + 1]:
    one for each match before the sixth. *)
Fixpoint summary_from (i : Z) (ms : list Match) : list string :=
  match ms with
  | [] => []
  | m :: rest =>
      ((if (i <? 5)%Z
        then [summary_entry i (field "name" (PStr "N/A") m)
                (field "status" (PStr "N/A") m)]
        else []) ++ summary_from (i + 1) rest)%list
  end.

(** The world with more entries in [match_list_for_llm]. *)
Definition store (l : list MatchListEntry) (w : world) : world :=
  {| messages := messages w;
     current_match_data := current_match_data w;
     match_list_for_llm := (match_list_for_llm w ++ l)%list;
     trace := trace w;
     chat_history := chat_history w |}.

Lemma store_nil (w : world) : store [] w = w.
Proof. destruct w; unfold store; cbn. now rewrite app_nil_r. Qed.

Lemma refresh_loop_run (ms : list Match) (i : Z) (summary : list string) (w : world) :
  refresh_loop (map PDict ms) i summary w
  = (Ok (summary ++ summary_from i ms)%list, store (entries_from i ms) w).
Proof.
  revert i summary w; induction ms as [|m ms IH]; intros i summary w.
  - cbn. now rewrite app_nil_r, store_nil.
  - cbn [map refresh_loop summary_from entries_from].
    unfold bind at 1.
    destruct (i <? 5)%Z.
    + unfold bind at 1 2, lift at 1 2, ret at 1; cbn [py_get].
      unfold bind at 1 2 3 4, lift at 1 2, get_world, set_match_list_for_llm.
      cbn [py_get]. rewrite IH. unfold store, field; cbn.
      now rewrite <- !app_assoc.
    + unfold ret at 1.
      unfold bind at 1 2 3 4, lift at 1 2, get_world, set_match_list_for_llm.
      cbn [py_get]. rewrite IH. unfold store, field; cbn.
      now rewrite <- !app_assoc.
Qed.

Lemma entries_from_nth (ms : list Match) (i : Z) (k : nat) (m : Match) :
  nth_error ms k = Some m ->
  nth_error (entries_from i ms) k
  = Some {| entry_index := i + Z.of_nat k + 1;
            entry_name := field "name" (PStr "N/A") m;
            entry_id := field "id" (PStr "N/A") m |}.
Proof.
  revert i k; induction ms as [|m0 ms IH]; intros i [|k] H; try discriminate.
  - injection H as ->. cbn. now rewrite Z.add_0_r.
  - cbn [entries_from nth_error]. rewrite (IH (i + 1)%Z k H).
    do 2 f_equal. lia.
Qed.

Lemma entries_from_length (ms : list Match) (i : Z) :
  List.length (entries_from i ms) = List.length ms.
Proof. revert i; induction ms; intros i; cbn; auto. Qed.


(** The provider answered the call [url_type] for [id] with [data]. *)
Definition answers (url_type : string) (id data : pyval) : Prop :=
  exists status_code payload,
    requests_get (get_url url_type id) (get_params id)
    = Response status_code (Ok (PDict payload))
    /\ is_error_status status_code = false
    /\ py_eq_str (field "status" PNone payload) "success" = true
    /\ field "data" (PDict []) payload = data.

Lemma api_answers (url_type : string) (id data : pyval) (w : world) :
  answers url_type id data ->
  _make_api_request url_type id w
  = (Ok data, log [EvGet (get_url url_type id) (get_params id)] w).
Proof.
  intros (status_code & payload & Hget & Hst & Hok & <-).
  now apply (api_success url_type id status_code payload).
Qed.

(** The world after a refresh that fetched the matches [ms]. *)
Definition after_refresh (ms : list Match) (w : world) : world :=
  {| messages :=
       (messages w
          ++ [ {| role := "assistant";
                  text := refresh_message (String.concat nl (summary_from 0 ms)) |} ])%list;
     current_match_data := PList (map PDict ms);
     match_list_for_llm := entries_from 0 ms;
     trace :=
       (trace w
          ++ [EvSpinner "Fetching current matches...";
              EvGet (get_url "currentMatches" PNone) (get_params PNone)])%list;
     chat_history := chat_history w |}.

Lemma fetch_latest_matches_run (ms : list Match) (w : world) :
  ms <> [] ->
  answers "currentMatches" PNone (PList (map PDict ms)) ->
  fetch_latest_matches w = (Ok tt, after_refresh ms w).
Proof.
  intros Hne Hans. unfold fetch_latest_matches.
  erewrite bind_ok; [|apply emit_log].
  unfold get_current_matches.
  erewrite bind_ok; [|apply api_answers; exact Hans].
  destruct ms as [|m ms]; [congruence|].
  cbn [truthy map].
  erewrite bind_ok; [|reflexivity].
  erewrite bind_ok; [|reflexivity].
  erewrite bind_ok; [|reflexivity].
  erewrite bind_ok;
    [|apply (refresh_loop_run (m :: ms) 0 [])].
  unfold append_message, after_refresh, store, log; cbn.
  now rewrite <- app_assoc.
Qed.

Lemma refreshed_after_refresh (ms : list Match) (w : world) :
  ms <> [] -> refreshed ms (after_refresh ms w).
Proof. intros Hne. now repeat split. Qed.

(** The summary message of a refresh lists the matches like this: the
    number of the match, its name in bold and its status. *)
Definition summary_row (k : Z) (m : Match) : string :=
  str_of_int k ++ ". **" ++ py_str (field "name" (PStr "N/A") m) ++ "** - "
    ++ py_str (field "status" (PStr "N/A") m).

(** The rows of the matches [ms], numbered from [k] on. *)
Fixpoint numbered_rows (k : Z) (ms : list Match) : list string :=
  match ms with
  | [] => []
  | m :: rest => summary_row k m :: numbered_rows (k + 1) rest
  end.

Lemma summary_from_rows (ms : list Match) (i : Z) :
  (0 <= i)%Z ->
  summary_from i ms = numbered_rows (i + 1) (firstn (Z.to_nat (5 - i)) ms).
Proof.
  revert i; induction ms as [|m ms IH]; intros i Hi.
  - now rewrite firstn_nil.
  - cbn [summary_from]. destruct (Z.ltb_spec i 5) as [Hlt|Hge].
    + replace (Z.to_nat (5 - i)) with (S (Z.to_nat (5 - (i + 1)))) by lia.
      cbn [firstn numbered_rows app]. rewrite <- IH by lia. reflexivity.
    + replace (Z.to_nat (5 - i)) with 0 by lia. cbn [firstn numbered_rows app].
      rewrite (IH (i + 1)%Z) by lia.
      replace (Z.to_nat (5 - (i + 1))) with 0 by lia. reflexivity.
Qed.

Lemma numbered_rows_length (k : Z) (ms : list Match) :
  List.length (numbered_rows k ms) = List.length ms.
Proof. revert k; induction ms; intros k; cbn; auto. Qed.

(** C9.  A refresh that fetches the matches [ms] (at least one: the
    script takes an empty answer for a failed fetch) leaves a summary
    message that lists the first [min L 5] matches only, one row for each
    with its number, name and status, while it caches all [L] matches and
    stores all [L] lookup entries, the [k]-th with index [k] (counting from
    1) and the name and id of the [k]-th cached match.  After it,
    [ByNumber n] selects the [n]-th cached match for every [1 <= n <= L],
    beyond the fifth as well. *)
Theorem refresh_stores_all_matches_and_lists_five (ms : list Match) (w : world) :
  ms <> [] ->
  answers "currentMatches" PNone (PList (map PDict ms)) ->
  let w' := snd (fetch_latest_matches w) in
  let listed := numbered_rows 1 (firstn 5 ms) in
  fst (fetch_latest_matches w) = Ok tt
  /\ messages w'
     = (messages w
          ++ [ {| role := "assistant";
                  text := "Here are some of the current matches:" ++ nl
                            ++ String.concat nl listed ++ nl ++ nl
                            ++ "I've stored this information. Now you can ask me for fantasy recommendations based on these matches, or ask about a specific match by its number (e.g., 'tell me about match 1') or by its name." |} ])%list
  /\ List.length listed = Nat.min (List.length ms) 5
  /\ current_match_data w' = PList (map PDict ms)
  /\ List.length (match_list_for_llm w') = List.length ms
  /\ (forall k m,
        nth_error ms k = Some m ->
        nth_error (match_list_for_llm w') k
        = Some {| entry_index := Z.of_nat k + 1;
                  entry_name := field "name" (PStr "N/A") m;
                  entry_id := field "id" (PStr "N/A") m |})
  /\ (forall q n,
        intent_of (intent_value q (summary_text ms)) = Some (ByNumber n) ->
        (1 <= n <= Z.of_nat (List.length ms))%Z ->
        exists m,
          nth_error ms (Z.to_nat (n - 1)) = Some m
          /\ resolve_match q w'
             = (Ok (selected m (intent_value q (summary_text ms))),
                log (intent_events q (summary_text ms)
                       ++ [identified "number" m]) w')).
Proof.
  intros Hne Hans w' listed; subst w' listed.
  rewrite (fetch_latest_matches_run ms w Hne Hans); cbn [fst snd].
  repeat split.
  - cbn [after_refresh messages]. rewrite (summary_from_rows ms 0) by lia.
    reflexivity.
  - rewrite numbered_rows_length, length_firstn. lia.
  - apply entries_from_length.
  - intros k m Hk. cbn [after_refresh match_list_for_llm].
    now rewrite (entries_from_nth ms 0 k m Hk).
  - intros q n Hi Hn.
    apply resolve_by_number_in_range; auto.
    now apply refreshed_after_refresh.
Qed.


(** ** Failed requests *)

(** The outcomes on which [_make_api_request] reports an error and
    returns [None]: the call raises a [RequestException], the status is in
    the 4xx or 5xx range, the body is not JSON (for a [requests] that
    raises its own [JSONDecodeError]), or the payload is an object whose
    [status] is not [success]. *)
Definition fails (o : http_outcome) : bool :=
  match o with
  | GetRaises e => is_request_exception e
  | Response status_code json =>
      if is_error_status status_code then true
      else
        match json with
        | Ok (PDict payload) =>
            negb (py_eq_str (field "status" PNone payload) "success")
        | Ok _ => false
        | Raise e => is_request_exception e
        end
  end.

(** The error the client shows for a failing outcome. *)
Definition failure_text (url_type : string) (o : http_outcome) : string :=
  match o with
  | GetRaises e => network_error url_type e
  | Response status_code json =>
      if is_error_status status_code
      then network_error url_type (HTTPError status_code)
      else
        match json with
        | Ok (PDict payload) => provider_error url_type payload
        | Ok _ => ""
        | Raise e => network_error url_type e
        end
  end.

Definition failed_request (url_type : string) (id : pyval) : list event :=
  [EvGet (get_url url_type id) (get_params id);
   EvError (failure_text url_type
              (requests_get (get_url url_type id) (get_params id)))].

Lemma api_failure (url_type : string) (id : pyval) (w : world) :
  fails (requests_get (get_url url_type id) (get_params id)) = true ->
  _make_api_request url_type id w = (Ok PNone, log (failed_request url_type id) w).
Proof.
  unfold failed_request.
  destruct (requests_get (get_url url_type id) (get_params id))
    as [e|status_code json] eqn:Hget; cbn [fails failure_text].
  - intros He. now apply api_request_raises.
  - destruct (is_error_status status_code) eqn:Hst.
    + intros _. now apply (api_error_status url_type id status_code json).
    + destruct json as [[| | | | |payload]|e]; try discriminate.
      * intros Hf%negb_true_iff.
        now apply (api_provider_failure url_type id status_code payload).
      * intros He. unfold _make_api_request.
        erewrite try_except_caught; cycle 1.
        { erewrite bind_ok; [|apply emit_log]. rewrite Hget.
          unfold raise_for_status. fold (is_error_status status_code).
          rewrite Hst. reflexivity. }
        { exact He. }
        erewrite bind_ok; [|apply emit_log]. unfold ret. now rewrite log_log.
Qed.

Definition fetching (loc : locals) : event :=
  EvSpinner ("Fetching details for "
               ++ py_str (py_or (selected_match_name loc) "the selected match")
               ++ "...").

Lemma fetch_details_failures (loc : locals) (w : world) :
  let id := selected_match_id loc in
  truthy id = true ->
  fails (requests_get (get_url "match_info" id) (get_params id)) = true ->
  fails (requests_get (get_url "match_squad" id) (get_params id)) = true ->
  fetch_details loc w
  = (Ok "",
     log (fetching loc :: failed_request "match_info" id
            ++ failed_request "match_squad" id) w).
Proof.
  intros id Hid Hinfo Hsquad; subst id. unfold fetch_details. rewrite Hid.
  erewrite bind_ok; [|apply emit_log].
  unfold get_match_info, get_match_squad.
  erewrite bind_ok; [|apply api_failure; exact Hinfo].
  erewrite bind_ok; [|apply api_failure; exact Hsquad].
  unfold info_block, squad_block; cbn [truthy].
  erewrite bind_ok; [|reflexivity].
  erewrite bind_ok; [|reflexivity].
  unfold ret. now rewrite !log_log.
Qed.

Lemma build_prompt_failures (q : string) (ms : list Match) (loc : locals)
      (evs : list event) (w : world) :
  let id := selected_match_id loc in
  refreshed ms w ->
  resolve_match q w = (Ok loc, log evs w) ->
  truthy id = true ->
  fails (requests_get (get_url "match_info" id) (get_params id)) = true ->
  fails (requests_get (get_url "match_squad" id) (get_params id)) = true ->
  build_prompt q w
  = (Ok (prompt_with ms "" q),
     log (evs ++ fetching loc :: failed_request "match_info" id
            ++ failed_request "match_squad" id) w).
Proof.
  intros id Hr Hres Hid Hinfo Hsquad; subst id. unfold build_prompt.
  erewrite bind_ok; [|exact Hres].
  erewrite bind_ok; [|now apply fetch_details_failures].
  erewrite bind_ok; [|apply assemble_context_run; exact Hr].
  unfold ret. now rewrite full_prompt_general, log_log.
Qed.

Lemma refresh_failure (w : world) :
  fails (requests_get (get_url "currentMatches" PNone) (get_params PNone)) = true ->
  fetch_latest_matches w
  = (Ok tt,
     say {| role := "assistant";
            text := "Could not fetch current matches. Please try again later." |}
       (log (EvSpinner "Fetching current matches..."
               :: failed_request "currentMatches" PNone) w)).
Proof.
  intros Hf. unfold fetch_latest_matches.
  erewrite bind_ok; [|apply emit_log].
  unfold get_current_matches.
  erewrite bind_ok; [|apply api_failure; exact Hf].
  cbn [truthy]. rewrite append_message_say. now rewrite log_log.
Qed.


(** ** Counting the calls to the outside *)

Definition is_intent_call (ev : event) : bool :=
  match ev with EvIntent _ _ => true | _ => false end.

Definition is_send (ev : event) : bool :=
  match ev with EvSend _ => true | _ => false end.

Definition count (p : event -> bool) (evs : list event) : nat :=
  List.length (filter p evs).

(** The statement [c] only adds to the trace, and what it adds holds at
    most [i] calls of the intent model, [g] requests to the provider and
    [s] prompts sent to the chat model. *)
Definition within (i g s : nat) {A} (c : M A) : Prop :=
  forall w,
    exists evs,
      trace (snd (c w)) = (trace w ++ evs)%list
      /\ count is_intent_call evs <= i
      /\ count is_get evs <= g
      /\ count is_send evs <= s.

Lemma count_app (p : event -> bool) (e1 e2 : list event) :
  count p (e1 ++ e2) = count p e1 + count p e2.
Proof. unfold count. now rewrite filter_app, length_app. Qed.

Lemma within_le (i g s i' g' s' : nat) {A} (c : M A) :
  within i g s c -> i <= i' -> g <= g' -> s <= s' -> within i' g' s' c.
Proof.
  intros Hc Hi Hg Hs w. destruct (Hc w) as (evs & Ht & H1 & H2 & H3).
  exists evs. repeat split; auto; lia.
Qed.

Lemma within_pure {A} (c : M A) :
  (forall w, trace (snd (c w)) = trace w) -> within 0 0 0 c.
Proof.
  intros H w. exists []. rewrite H, app_nil_r. repeat split; auto.
Qed.

Lemma within_emit (ev : event) :
  is_intent_call ev = false -> is_get ev = false -> is_send ev = false ->
  within 0 0 0 (emit ev).
Proof.
  intros H1 H2 H3 w. exists [ev]. unfold count; cbn. rewrite H1, H2, H3.
  repeat split; auto.
Qed.

Lemma within_bind (i1 g1 s1 i2 g2 s2 : nat) {A B} (c : M A) (k : A -> M B) :
  within i1 g1 s1 c -> (forall a, within i2 g2 s2 (k a)) ->
  within (i1 + i2) (g1 + g2) (s1 + s2) (bind c k).
Proof.
  intros Hc Hk w. unfold bind.
  destruct (Hc w) as (e1 & Ht & H1 & H2 & H3).
  destruct (c w) as [[a|e] w1]; cbn [snd] in *.
  - destruct (Hk a w1) as (e2 & Ht2 & H4 & H5 & H6).
    exists (e1 ++ e2)%list. rewrite Ht2, Ht, <- app_assoc, !count_app.
    repeat split; auto; lia.
  - exists e1. repeat split; auto; lia.
Qed.

Lemma within_try (i1 g1 s1 i2 g2 s2 : nat) {A} (body : M A) (caught : exn -> bool)
      (handler : exn -> M A) :
  within i1 g1 s1 body -> (forall e, within i2 g2 s2 (handler e)) ->
  within (i1 + i2) (g1 + g2) (s1 + s2) (try_except body caught handler).
Proof.
  intros Hb Hh w. unfold try_except.
  destruct (Hb w) as (e1 & Ht & H1 & H2 & H3).
  destruct (body w) as [[a|e] w1]; cbn [snd] in *.
  - exists e1. repeat split; auto; lia.
  - destruct (caught e); cbn [snd].
    + destruct (Hh e w1) as (e2 & Ht2 & H4 & H5 & H6).
      exists (e1 ++ e2)%list. rewrite Ht2, Ht, <- app_assoc, !count_app.
      repeat split; auto; lia.
    + exists e1. repeat split; auto; lia.
Qed.

(** Statements that call nothing outside. *)
Ltac calm :=
  repeat first
    [ assumption
    | apply within_pure; intros ?; reflexivity
    | apply within_emit; reflexivity
    | apply (within_bind 0 0 0 0 0 0); [|intros ?]
    | apply (within_try 0 0 0 0 0 0); [|intros ?]
    | match goal with
      | |- within _ _ _ (if ?b then _ else _) => destruct b
      | |- within _ _ _ (match ?x with _ => _ end) => destruct x
      end ].

Lemma within_make_api_request (url_type : string) (id : pyval) :
  within 0 1 0 (_make_api_request url_type id).
Proof.
  unfold _make_api_request.
  apply (within_try 0 1 0 0 0 0); [|intros e; calm].
  apply (within_bind 0 1 0 0 0 0).
  - intros w. exists [EvGet (get_url url_type id) (get_params id)].
    repeat split; auto.
  - intros _. unfold raise_for_status. calm.
Qed.

Lemma within_get_match_intent (q summary : string) :
  within 1 0 0 (get_match_intent q summary).
Proof.
  unfold get_match_intent.
  apply (within_try 1 0 0 0 0 0); [|intros e; calm].
  apply (within_bind 1 0 0 0 0 0); [|intros _; calm].
  intros w. exists [EvIntent q summary]. repeat split; auto.
Qed.

Lemma within_search_by_name (ms : list pyval) (intent : pyval) :
  within 0 0 0 (search_by_name ms intent).
Proof. induction ms as [|m ms IH]; cbn [search_by_name]; calm. Qed.

Lemma within_route_intent (cache intent : pyval) :
  within 0 0 0 (route_intent cache intent).
Proof.
  unfold route_intent, select_by_number, select_by_name.
  destruct (truthy intent); [|calm].
  apply (within_bind 0 0 0 0 0 0); [calm|intros [|]].
  - calm.
  - apply (within_bind 0 0 0 0 0 0); [calm|intros [|]]; [|calm].
    apply (within_bind 0 0 0 0 0 0); [|intros; calm].
    apply (within_bind 0 0 0 0 0 0); [calm|intros ms].
    apply (within_bind 0 0 0 0 0 0); [apply within_search_by_name|intros; calm].
Qed.

Lemma within_resolve_match (q : string) : within 1 0 0 (resolve_match q).
Proof.
  unfold resolve_match.
  apply (within_bind 0 0 0 1 0 0); [calm|intros w].
  destruct (_ && _); [|apply (within_le 0 0 0); [calm|lia..]].
  apply (within_bind 1 0 0 0 0 0); [apply within_get_match_intent|intros intent].
  apply within_route_intent.
Qed.

Lemma within_player_names (ps : list pyval) : within 0 0 0 (player_names ps).
Proof. induction ps as [|p ps IH]; cbn [player_names]; calm. Qed.

Lemma within_squad_lines (teams : list pyval) : within 0 0 0 (squad_lines teams).
Proof.
  induction teams as [|t teams IH]; cbn [squad_lines]; [calm|].
  do 3 (apply (within_bind 0 0 0 0 0 0); [calm|intros ?]).
  apply (within_bind 0 0 0 0 0 0); [apply within_player_names|intros ?].
  calm.
Qed.

Lemma within_detail_blocks (loc : locals) (match_info match_squad : pyval) :
  within 0 0 0
    (info <- info_block loc match_info ;;
     squads <- squad_block match_squad ;;
     ret (info ++ squads)).
Proof.
  unfold info_block, squad_block.
  apply (within_bind 0 0 0 0 0 0); [calm|intros ?].
  apply (within_bind 0 0 0 0 0 0); [|intros; calm].
  destruct (truthy match_squad); [|calm].
  apply (within_bind 0 0 0 0 0 0); [calm|intros ?].
  apply (within_bind 0 0 0 0 0 0); [apply within_squad_lines|intros; calm].
Qed.

Lemma within_fetch_details (loc : locals) : within 0 2 0 (fetch_details loc).
Proof.
  unfold fetch_details, get_match_info, get_match_squad, intent_named_a_match.
  destruct (truthy (selected_match_id loc)).
  - apply (within_bind 0 0 0 0 2 0); [calm|intros _].
    apply (within_bind 0 1 0 0 1 0); [apply within_make_api_request|intros ?].
    apply (within_bind 0 1 0 0 0 0); [apply within_make_api_request|intros ?].
    apply within_detail_blocks.
  - apply (within_le 0 0 0); [calm|lia..].
Qed.

Lemma within_general_lines (ms : list pyval) : within 0 0 0 (general_lines ms).
Proof. induction ms as [|m ms IH]; cbn [general_lines]; calm. Qed.

Lemma within_assemble_context (detail : string) :
  within 0 0 0 (assemble_context detail).
Proof.
  unfold assemble_context, general_block.
  apply (within_bind 0 0 0 0 0 0); [|intros; calm].
  apply (within_bind 0 0 0 0 0 0); [calm|intros w].
  destruct (truthy _); [|calm].
  apply (within_bind 0 0 0 0 0 0); [calm|intros ?].
  apply (within_bind 0 0 0 0 0 0); [apply within_general_lines|intros; calm].
Qed.

Lemma within_build_prompt (q : string) : within 1 2 0 (build_prompt q).
Proof.
  unfold build_prompt.
  apply (within_bind 1 0 0 0 2 0); [apply within_resolve_match|intros loc].
  apply (within_bind 0 2 0 0 0 0); [apply within_fetch_details|intros detail].
  apply (within_bind 0 0 0 0 0 0); [apply within_assemble_context|intros; calm].
Qed.

Lemma within_consume (texts : list string) (acc : string) :
  within 0 0 0 (consume texts acc).
Proof.
  revert acc; induction texts as [|t texts IH]; intros acc; cbn [consume]; [calm|].
  destruct (nonempty t); [|apply IH].
  apply (within_bind 0 0 0 0 0 0); [calm|intros _; apply IH].
Qed.

Lemma within_stream_reply (prompt : string) : within 0 0 1 (stream_reply prompt).
Proof.
  unfold stream_reply.
  apply (within_bind 0 0 1 0 0 0).
  - intros w. exists [EvSend prompt]. repeat split; auto.
  - intros _.
    apply (within_bind 0 0 0 0 0 0); [apply within_consume|intros; calm].
Qed.

Lemma within_try_block (q : string) : within 1 2 1 (try_block q).
Proof.
  unfold try_block.
  apply (within_bind 1 2 0 0 0 1); [apply within_build_prompt|intros p].
  apply (within_bind 0 0 0 0 0 1); [calm|intros _; apply within_stream_reply].
Qed.

Lemma within_chat_turn (q : string) : within 1 2 1 (chat_turn q).
Proof.
  unfold chat_turn. destruct (nonempty q); [|apply (within_le 0 0 0); [calm|lia..]].
  apply (within_bind 0 0 0 1 2 1); [calm|intros _].
  apply (within_bind 0 0 0 1 2 1); [calm|intros _].
  apply (within_bind 0 0 0 1 2 1); [calm|intros _].
  apply (within_bind 1 2 1 0 0 0); [|intros; calm].
  apply (within_try 1 2 1 0 0 0); [apply within_try_block|intros e; calm].
Qed.

Lemma within_refresh_loop (ms : list pyval) (i : Z) (summary : list string) :
  within 0 0 0 (refresh_loop ms i summary).
Proof.
  revert i summary; induction ms as [|m ms IH]; intros i summary;
    cbn [refresh_loop]; [calm|].
  apply (within_bind 0 0 0 0 0 0); [calm|intros ?].
  do 3 (apply (within_bind 0 0 0 0 0 0); [calm|intros ?]).
  apply (within_bind 0 0 0 0 0 0); [calm|intros _; apply IH].
Qed.

Lemma within_fetch_latest_matches : within 0 1 0 fetch_latest_matches.
Proof.
  unfold fetch_latest_matches, get_current_matches.
  apply (within_bind 0 0 0 0 1 0); [calm|intros _].
  apply (within_bind 0 1 0 0 0 0); [apply within_make_api_request|intros matches].
  destruct (truthy matches); [|calm].
  do 3 (apply (within_bind 0 0 0 0 0 0); [calm|intros ?]).
  apply (within_bind 0 0 0 0 0 0); [apply within_refresh_loop|intros; calm].
Qed.


(** ** Numbers written in the query *)

(** Text within ASCII, where every byte is a character: its digits, and
    the lowering of its letters A to Z. *)
Definition is_ascii_char (c : ascii) : bool := Nat.ltb (nat_of_ascii c) 128.

Definition is_ascii (s : string) : bool :=
  forallb is_ascii_char (list_ascii_of_string s).

Definition is_ascii_digit (c : ascii) : bool :=
  let n := nat_of_ascii c in andb (Nat.leb 48 n) (Nat.leb n 57).

Definition ascii_digit_value (c : ascii) : Z := Z.of_nat (nat_of_ascii c - 48).

Definition lower_ascii (c : ascii) : ascii :=
  let n := nat_of_ascii c in
  if andb (Nat.leb 65 n) (Nat.leb n 90) then ascii_of_nat (n + 32) else c.

Fixpoint lower_ascii_text (s : string) : string :=
  match s with
  | EmptyString => EmptyString
  | String c s' => String (lower_ascii c) (lower_ascii_text s')
  end.

(** No character of the ASCII text [s] is a digit. *)
Definition no_ascii_digit (s : string) : bool :=
  forallb (fun c => negb (is_ascii_digit c)) (list_ascii_of_string s).

Definition all_ascii_digits (s : string) : bool :=
  forallb is_ascii_digit (list_ascii_of_string s).

Definition starts_with_ascii_digit (s : string) : bool :=
  match s with
  | String c _ => is_ascii_digit c
  | EmptyString => false
  end.

(** What every interpreter does within ASCII: [str.lower] lowers the
    letters A to Z and keeps the rest, and the decimal digits are 0 to 9
    with their values. *)
Definition lowers_ascii : Prop :=
  forall s, is_ascii s = true -> str_lower s = lower_ascii_text s.

Definition reads_ascii_digits : Prop :=
  forall c, is_ascii_char c = true ->
            unicode_decimal (String c EmptyString)
            = if is_ascii_digit c then Some (ascii_digit_value c) else None.

(** The characters of an ASCII text. *)
Definition letters (s : string) : list string :=
  map (fun c => String c EmptyString) (list_ascii_of_string s).

(** No character of [cs] is a digit. *)
Definition no_digit (cs : list string) : bool :=
  forallb (fun c => negb (is_digit c)) cs.

Lemma ascii_begins_a_character (c : ascii) :
  is_ascii_char c = true -> is_continuation c = false.
Proof.
  destruct c as [[] [] [] [] [] [] [] []]; intros H; try reflexivity; discriminate H.
Qed.

Lemma chars_ascii (s : string) : is_ascii s = true -> chars s = letters s.
Proof.
  unfold is_ascii, letters. induction s as [|c s IH]; [reflexivity|].
  cbn [list_ascii_of_string forallb map chars]. intros [Hc Hs]%andb_true_iff.
  rewrite (IH Hs).
  assert (Hn : starts_with_continuation s = false).
  { destruct s as [|c' s]; [reflexivity|].
    cbn [list_ascii_of_string forallb] in Hs. apply andb_true_iff in Hs as [Hc' _].
    now apply ascii_begins_a_character. }
  now rewrite Hn.
Qed.

Lemma is_ascii_append (a b : string) :
  is_ascii (a ++ b) = andb (is_ascii a) (is_ascii b).
Proof.
  unfold is_ascii. induction a as [|c a IH]; [reflexivity|].
  cbn [append list_ascii_of_string forallb].
  now rewrite IH, andb_assoc.
Qed.

Lemma letters_append (a b : string) :
  letters (a ++ b) = (letters a ++ letters b)%list.
Proof.
  unfold letters. induction a as [|c a IH]; cbn; [reflexivity|].
  now rewrite IH.
Qed.

Lemma length_letters (s : string) : List.length (letters s) = String.length s.
Proof.
  unfold letters. induction s as [|c s IH]; cbn; [reflexivity|].
  now rewrite IH.
Qed.

Lemma lower_ascii_text_append (a b : string) :
  lower_ascii_text (a ++ b) = lower_ascii_text a ++ lower_ascii_text b.
Proof. induction a; simpl; congruence. Qed.

Lemma is_ascii_char_lower (c : ascii) :
  is_ascii_char (lower_ascii c) = is_ascii_char c.
Proof. destruct c as [[] [] [] [] [] [] [] []]; reflexivity. Qed.

Lemma is_ascii_digit_lower (c : ascii) :
  is_ascii_digit (lower_ascii c) = is_ascii_digit c.
Proof. destruct c as [[] [] [] [] [] [] [] []]; reflexivity. Qed.

Lemma lower_ascii_digit (c : ascii) : is_ascii_digit c = true -> lower_ascii c = c.
Proof.
  destruct c as [[] [] [] [] [] [] [] []]; intros H; try reflexivity; discriminate H.
Qed.

Lemma ascii_digit_is_ascii (c : ascii) :
  is_ascii_digit c = true -> is_ascii_char c = true.
Proof.
  destruct c as [[] [] [] [] [] [] [] []]; intros H; try reflexivity; discriminate H.
Qed.

Lemma is_ascii_lower (s : string) : is_ascii (lower_ascii_text s) = is_ascii s.
Proof.
  unfold is_ascii. induction s as [|c s IH]; [reflexivity|].
  cbn [lower_ascii_text list_ascii_of_string forallb].
  now rewrite is_ascii_char_lower, IH.
Qed.

Lemma no_ascii_digit_lower (s : string) :
  no_ascii_digit (lower_ascii_text s) = no_ascii_digit s.
Proof.
  unfold no_ascii_digit. induction s as [|c s IH]; [reflexivity|].
  cbn [lower_ascii_text list_ascii_of_string forallb].
  now rewrite is_ascii_digit_lower, IH.
Qed.

Lemma starts_with_ascii_digit_lower (s : string) :
  starts_with_ascii_digit (lower_ascii_text s) = starts_with_ascii_digit s.
Proof.
  destruct s; [reflexivity|].
  cbn [lower_ascii_text starts_with_ascii_digit]. apply is_ascii_digit_lower.
Qed.

Lemma lower_ascii_digits (ds : string) :
  all_ascii_digits ds = true -> lower_ascii_text ds = ds.
Proof.
  unfold all_ascii_digits; induction ds as [|c ds IH]; [reflexivity|].
  cbn [lower_ascii_text list_ascii_of_string forallb]. intros H.
  apply andb_true_iff in H as [Hc Hds].
  now rewrite (lower_ascii_digit _ Hc), (IH Hds).
Qed.

Section AsciiDigits.

Hypothesis Hdigits : reads_ascii_digits.

Lemma is_digit_letter (c : ascii) :
  is_ascii_char c = true -> is_digit (String c EmptyString) = is_ascii_digit c.
Proof.
  intros Hc. unfold is_digit. rewrite (Hdigits c Hc).
  now destruct (is_ascii_digit c).
Qed.

Lemma digit_value_letter (c : ascii) :
  is_ascii_digit c = true -> digit_value (String c EmptyString) = ascii_digit_value c.
Proof.
  intros Hc. unfold digit_value.
  rewrite (Hdigits c (ascii_digit_is_ascii c Hc)). now rewrite Hc.
Qed.

Lemma no_digit_letters (s : string) :
  is_ascii s = true -> no_digit (letters s) = no_ascii_digit s.
Proof.
  unfold is_ascii, no_digit, letters, no_ascii_digit.
  induction s as [|c s IH]; [reflexivity|].
  cbn [list_ascii_of_string forallb map].
  intros [Hc Hs]%andb_true_iff. now rewrite (is_digit_letter c Hc), (IH Hs).
Qed.

Lemma all_digits_letters (s : string) :
  all_ascii_digits s = true -> all_digits (letters s) = true.
Proof.
  unfold all_digits, letters, all_ascii_digits.
  induction s as [|c s IH]; [reflexivity|].
  cbn [list_ascii_of_string forallb map].
  intros [Hc Hs]%andb_true_iff.
  now rewrite (is_digit_letter c (ascii_digit_is_ascii c Hc)), Hc, (IH Hs).
Qed.

Lemma starts_with_digit_letters (s : string) :
  is_ascii s = true -> starts_with_digit (letters s) = starts_with_ascii_digit s.
Proof.
  destruct s as [|c s]; [reflexivity|]. unfold is_ascii.
  cbn [list_ascii_of_string forallb letters map starts_with_digit
       starts_with_ascii_digit].
  intros [Hc _]%andb_true_iff. now apply is_digit_letter.
Qed.

Lemma no_digit_keyword : no_digit keyword = true.
Proof.
  change keyword with (letters "match ").
  now rewrite no_digit_letters.
Qed.

Definition digit_step (acc : Z) (c : ascii) : Z := (10 * acc + ascii_digit_value c)%Z.

Lemma fold_letters (s : string) (acc : Z) :
  all_ascii_digits s = true ->
  fold_left (fun acc c => (10 * acc + digit_value c)%Z) (letters s) acc
  = fold_left digit_step (list_ascii_of_string s) acc.
Proof.
  unfold all_ascii_digits, letters.
  revert acc; induction s as [|c s IH]; intros acc; [reflexivity|].
  cbn [list_ascii_of_string forallb map fold_left].
  intros [Hc Hs]%andb_true_iff.
  rewrite (digit_value_letter c Hc). now apply IH.
Qed.

End AsciiDigits.

Lemma fold_uint_acc (d : Decimal.uint) (acc : positive) :
  fold_left digit_step (list_ascii_of_string (NilEmpty.string_of_uint d)) (Z.pos acc)
  = Z.pos (Pos.of_uint_acc d acc).
Proof.
  revert acc; induction d; intros acc; cbn [NilEmpty.string_of_uint
    list_ascii_of_string fold_left Pos.of_uint_acc]; [reflexivity|..];
    rewrite <- IHd; f_equal; unfold digit_step, ascii_digit_value;
    try match goal with
        | |- context [Z.of_nat ?n] =>
            let v := eval vm_compute in (Z.of_nat n) in
            change (Z.of_nat n) with v
        end; lia.
Qed.

Lemma fold_uint (d : Decimal.uint) :
  fold_left digit_step (list_ascii_of_string (NilEmpty.string_of_uint d)) 0%Z
  = Z.of_N (Pos.of_uint d).
Proof.
  induction d; cbn [NilEmpty.string_of_uint list_ascii_of_string fold_left
    Pos.of_uint]; [reflexivity| exact IHd |..];
    cbn [Z.of_N]; rewrite <- fold_uint_acc; reflexivity.
Qed.

Lemma uint_all_digits (d : Decimal.uint) :
  all_ascii_digits (NilEmpty.string_of_uint d) = true.
Proof.
  unfold all_ascii_digits. induction d; cbn [NilEmpty.string_of_uint
    list_ascii_of_string forallb]; auto.
Qed.

(** [str(n)] of a number that is not negative is a run of ASCII digits
    that write [n]. *)
Lemma digits_of_str (n : Z) :
  (0 <= n)%Z ->
  fold_left digit_step (list_ascii_of_string (str_of_int n)) 0%Z = n
  /\ all_ascii_digits (str_of_int n) = true
  /\ str_of_int n <> "".
Proof.
  intros Hn. destruct n as [|p|p]; [repeat split; discriminate| |lia].
  unfold str_of_int; cbn [Z.to_int NilZero.string_of_int].
  pose proof (DecimalPos.Unsigned.of_to p) as Hp.
  destruct (Pos.to_uint p) eqn:Hd; [discriminate Hp|..];
    (split; [|split]);
    try (unfold NilZero.string_of_uint;
         rewrite fold_uint, Hp; reflexivity);
    try (apply uint_all_digits);
    try discriminate.
Qed.

(** [int(str(n)) = n] for a number that is not negative and within the
    limit of [int]. *)
Lemma int_of_str (n : Z) :
  reads_ascii_digits ->
  (0 <= n)%Z ->
  over_int_limit (String.length (str_of_int n)) = false ->
  int_of_digits (letters (str_of_int n)) = Ok n.
Proof.
  intros Hdigits Hn Hl.
  destruct (digits_of_str n Hn) as (Hfold & Hall & _).
  unfold int_of_digits. rewrite length_letters, Hl.
  now rewrite (fold_letters Hdigits _ _ Hall), Hfold.
Qed.

Lemma re_search_here (cs g : list string) :
  match_here cs = Some g -> re_search cs = Some g.
Proof. intros H. destruct cs; cbn [re_search]; now rewrite H. Qed.

Lemma match_here_digits (ds post : list string) :
  ds <> [] -> all_digits ds = true -> starts_with_digit post = false ->
  match_here (keyword ++ ds ++ post)%list = Some ds.
Proof.
  intros Hne Hd Hp. unfold match_here.
  rewrite chars_keyword, strip_prefix_app.
  rewrite (span_digits_app _ _ Hd Hp).
  destruct ds; congruence.
Qed.

Lemma no_digit_nth (cs : list string) (k : nat) (d : string) :
  no_digit cs = true -> nth_error cs k = Some d -> is_digit d = false.
Proof.
  unfold no_digit. intros Hcs Hk. apply nth_error_In in Hk.
  rewrite forallb_forall in Hcs. now apply negb_true_iff, Hcs.
Qed.

(** Before the first digit of a text there is no match of the pattern. *)
Lemma re_search_after_plain_prefix (pre ds post : list string) :
  no_digit keyword = true ->
  no_digit pre = true ->
  ds <> [] -> all_digits ds = true -> starts_with_digit post = false ->
  re_search (pre ++ keyword ++ ds ++ post)%list = Some ds.
Proof.
  intros Hkw Hpre Hne Hd Hp. induction pre as [|c pre IH].
  - apply re_search_here. now apply match_here_digits.
  - assert (Hrest : no_digit pre = true).
    { unfold no_digit in *. cbn in Hpre. now apply andb_true_iff in Hpre. }
    cbn [app re_search].
    destruct (match_here (c :: pre ++ keyword ++ ds ++ post)%list) as [g|] eqn:Hm;
      [exfalso|now apply IH].
    destruct (match_here_some _ _ Hm) as (post' & Hs & Hg & Hgd & _).
    destruct g as [|d g]; [congruence|].
    assert (Hdig : is_digit d = true).
    { unfold all_digits in Hgd. cbn in Hgd. now apply andb_true_iff in Hgd. }
    assert (Hget : nth_error (c :: pre ++ keyword ++ ds ++ post)%list 6 = Some d)
      by now rewrite Hs.
    change (c :: pre ++ keyword ++ ds ++ post)%list
      with ((c :: pre) ++ keyword ++ ds ++ post)%list in Hget.
    rewrite app_assoc in Hget.
    rewrite nth_error_app1 in Hget
      by (rewrite length_app; cbn; lia).
    apply no_digit_nth in Hget; [congruence|].
    unfold no_digit in *. rewrite forallb_app. now rewrite Hpre, Hkw.
Qed.

(** The characters the fallback scans in an ASCII query. *)
Lemma scanned_ascii (q : string) :
  lowers_ascii -> is_ascii q = true ->
  scanned q = letters (lower_ascii_text q).
Proof.
  intros Hlower Hq. unfold scanned. rewrite (Hlower q Hq).
  apply chars_ascii. now rewrite is_ascii_lower.
Qed.

Lemma regex_fallback_number (pre kw post : string) (n : Z) :
  lowers_ascii -> reads_ascii_digits ->
  is_ascii (pre ++ kw ++ str_of_int n ++ post) = true ->
  no_ascii_digit pre = true ->
  lower_ascii_text kw = "match " ->
  (0 <= n)%Z ->
  over_int_limit (String.length (str_of_int n)) = false ->
  starts_with_ascii_digit post = false ->
  regex_fallback (pre ++ kw ++ str_of_int n ++ post)
  = PDict [("match_number", PInt n)].
Proof.
  intros Hlower Hdigits Hq Hpre Hkw Hn Hl Hpost.
  destruct (digits_of_str n Hn) as (_ & Hall & Hne).
  unfold regex_fallback. fold (scanned (pre ++ kw ++ str_of_int n ++ post)).
  rewrite (scanned_ascii _ Hlower Hq).
  rewrite !is_ascii_append in Hq.
  apply andb_true_iff in Hq as [Hapre Hq].
  apply andb_true_iff in Hq as [_ Hq].
  apply andb_true_iff in Hq as [_ Hapost].
  rewrite !lower_ascii_text_append, Hkw, (lower_ascii_digits _ Hall).
  rewrite !letters_append. change (letters "match ") with keyword.
  rewrite re_search_after_plain_prefix.
  - now rewrite (int_of_str n Hdigits Hn Hl).
  - now apply no_digit_keyword.
  - rewrite (no_digit_letters Hdigits) by now rewrite is_ascii_lower.
    now rewrite no_ascii_digit_lower.
  - destruct (str_of_int n); [congruence | discriminate].
  - now apply all_digits_letters.
  - rewrite (starts_with_digit_letters Hdigits) by now rewrite is_ascii_lower.
    now rewrite starts_with_ascii_digit_lower.
Qed.

(** X5.  The regex fallback reads back a match number written in an
    ASCII query: when the query holds, after a text without digits, the
    word "match" in any case, one space and the decimal writing of a number
    [n >= 0] of no more digits than [int] converts, and no digit follows,
    the fallback returns [{"match_number": n}]. *)
Theorem fallback_reads_back_match_number (pre kw post : string) (n : Z) :
  lowers_ascii -> reads_ascii_digits ->
  is_ascii (pre ++ kw ++ str_of_int n ++ post) = true ->
  no_ascii_digit pre = true ->
  lower_ascii_text kw = "match " ->
  (0 <= n)%Z ->
  over_int_limit (String.length (str_of_int n)) = false ->
  starts_with_ascii_digit post = false ->
  regex_fallback (pre ++ kw ++ str_of_int n ++ post)
  = PDict [("match_number", PInt n)].
Proof. apply regex_fallback_number. Qed.

(** X6.  When the structured intent call fails over the cached matches
    of a refresh and the ASCII query names a match as "match n" (after a
    text without digits, in any case, no digit following) with
    [1 <= n <= L] and [n] of no more digits than [int] converts, the turn
    warns about the failed call and still selects the [n]-th cached
    match. *)
Theorem failed_intent_call_still_selects_numbered_match
  (pre kw post : string) (n : Z) (e : exn) (ms : list Match) (w : world) :
  let q := pre ++ kw ++ str_of_int n ++ post in
  lowers_ascii -> reads_ascii_digits ->
  refreshed ms w ->
  generate_intent q (summary_text ms) = Raise e ->
  is_ascii q = true ->
  no_ascii_digit pre = true ->
  lower_ascii_text kw = "match " ->
  starts_with_ascii_digit post = false ->
  (1 <= n <= Z.of_nat (List.length ms))%Z ->
  over_int_limit (String.length (str_of_int n)) = false ->
  exists m,
    nth_error ms (Z.to_nat (n - 1)) = Some m
    /\ resolve_match q w
       = (Ok (selected m (PDict [("match_number", PInt n)])),
          log [EvIntent q (summary_text ms); EvWarning (intent_warning e);
               identified "number" m] w).
Proof.
  intros q Hlower Hdigits Hr Hfail Hq Hpre Hkw Hpost Hn Hl.
  assert (Hv : intent_value q (summary_text ms) = PDict [("match_number", PInt n)]).
  { unfold intent_value. rewrite Hfail.
    apply regex_fallback_number; auto. lia. }
  assert (Hi : intent_of (intent_value q (summary_text ms)) = Some (ByNumber n))
    by now rewrite Hv.
  destruct (resolve_by_number_in_range q ms n w Hr Hi Hn) as (m & Hm & Hres).
  exists m; split; [exact Hm|].
  rewrite Hres, Hv. unfold intent_events. now rewrite Hfail.
Qed.


(** ** More on the match-data client *)

Lemma count_zero_fetches (evs : list event) :
  count is_get evs <= 0 -> fetches evs = [].
Proof.
  unfold count, fetches. destruct (filter is_get evs); cbn; [reflexivity|lia].
Qed.

Lemma trace_log (evs : list event) (w : world) :
  trace (log evs w) = (trace w ++ evs)%list.
Proof. reflexivity. Qed.

(** X1.  Every call of the client makes exactly one request, to the URL
    and with the parameters built from its arguments, whatever the
    provider answers and whether the call returns or raises; anything
    else it adds to the trace is shown to the user. *)
Theorem client_call_makes_one_request (url_type : string) (id : pyval) (w : world) :
  exists r evs,
    _make_api_request url_type id w
    = (r, log (EvGet (get_url url_type id) (get_params id) :: evs) w)
    /\ fetches (EvGet (get_url url_type id) (get_params id) :: evs)
       = [EvGet (get_url url_type id) (get_params id)]
    /\ count is_intent_call evs = 0
    /\ count is_send evs = 0.
Proof.
  destruct (api_request_opens url_type id w) as (r & evs & Hrun).
  destruct (within_make_api_request url_type id w) as (evs' & Ht & Hi & Hg & Hs).
  rewrite Hrun in Ht. cbn [snd] in Ht. rewrite trace_log in Ht.
  apply app_inv_head in Ht. subst evs'.
  exists r, evs. split; [exact Hrun|].
  unfold count in *. cbn in *.
  repeat split; try lia.
  unfold fetches; cbn. f_equal.
  apply count_zero_fetches. unfold count. lia.
Qed.

Definition is_dict (v : pyval) : bool :=
  match v with PDict _ => true | _ => false end.

Lemma api_bad_body (url_type : string) (id v : pyval) (status_code : Z) (w : world) :
  requests_get (get_url url_type id) (get_params id) = Response status_code (Ok v) ->
  is_error_status status_code = false ->
  is_dict v = false ->
  _make_api_request url_type id w
  = (Raise AttributeError, log [EvGet (get_url url_type id) (get_params id)] w).
Proof.
  intros Hget Hst Hv. unfold _make_api_request, try_except.
  erewrite bind_ok; [|apply emit_log]. rewrite Hget.
  unfold raise_for_status. fold (is_error_status status_code). rewrite Hst.
  unfold bind, ret, lift.
  destruct v; try discriminate; reflexivity.
Qed.

Lemma api_other_exception (url_type : string) (id : pyval) (e : exn) (w : world) :
  requests_get (get_url url_type id) (get_params id) = GetRaises e ->
  is_request_exception e = false ->
  _make_api_request url_type id w
  = (Raise e, log [EvGet (get_url url_type id) (get_params id)] w).
Proof.
  intros Hget He. unfold _make_api_request, try_except.
  erewrite bind_ok; [|apply emit_log]. rewrite Hget.
  unfold raise. now rewrite He.
Qed.

(** X2.  The client only handles request errors.  A response that
    passes the status check with a JSON body that is not an object makes
    the call raise [AttributeError], and an exception of [requests.get]
    that is no [RequestException] is raised on; nothing is shown for
    either.  A refresh that meets the first stops there: it raises, adds
    no message and leaves the cached matches and the lookup list as they
    were. *)
Theorem client_raises_on_body_that_is_no_object
  (url_type : string) (id v : pyval) (status_code : Z) (w : world) :
  is_error_status status_code = false ->
  is_dict v = false ->
  (requests_get (get_url url_type id) (get_params id) = Response status_code (Ok v) ->
   _make_api_request url_type id w
   = (Raise AttributeError, log [EvGet (get_url url_type id) (get_params id)] w))
  /\ (forall e,
        requests_get (get_url url_type id) (get_params id) = GetRaises e ->
        is_request_exception e = false ->
        _make_api_request url_type id w
        = (Raise e, log [EvGet (get_url url_type id) (get_params id)] w))
  /\ (requests_get (get_url "currentMatches" PNone) (get_params PNone)
      = Response status_code (Ok v) ->
      fetch_latest_matches w
      = (Raise AttributeError,
         log [EvSpinner "Fetching current matches...";
              EvGet (get_url "currentMatches" PNone) (get_params PNone)] w)).
Proof.
  intros Hst Hv. repeat split.
  - intros Hget. now apply (api_bad_body _ _ v status_code).
  - intros e Hget He. now apply api_other_exception.
  - intros Hget. unfold fetch_latest_matches, get_current_matches.
    erewrite bind_ok; [|apply emit_log].
    erewrite bind_raise; [|apply (api_bad_body _ _ v status_code); assumption].
    now rewrite log_log.
Qed.

Lemma refresh_empty_answer (data : pyval) (w : world) :
  answers "currentMatches" PNone data ->
  truthy data = false ->
  fetch_latest_matches w
  = (Ok tt,
     say {| role := "assistant";
            text := "Could not fetch current matches. Please try again later." |}
       (log [EvSpinner "Fetching current matches...";
             EvGet (get_url "currentMatches" PNone) (get_params PNone)] w)).
Proof.
  intros Hans Hd. unfold fetch_latest_matches, get_current_matches.
  erewrite bind_ok; [|apply emit_log].
  erewrite bind_ok; [|apply api_answers; exact Hans].
  rewrite Hd, append_message_say. now rewrite log_log.
Qed.

(** X3.  A successful answer without matches counts as a failed fetch.
    When the provider reports success with data that is empty (an empty
    list, or no [data] field at all, which the client reads as [{}]), the
    refresh shows no error, says that it could not fetch the matches, and
    keeps the cached matches and the lookup list of the refresh before, so
    the old matches stay in use. *)
Theorem refresh_with_empty_answer_keeps_old_cache
  (status_code : Z) (payload : Match) (w : world) :
  requests_get (get_url "currentMatches" PNone) (get_params PNone)
  = Response status_code (Ok (PDict payload)) ->
  is_error_status status_code = false ->
  py_eq_str (field "status" PNone payload) "success" = true ->
  truthy (field "data" (PDict []) payload) = false ->
  let w' := snd (fetch_latest_matches w) in
  fst (fetch_latest_matches w) = Ok tt
  /\ current_match_data w' = current_match_data w
  /\ match_list_for_llm w' = match_list_for_llm w
  /\ messages w'
     = (messages w
          ++ [ {| role := "assistant";
                  text := "Could not fetch current matches. Please try again later." |} ])%list
  /\ trace w'
     = (trace w
          ++ [EvSpinner "Fetching current matches...";
              EvGet (get_url "currentMatches" PNone) (get_params PNone)])%list
  /\ (assoc "data" payload = None -> field "data" (PDict []) payload = PDict []).
Proof.
  intros Hget Hst Hok Hd w'; subst w'.
  rewrite (refresh_empty_answer (field "data" (PDict []) payload) w).
  - repeat split. intros Hnone. unfold field. now rewrite Hnone.
  - now exists status_code, payload.
  - exact Hd.
Qed.

(** ** The calls of a turn *)

Lemma within_fetch_details_unselected (loc : locals) :
  truthy (selected_match_id loc) = false -> within 0 0 0 (fetch_details loc).
Proof.
  intros Hid. unfold fetch_details, intent_named_a_match. rewrite Hid. calm.
Qed.

Lemma within_after_resolve (q : string) (loc : locals) :
  truthy (selected_match_id loc) = false ->
  within 0 0 1
    (detail <- fetch_details loc ;;
     context_for_llm <- assemble_context detail ;;
     full_prompt_to_gemini <- ret (full_prompt context_for_llm q) ;;
     emit (sending full_prompt_to_gemini) ;;
     stream_reply full_prompt_to_gemini).
Proof.
  intros Hid.
  apply (within_bind 0 0 0 0 0 1);
    [now apply within_fetch_details_unselected|intros detail].
  apply (within_bind 0 0 0 0 0 1); [apply within_assemble_context|intros ctx].
  apply (within_bind 0 0 0 0 0 1); [calm|intros p].
  apply (within_bind 0 0 0 0 0 1); [calm|intros _; apply within_stream_reply].
Qed.

Lemma try_block_assoc (q : string) (w : world) :
  try_block q w
  = bind (resolve_match q)
      (fun loc =>
         detail <- fetch_details loc ;;
         context_for_llm <- assemble_context detail ;;
         full_prompt_to_gemini <- ret (full_prompt context_for_llm q) ;;
         emit (sending full_prompt_to_gemini) ;;
         stream_reply full_prompt_to_gemini) w.
Proof.
  unfold try_block, build_prompt, bind, ret, sending.
  destruct (resolve_match q w) as [[loc|e] w1]; [|reflexivity].
  destruct (fetch_details loc w1) as [[detail|e] w2]; [|reflexivity].
  destruct (assemble_context detail w2) as [[ctx|e] w3]; reflexivity.
Qed.

(** X4.  The calls of one run of the script are bounded, whatever the
    services answer.  A user message costs at most one call of the intent
    model, two requests to the provider and one prompt to the chat model;
    when step 1 selects no match (a falsy id), it costs no request to the
    provider.  A refresh costs at most one request to the provider and
    calls neither model. *)
Theorem calls_of_a_run_are_bounded (q : string) (w : world) :
  within 1 2 1 (chat_turn q)
  /\ within 0 1 0 fetch_latest_matches
  /\ (forall loc w1,
        resolve_match q (turn_start q w) = (Ok loc, w1) ->
        truthy (selected_match_id loc) = false ->
        exists evs,
          trace (snd (chat_turn q w)) = (trace w ++ evs)%list
          /\ fetches evs = []).
Proof.
  split; [apply within_chat_turn|]. split; [apply within_fetch_latest_matches|].
  intros loc w1 Hres Hid.
  destruct (nonempty q) eqn:Hq.
  2: { exists []. unfold chat_turn. rewrite Hq. cbn. now rewrite app_nil_r. }
  destruct (within_resolve_match q (turn_start q w)) as (e1 & Ht1 & _ & Hg1 & _).
  rewrite Hres in Ht1; cbn [snd] in Ht1.
  destruct (within_after_resolve q loc Hid w1) as (e2 & Ht2 & _ & Hg2 & _).
  assert (Htry : trace (snd (try_block q (turn_start q w)))
                 = (trace (turn_start q w) ++ e1 ++ e2)%list).
  { rewrite try_block_assoc. erewrite bind_ok; [|exact Hres].
    now rewrite Ht2, Ht1, <- app_assoc. }
  assert (Hnone : fetches (e1 ++ e2) = []).
  { apply count_zero_fetches. rewrite count_app. lia. }
  unfold chat_turn. rewrite Hq.
  erewrite bind_ok; [|apply emit_log].
  erewrite bind_ok; [|apply append_message_say].
  erewrite bind_ok; [|apply emit_log].
  fold (turn_start q w).
  unfold bind at 1, try_except.
  destruct (try_block q (turn_start q w)) as [[r|e] w2]; cbn [snd] in Htry.
  - exists (EvChat "user" q :: EvArea "Thinking..." :: e1 ++ e2)%list.
    cbn [append_message snd trace]. rewrite Htry. cbn [turn_start log say trace].
    split; [now rewrite <- !app_assoc|].
    unfold fetches in *. cbn. exact Hnone.
  - cbn [is_exception]. erewrite bind_ok; [|apply emit_log].
    erewrite bind_ok; [|apply emit_log]. unfold ret.
    exists (EvChat "user" q :: EvArea "Thinking..."
              :: (e1 ++ e2) ++ [EvArea (error_reply e);
                                EvError ("An error occurred: " ++ exn_str e)])%list.
    cbn [append_message snd trace log]. rewrite Htry.
    cbn [turn_start log say trace].
    split; [now rewrite <- !app_assoc|].
    unfold fetches in *. cbn. rewrite filter_app, Hnone. reflexivity.
Qed.


(** ** Runs of the script, one after the other *)

(** The session after the script ran once for each user message of
    [inputs], in order (the services answering each run as the section's
    variables say). *)
Fixpoint chat_turns (inputs : list string) (w : world) : world :=
  match inputs with
  | [] => w
  | q :: rest => chat_turns rest (snd (chat_turn q w))
  end.

Definition is_user (m : message) : bool := String.eqb (role m) "user".

(** The messages one user message adds to the transcript. *)
Definition exchange (q : string) (w : world) : list message :=
  if nonempty q
  then [ {| role := "user"; text := q |};
         {| role := "assistant";
            text := reply_of (fst (try_block q (turn_start q w))) |} ]
  else [].

Lemma chat_turn_frame (q : string) (w : world) :
  let w' := snd (chat_turn q w) in
  current_match_data w' = current_match_data w
  /\ match_list_for_llm w' = match_list_for_llm w
  /\ chat_history w' = chat_history w
  /\ messages w' = (messages w ++ exchange q w)%list.
Proof.
  intros w'; subst w'. unfold exchange.
  destruct (nonempty q) eqn:Hq.
  - rewrite (chat_turn_messages q w Hq).
    destruct (chat_turn_run q w Hq) as (evs & ->). repeat split.
  - unfold chat_turn. rewrite Hq. cbn. now rewrite app_nil_r.
Qed.

(** X7.  User messages never touch the match cache, and the transcript
    only grows.  After any number of runs of the script for user messages,
    the cached matches, the lookup list and the [chat_history] table are
    what they were; the transcript is the old transcript followed by new
    messages, two for each non-empty input: the user's message, with the
    input as its text, and then one assistant message. *)
Theorem turns_keep_cache_and_extend_transcript (inputs : list string) (w : world) :
  let w' := chat_turns inputs w in
  current_match_data w' = current_match_data w
  /\ match_list_for_llm w' = match_list_for_llm w
  /\ chat_history w' = chat_history w
  /\ exists added,
       messages w' = (messages w ++ added)%list
       /\ map role added
          = flat_map (fun _ => ["user"; "assistant"]) (filter nonempty inputs)
       /\ map text (filter is_user added) = filter nonempty inputs.
Proof.
  cbv zeta. revert w; induction inputs as [|q inputs IH]; intros w.
  - cbn. repeat split. exists []. now rewrite app_nil_r.
  - cbn [chat_turns].
    destruct (IH (snd (chat_turn q w))) as (Hc & Hl & Hh & added & Hm & Hr & Hu).
    destruct (chat_turn_frame q w) as (Hc1 & Hl1 & Hh1 & Hm1).
    rewrite Hc, Hl, Hh, Hm, Hc1, Hl1, Hh1, Hm1. repeat split.
    exists (exchange q w ++ added)%list.
    rewrite <- app_assoc, map_app, filter_app, map_app, Hr, Hu.
    repeat split.
    + unfold exchange. cbn [filter]. destruct (nonempty q); reflexivity.
    + unfold exchange. cbn [filter]. destruct (nonempty q); reflexivity.
Qed.

(** ** A refresh that stops midway *)

(** The first item a loop over [data] visits is an object. *)
Definition first_is_object (data : pyval) : bool :=
  match py_iter data with
  | Ok (PDict _ :: _) => true
  | _ => false
  end.

(** The session a refresh leaves when it raises in its loop before it
    stored an entry. *)
Definition cache_without_entries (data : pyval) (w : world) : world :=
  {| messages := messages w;
     current_match_data := data;
     match_list_for_llm := [];
     trace :=
       (trace w
          ++ [EvSpinner "Fetching current matches...";
              EvGet (get_url "currentMatches" PNone) (get_params PNone)])%list;
     chat_history := chat_history w |}.

Lemma refresh_stops_at_first_item (data : pyval) (w : world) :
  answers "currentMatches" PNone data ->
  truthy data = true ->
  first_is_object data = false ->
  exists e, fetch_latest_matches w = (Raise e, cache_without_entries data w).
Proof.
  intros Hans Ht Hfirst. unfold fetch_latest_matches, get_current_matches.
  erewrite bind_ok; [|apply emit_log].
  erewrite bind_ok; [|apply api_answers; exact Hans].
  rewrite Ht.
  erewrite bind_ok; [|reflexivity].
  erewrite bind_ok; [|reflexivity].
  unfold first_is_object in Hfirst.
  destruct (py_iter data) as [[|v rest]|e] eqn:Hiter.
  - destruct data as [| | | s |l|d]; try discriminate;
      cbn [py_iter truthy] in Hiter, Ht.
    + destruct s as [|c s]; [discriminate Ht|].
      injection Hiter as Hiter. apply map_eq_nil in Hiter.
      now apply chars_cons in Hiter.
    + destruct l; [discriminate Ht|discriminate Hiter].
    + destruct d; [discriminate Ht|discriminate Hiter].
  - exists AttributeError.
    unfold bind at 1, lift at 1.
    cbn [refresh_loop]. unfold bind, lift.
    change (0 <? 5)%Z with true. cbv iota.
    destruct v; try discriminate Hfirst;
      cbn [py_get]; unfold cache_without_entries, set_match_list_for_llm,
        set_current_match_data, log; cbn [snd fst messages current_match_data
        match_list_for_llm trace chat_history];
      now rewrite <- app_assoc.
  - exists e. unfold bind at 1, lift at 1.
    unfold cache_without_entries, set_match_list_for_llm,
      set_current_match_data, log; cbn [snd fst messages current_match_data
      match_list_for_llm trace chat_history].
    now rewrite <- app_assoc.
Qed.

Lemma turn_without_entries (q : string) (w : world) :
  truthy (current_match_data w) = true ->
  match_list_for_llm w = [] ->
  nonempty q = true ->
  chat_turn q w
  = (Ok tt,
     say {| role := "assistant"; text := error_reply NameError |}
       (log [EvArea (error_reply NameError);
             EvError ("An error occurred: " ++ exn_str NameError)]
          (turn_start q w))).
Proof.
  intros Hc Hl Hq.
  assert (Hres : resolve_match q (turn_start q w)
                 = (Ok {| selected_match_id := PNone; selected_match_name := PNone;
                          match_intent := None |}, turn_start q w)).
  { unfold resolve_match, bind, get_world.
    cbn [turn_start log say match_list_for_llm current_match_data].
    now rewrite Hl, andb_false_r. }
  assert (Hblock : try_block q (turn_start q w) = (Raise NameError, turn_start q w)).
  { unfold try_block, build_prompt.
    erewrite bind_raise; [reflexivity|].
    erewrite bind_ok; [|exact Hres].
    erewrite bind_raise; [reflexivity|].
    unfold fetch_details. cbn [selected_match_id truthy].
    erewrite bind_raise; [reflexivity|].
    unfold intent_named_a_match, bind, get_world.
    cbn [turn_start log say current_match_data match_intent].
    now rewrite Hc. }
  unfold chat_turn. rewrite Hq.
  erewrite bind_ok; [|apply emit_log].
  erewrite bind_ok; [|apply append_message_say].
  erewrite bind_ok; [|apply emit_log].
  fold (turn_start q w).
  erewrite bind_ok;
    [|erewrite try_except_caught; [|exact Hblock|reflexivity];
      erewrite bind_ok; [|apply emit_log];
      erewrite bind_ok; [|apply emit_log];
      reflexivity].
  now rewrite append_message_say, !log_log.
Qed.

(** X8.  A refresh whose loop raises at its first item (the data is not
    a list, or its first item is not an object) has already replaced the
    cache and emptied the lookup list: it raises and leaves a session with
    cached data and no lookup entries.  In such a session every user
    message ends in the error reply for [NameError] (the turn reads
    [match_intent], which step 1 did not bind): nothing is asked of the
    intent model, the provider or the chat model. *)
Theorem refresh_stopped_at_first_item_breaks_turns (data : pyval) (w : world) :
  answers "currentMatches" PNone data ->
  truthy data = true ->
  first_is_object data = false ->
  (exists e, fetch_latest_matches w = (Raise e, cache_without_entries data w))
  /\ forall q w0,
       truthy (current_match_data w0) = true ->
       match_list_for_llm w0 = [] ->
       nonempty q = true ->
       chat_turn q w0
       = (Ok tt,
          say {| role := "assistant"; text := error_reply NameError |}
            (log [EvArea (error_reply NameError);
                  EvError ("An error occurred: " ++ exn_str NameError)]
               (turn_start q w0))).
Proof.
  intros Hans Ht Hfirst. split.
  - now apply refresh_stops_at_first_item.
  - intros q w0. apply turn_without_entries.
Qed.


(** ** A stream that fails *)

Lemma stream_reply_failure (prompt : string) (texts : list string) (e : exn)
      (w : world) :
  send_message prompt = {| chunks := texts; failure := Some e |} ->
  stream_reply prompt w = (Raise e, log (EvSend prompt :: frames texts "") w).
Proof.
  intros Hs. unfold stream_reply.
  erewrite bind_ok; [|apply emit_log]. rewrite Hs; cbn [chunks failure].
  erewrite bind_ok; [|apply consume_run].
  unfold raise. now rewrite log_log.
Qed.

Lemma displayed_from_last_area (shown : option string) (evs after : list event)
      (body : string) :
  (forall ev, In ev after -> match ev with EvArea _ => False | _ => True end) ->
  displayed_from shown (evs ++ EvArea body :: after) = Some body.
Proof.
  intros Hafter. revert shown; induction evs as [|ev evs IH]; intros shown.
  - cbn [app displayed_from].
    induction after as [|a after IH]; [reflexivity|].
    pose proof (Hafter a (or_introl eq_refl)) as Ha.
    destruct a; cbn [displayed_from]; try contradiction;
      apply IH; intros ev Hev; apply Hafter; now right.
  - destruct ev; cbn; apply IH.
Qed.

(** X9.  When the stream breaks after some fragments, the turn still
    ends: the fragments that arrived were shown one after the other with
    the cursor, then the reply area shows the error text instead, and the
    assistant message recorded for the turn is the error text, not the
    partial reply.  The messages of earlier turns are kept. *)
Theorem broken_stream_ends_turn_with_error_reply
  (q prompt : string) (texts : list string) (e : exn) (w w1 : world) :
  nonempty q = true ->
  build_prompt q (turn_start q w) = (Ok prompt, w1) ->
  send_message prompt = {| chunks := texts; failure := Some e |} ->
  let w' := snd (chat_turn q w) in
  chat_turn q w
  = (Ok tt,
     say {| role := "assistant"; text := error_reply e |}
       (log (sending prompt :: EvSend prompt :: frames texts ""
               ++ [EvArea (error_reply e);
                   EvError ("An error occurred: " ++ exn_str e)]) w1))
  /\ messages w'
     = (messages w ++ [ {| role := "user"; text := q |};
                        {| role := "assistant"; text := error_reply e |} ])%list
  /\ displayed w' = Some (error_reply e).
Proof.
  intros Hq Hp Hs w'; subst w'.
  assert (Hblock : try_block q (turn_start q w)
                   = (Raise e, log (sending prompt :: EvSend prompt :: frames texts "") w1)).
  { rewrite (try_block_run _ _ _ _ Hp), (stream_reply_failure _ _ _ _ Hs).
    now rewrite log_log. }
  assert (Hrun : chat_turn q w
                 = (Ok tt,
                    say {| role := "assistant"; text := error_reply e |}
                      (log (sending prompt :: EvSend prompt :: frames texts ""
                              ++ [EvArea (error_reply e);
                                  EvError ("An error occurred: " ++ exn_str e)]) w1))).
  { unfold chat_turn. rewrite Hq.
    erewrite bind_ok; [|apply emit_log].
    erewrite bind_ok; [|apply append_message_say].
    erewrite bind_ok; [|apply emit_log].
    fold (turn_start q w).
    erewrite bind_ok;
      [|erewrite try_except_caught; [|exact Hblock|reflexivity];
        erewrite bind_ok; [|apply emit_log];
        erewrite bind_ok; [|apply emit_log];
        reflexivity].
    rewrite append_message_say, !log_log. reflexivity. }
  split; [exact Hrun|]. split.
  - rewrite (chat_turn_messages q w Hq), Hblock. reflexivity.
  - rewrite Hrun. cbn [snd]. unfold displayed. cbn [say log trace].
    rewrite app_comm_cons, app_comm_cons, app_assoc.
    apply displayed_from_last_area.
    intros ev [<-|[]]. exact I.
Qed.


(** ** Details that arrive *)

(** The names of the players [ps], when each player is an object whose
    [name] is text or absent. *)
Fixpoint player_labels (ps : list pyval) : option (list string) :=
  match ps with
  | [] => Some []
  | PDict p :: rest =>
      match field "name" (PStr "N/A") p, player_labels rest with
      | PStr s, Some names => Some (s :: names)
      | _, _ => None
      end
  | _ :: _ => None
  end.

(** The line of the team [t], when it is an object whose [players] are a
    list of such players. *)
Definition team_line (t : pyval) : option string :=
  match t with
  | PDict d =>
      match field "players" (PList []) d with
      | PList ps =>
          match player_labels ps with
          | Some names =>
              Some ("  - " ++ py_str (field "name" (PStr "Unknown Team") d) ++ ": "
                      ++ String.concat ", " names ++ nl)
          | None => None
          end
      | _ => None
      end
  | _ => None
  end.

(** The lines of a squad answer, when each of its teams has a line. *)
Fixpoint squad_text (teams : list pyval) : option string :=
  match teams with
  | [] => Some ""
  | t :: rest =>
      match team_line t, squad_text rest with
      | Some line, Some lines => Some (line ++ lines)
      | _, _ => None
      end
  end.

(** [detailed_match_info_for_llm] when both answers arrive. *)
Definition detail_text (loc : locals) (items : Match) (squad : string) : string :=
  ("Detailed Info for Match ID " ++ py_str (selected_match_id loc) ++ " ("
     ++ py_str (py_or (selected_match_name loc) "N/A") ++ "):" ++ nl
     ++ info_lines items ++ nl)
    ++ ("Squads:" ++ nl ++ squad ++ nl).

Lemma player_names_run (ps : list pyval) (names : list string) (w : world) :
  player_labels ps = Some names ->
  player_names ps w = (Ok (map PStr names), w).
Proof.
  revert names; induction ps as [|p ps IH]; intros names H.
  - injection H as <-. reflexivity.
  - cbn [player_labels] in H. destruct p as [| | | | |d]; try discriminate.
    destruct (field "name" (PStr "N/A") d) eqn:Hn; try discriminate.
    destruct (player_labels ps) as [rest|]; [|discriminate].
    injection H as <-.
    cbn [player_names]. unfold bind, lift, ret; cbn [py_get].
    fold (field "name" (PStr "N/A") d). rewrite Hn.
    fold (@bind (list pyval) (list pyval)).
    unfold bind. now rewrite (IH rest eq_refl).
Qed.

Lemma py_join_strings (sep : string) (names : list string) :
  py_join sep (map PStr names) = Ok (String.concat sep names).
Proof.
  unfold py_join.
  assert (H : strings_of (map PStr names) = Ok names).
  { induction names as [|n names IH]; cbn; [reflexivity|]. now rewrite IH. }
  now rewrite H.
Qed.

Lemma squad_lines_run (teams : list pyval) (txt : string) (w : world) :
  squad_text teams = Some txt -> squad_lines teams w = (Ok txt, w).
Proof.
  revert txt; induction teams as [|t teams IH]; intros txt H.
  - injection H as <-. reflexivity.
  - cbn [squad_text] in H.
    destruct (team_line t) as [line|] eqn:Hline; [|discriminate].
    destruct (squad_text teams) as [lines|]; [|discriminate].
    injection H as <-.
    unfold team_line in Hline. destruct t as [| | | | |d]; try discriminate.
    destruct (field "players" (PList []) d) as [| | | |ps|] eqn:Hps;
      try discriminate.
    destruct (player_labels ps) as [names|] eqn:Hnames; [|discriminate].
    injection Hline as <-.
    cbn [squad_lines].
    erewrite bind_ok; [|reflexivity].
    erewrite bind_ok; [|unfold lift; cbn [py_get];
                        fold (field "players" (PList []) d); rewrite Hps; reflexivity].
    erewrite bind_ok; [|reflexivity].
    erewrite bind_ok; [|apply player_names_run; exact Hnames].
    erewrite bind_ok; [|unfold lift; rewrite py_join_strings; reflexivity].
    erewrite bind_ok; [|apply IH; reflexivity].
    unfold ret, field. do 2 f_equal.
    repeat (cbn [append]; rewrite ?append_assoc). reflexivity.
Qed.

Lemma detail_block_detail_text (loc : locals) (items : Match) (squad : string) :
  detail_block (detail_text loc items squad) = detail_text loc items squad ++ nl.
Proof.
  unfold detail_block.
  assert (H : nonempty (detail_text loc items squad) = true) by reflexivity.
  now rewrite H.
Qed.

Lemma fetch_details_answered (loc : locals) (items : Match) (teams : list pyval)
      (squad : string) (w : world) :
  let id := selected_match_id loc in
  truthy id = true ->
  answers "match_info" id (PDict items) ->
  items <> [] ->
  answers "match_squad" id (PList teams) ->
  teams <> [] ->
  squad_text teams = Some squad ->
  fetch_details loc w
  = (Ok (detail_text loc items squad),
     log [fetching loc;
          EvGet (get_url "match_info" id) (get_params id);
          EvGet (get_url "match_squad" id) (get_params id)] w).
Proof.
  intros id Hid Hinfo Hitems Hsquad Hteams Htxt; subst id.
  unfold fetch_details. rewrite Hid.
  erewrite bind_ok; [|apply emit_log].
  unfold get_match_info, get_match_squad.
  erewrite bind_ok; [|apply api_answers; exact Hinfo].
  erewrite bind_ok; [|apply api_answers; exact Hsquad].
  unfold info_block, squad_block.
  destruct items as [|item items]; [congruence|].
  destruct teams as [|t teams]; [congruence|].
  cbn [truthy].
  erewrite bind_ok; [|erewrite bind_ok; [|reflexivity]; reflexivity].
  erewrite bind_ok;
    [|erewrite bind_ok; [|reflexivity];
      erewrite bind_ok; [|apply squad_lines_run; exact Htxt];
      reflexivity].
  unfold ret, detail_text. now rewrite !log_log.
Qed.

(** *** One section fails, the other arrives *)

Lemma fetch_details_info_failed (loc : locals) (teams : list pyval)
      (squad : string) (w : world) :
  let id := selected_match_id loc in
  truthy id = true ->
  fails (requests_get (get_url "match_info" id) (get_params id)) = true ->
  answers "match_squad" id (PList teams) ->
  teams <> [] ->
  squad_text teams = Some squad ->
  fetch_details loc w
  = (Ok ("Squads:" ++ nl ++ squad ++ nl),
     log (fetching loc :: failed_request "match_info" id
            ++ [EvGet (get_url "match_squad" id) (get_params id)]) w).
Proof.
  intros id Hid Hinfo Hsquad Hteams Htxt; subst id.
  unfold fetch_details. rewrite Hid.
  erewrite bind_ok; [|apply emit_log].
  unfold get_match_info, get_match_squad.
  erewrite bind_ok; [|apply api_failure; exact Hinfo].
  erewrite bind_ok; [|apply api_answers; exact Hsquad].
  unfold info_block, squad_block.
  destruct teams as [|t teams]; [congruence|].
  cbn [truthy].
  erewrite bind_ok; [|reflexivity].
  erewrite bind_ok;
    [|erewrite bind_ok; [|reflexivity];
      erewrite bind_ok; [|apply squad_lines_run; exact Htxt];
      reflexivity].
  unfold ret. now rewrite !log_log.
Qed.

Lemma fetch_details_squad_failed (loc : locals) (items : Match) (w : world) :
  let id := selected_match_id loc in
  truthy id = true ->
  answers "match_info" id (PDict items) ->
  items <> [] ->
  fails (requests_get (get_url "match_squad" id) (get_params id)) = true ->
  fetch_details loc w
  = (Ok ("Detailed Info for Match ID " ++ py_str id ++ " ("
           ++ py_str (py_or (selected_match_name loc) "N/A") ++ "):" ++ nl
           ++ info_lines items ++ nl),
     log (fetching loc :: EvGet (get_url "match_info" id) (get_params id)
            :: failed_request "match_squad" id) w).
Proof.
  intros id Hid Hinfo Hitems Hsquad; subst id.
  unfold fetch_details. rewrite Hid.
  erewrite bind_ok; [|apply emit_log].
  unfold get_match_info, get_match_squad.
  erewrite bind_ok; [|apply api_answers; exact Hinfo].
  erewrite bind_ok; [|apply api_failure; exact Hsquad].
  unfold info_block, squad_block.
  destruct items as [|item items]; [congruence|].
  cbn [truthy].
  erewrite bind_ok; [|erewrite bind_ok; [|reflexivity]; reflexivity].
  erewrite bind_ok; [|reflexivity].
  unfold ret. now rewrite !log_log, append_nil_r.
Qed.

Lemma build_prompt_info_failed (q : string) (ms : list Match) (loc : locals)
      (evs : list event) (teams : list pyval) (squad : string) (w : world) :
  let id := selected_match_id loc in
  refreshed ms w ->
  resolve_match q w = (Ok loc, log evs w) ->
  truthy id = true ->
  fails (requests_get (get_url "match_info" id) (get_params id)) = true ->
  answers "match_squad" id (PList teams) ->
  teams <> [] ->
  squad_text teams = Some squad ->
  build_prompt q w
  = (Ok (general_text ms ++ "Squads:" ++ nl ++ squad ++ nl ++ nl
           ++ "User Query: " ++ q),
     log (evs ++ fetching loc :: failed_request "match_info" id
            ++ [EvGet (get_url "match_squad" id) (get_params id)]) w).
Proof.
  intros id Hr Hres Hid Hinfo Hsquad Hteams Htxt; subst id. unfold build_prompt.
  erewrite bind_ok; [|exact Hres].
  erewrite bind_ok; [|now apply (fetch_details_info_failed loc teams squad)].
  erewrite bind_ok; [|apply assemble_context_run; exact Hr].
  unfold ret. rewrite full_prompt_general, log_log.
  unfold prompt_with, detail_block.
  assert (Hne : nonempty ("Squads:" ++ nl ++ squad ++ nl) = true) by reflexivity.
  rewrite Hne. do 2 f_equal. f_equal.
  now rewrite !append_assoc.
Qed.

Lemma build_prompt_squad_failed (q : string) (ms : list Match) (loc : locals)
      (evs : list event) (items : Match) (w : world) :
  let id := selected_match_id loc in
  refreshed ms w ->
  resolve_match q w = (Ok loc, log evs w) ->
  truthy id = true ->
  answers "match_info" id (PDict items) ->
  items <> [] ->
  fails (requests_get (get_url "match_squad" id) (get_params id)) = true ->
  build_prompt q w
  = (Ok (general_text ms
           ++ "Detailed Info for Match ID " ++ py_str id ++ " ("
           ++ py_str (py_or (selected_match_name loc) "N/A") ++ "):" ++ nl
           ++ info_lines items ++ nl ++ nl
           ++ "User Query: " ++ q),
     log (evs ++ fetching loc :: EvGet (get_url "match_info" id) (get_params id)
            :: failed_request "match_squad" id) w).
Proof.
  intros id Hr Hres Hid Hinfo Hitems Hsquad; subst id. unfold build_prompt.
  erewrite bind_ok; [|exact Hres].
  erewrite bind_ok; [|now apply (fetch_details_squad_failed loc items)].
  erewrite bind_ok; [|apply assemble_context_run; exact Hr].
  unfold ret. rewrite full_prompt_general, log_log.
  unfold prompt_with, detail_block.
  match goal with
  | |- context [nonempty ?t] => assert (Hne : nonempty t = true) by reflexivity
  end.
  rewrite Hne. do 2 f_equal. f_equal.
  now rewrite !append_assoc.
Qed.

(** C7, amended.  For every call of the match-data client (current
    matches, match info, match squad): a response with a 4xx or 5xx status
    (the statuses [raise_for_status] rejects) is a Failure that shows the
    transport error, as is a call that raises a [RequestException]; a
    response that passes the status check and whose payload is an object
    with a [status] other than [success] is a Failure that shows the
    provider's [reason] ("Unknown error" without one).  On such Failures
    the callers go on without the data of the failed call.  A turn that
    selected a match sends a prompt that leaves out the section of each
    failed call and keeps the rest: the general match list and the query
    alone when both calls fail, these with the squads when only the info
    fails, and these with the info lines when only the squad fails.  A
    refresh leaves the cache as it was and says that it could not fetch
    the matches. *)
Theorem failed_request_is_none_and_callers_go_on
  (url_type : string) (id : pyval) (w : world) :
  let url := get_url url_type id in
  let params := get_params id in
  (forall status_code json,
      requests_get url params = Response status_code json ->
      is_error_status status_code = true ->
      _make_api_request url_type id w
      = (Ok PNone,
         log [EvGet url params;
              EvError (network_error url_type (HTTPError status_code))] w))
  /\ (forall e,
        requests_get url params = GetRaises e ->
        is_request_exception e = true ->
        _make_api_request url_type id w
        = (Ok PNone, log [EvGet url params; EvError (network_error url_type e)] w))
  /\ (forall status_code payload,
        requests_get url params = Response status_code (Ok (PDict payload)) ->
        is_error_status status_code = false ->
        py_eq_str (field "status" PNone payload) "success" = false ->
        _make_api_request url_type id w
        = (Ok PNone,
           log [EvGet url params; EvError (provider_error url_type payload)] w))
  /\ (fails (requests_get url params) = true ->
      Failure (fst (_make_api_request url_type id w)))
  /\ (forall q ms loc evs w0,
        refreshed ms w0 ->
        resolve_match q w0 = (Ok loc, log evs w0) ->
        truthy (selected_match_id loc) = true ->
        fails (requests_get (get_url "match_info" (selected_match_id loc))
                 (get_params (selected_match_id loc))) = true ->
        fails (requests_get (get_url "match_squad" (selected_match_id loc))
                 (get_params (selected_match_id loc))) = true ->
        let shown :=
          (evs ++ fetching loc
               :: failed_request "match_info" (selected_match_id loc)
               ++ failed_request "match_squad" (selected_match_id loc))%list in
        build_prompt q w0
        = (Ok (general_text ms ++ "User Query: " ++ q), log shown w0)
        /\ sends q (general_text ms ++ "User Query: " ++ q) shown w0)
  /\ (forall q ms loc evs teams squad w0,
        refreshed ms w0 ->
        resolve_match q w0 = (Ok loc, log evs w0) ->
        truthy (selected_match_id loc) = true ->
        fails (requests_get (get_url "match_info" (selected_match_id loc))
                 (get_params (selected_match_id loc))) = true ->
        answers "match_squad" (selected_match_id loc) (PList teams) ->
        teams <> [] ->
        squad_text teams = Some squad ->
        let shown :=
          (evs ++ fetching loc
               :: failed_request "match_info" (selected_match_id loc)
               ++ [EvGet (get_url "match_squad" (selected_match_id loc))
                     (get_params (selected_match_id loc))])%list in
        let prompt :=
          general_text ms ++ "Squads:" ++ nl ++ squad ++ nl ++ nl
            ++ "User Query: " ++ q in
        build_prompt q w0 = (Ok prompt, log shown w0)
        /\ sends q prompt shown w0)
  /\ (forall q ms loc evs items w0,
        refreshed ms w0 ->
        resolve_match q w0 = (Ok loc, log evs w0) ->
        truthy (selected_match_id loc) = true ->
        answers "match_info" (selected_match_id loc) (PDict items) ->
        items <> [] ->
        fails (requests_get (get_url "match_squad" (selected_match_id loc))
                 (get_params (selected_match_id loc))) = true ->
        let shown :=
          (evs ++ fetching loc
               :: EvGet (get_url "match_info" (selected_match_id loc))
                    (get_params (selected_match_id loc))
               :: failed_request "match_squad" (selected_match_id loc))%list in
        let prompt :=
          general_text ms
            ++ "Detailed Info for Match ID " ++ py_str (selected_match_id loc) ++ " ("
            ++ py_str (py_or (selected_match_name loc) "N/A") ++ "):" ++ nl
            ++ info_lines items ++ nl ++ nl
            ++ "User Query: " ++ q in
        build_prompt q w0 = (Ok prompt, log shown w0)
        /\ sends q prompt shown w0)
  /\ (fails (requests_get (get_url "currentMatches" PNone) (get_params PNone)) = true ->
      let w' := snd (fetch_latest_matches w) in
      fst (fetch_latest_matches w) = Ok tt
      /\ current_match_data w' = current_match_data w
      /\ match_list_for_llm w' = match_list_for_llm w
      /\ messages w'
         = (messages w
              ++ [ {| role := "assistant";
                      text := "Could not fetch current matches. Please try again later." |} ])%list).
Proof.
  intros url params; subst url params. repeat split.
  - intros status_code json Hget Hst. now apply (api_error_status _ _ _ json).
  - intros e Hget He. now apply api_request_raises.
  - intros status_code payload Hget Hst Hf.
    now apply (api_provider_failure _ _ status_code).
  - intros Hf. unfold Failure. now rewrite api_failure.
  - now apply build_prompt_failures.
  - apply try_block_sends. now apply build_prompt_failures.
  - now apply (build_prompt_info_failed q ms loc evs teams squad).
  - apply try_block_sends.
    now apply (build_prompt_info_failed q ms loc evs teams squad).
  - now apply build_prompt_squad_failed.
  - apply try_block_sends. now apply build_prompt_squad_failed.
  - now rewrite refresh_failure.
  - now rewrite refresh_failure.
  - now rewrite refresh_failure.
  - now rewrite refresh_failure.
Qed.


(** X10.  When a turn selected a match and the provider answers both
    calls, for its info with a non-empty object and for its squad with a
    non-empty list of teams whose players are named, the turn makes these
    two requests with the selected id and sends a prompt that holds, in
    this order: the general match list, the header with the id and name of
    the match, one line for each scalar field of the info, the squads with
    one line for each team, and the user's query. *)
Theorem answered_details_fill_the_prompt
  (q : string) (ms : list Match) (loc : locals) (evs : list event)
  (items : Match) (teams : list pyval) (squad : string) (w : world) :
  let id := selected_match_id loc in
  refreshed ms w ->
  resolve_match q w = (Ok loc, log evs w) ->
  truthy id = true ->
  answers "match_info" id (PDict items) ->
  items <> [] ->
  answers "match_squad" id (PList teams) ->
  teams <> [] ->
  squad_text teams = Some squad ->
  let shown :=
    (evs ++ [fetching loc;
             EvGet (get_url "match_info" id) (get_params id);
             EvGet (get_url "match_squad" id) (get_params id)])%list in
  let prompt :=
    general_text ms ++ detail_text loc items squad ++ nl ++ "User Query: " ++ q in
  build_prompt q w = (Ok prompt, log shown w)
  /\ sends q prompt shown w.
Proof.
  intros id Hr Hres Hid Hinfo Hitems Hsquad Hteams Htxt shown prompt.
  assert (Hbuild : build_prompt q w = (Ok prompt, log shown w)).
  { unfold build_prompt.
    erewrite bind_ok; [|exact Hres].
    erewrite bind_ok; [|now apply (fetch_details_answered loc items teams squad)].
    erewrite bind_ok; [|apply assemble_context_run; exact Hr].
    unfold ret. rewrite full_prompt_general, log_log.
    unfold prompt_with. rewrite detail_block_detail_text, append_assoc.
    reflexivity. }
  split; [exact Hbuild|]. now apply try_block_sends.
Qed.

End Program.

(** ** Scenarios *)

(** An interpreter for the scenarios.  Its [str.lower] lowers the letters
    of ASCII and the accented capitals of Latin-1 (U+00C0 to U+00DE but
    the multiplication sign), its decimal digits are 0 to 9 and the
    Arabic-Indic digits (U+0660 to U+0669), and its [int] converts 4300
    digits, the limit CPython starts with. *)
Definition is_latin1_capital (a b : ascii) : bool :=
  andb (Nat.eqb (nat_of_ascii a) 195)
       (andb (andb (Nat.leb 128 (nat_of_ascii b)) (Nat.leb (nat_of_ascii b) 158))
             (negb (Nat.eqb (nat_of_ascii b) 151))).

Fixpoint lower_latin (s : string) : string :=
  match s with
  | EmptyString => EmptyString
  | String a s' =>
      match s' with
      | String b rest =>
          if is_latin1_capital a b
          then String a (String (ascii_of_nat (nat_of_ascii b + 32)) (lower_latin rest))
          else String (lower_ascii a) (lower_latin s')
      | EmptyString => String (lower_ascii a) EmptyString
      end
  end.

Definition decimal_digit (c : string) : option Z :=
  match c with
  | String a EmptyString =>
      if is_ascii_digit a then Some (ascii_digit_value a) else None
  | String a (String b EmptyString) =>
      if andb (Nat.eqb (nat_of_ascii a) 217)
              (andb (Nat.leb 160 (nat_of_ascii b)) (Nat.leb (nat_of_ascii b) 169))
      then Some (Z.of_nat (nat_of_ascii b - 160))
      else None
  | _ => None
  end.

Definition digit_limit : nat := 4300.

(** The Arabic-Indic digit three and the letters E and e with an acute
    accent, in UTF-8. *)
Definition arabic_three : string :=
  String (ascii_of_nat 217) (String (ascii_of_nat 163) EmptyString).

Definition capital_e_acute : string :=
  String (ascii_of_nat 195) (String (ascii_of_nat 137) EmptyString).

Definition small_e_acute : string :=
  String (ascii_of_nat 195) (String (ascii_of_nat 169) EmptyString).

(** "match " and a number of 4301 digits. *)
Definition long_query : string :=
  "match " ++ String.concat "" (repeat "7" 4301).

Lemma lower_latin_ascii : lowers_ascii lower_latin.
Proof.
  unfold lowers_ascii, is_ascii. intros s.
  induction s as [|a s IH]; [reflexivity|].
  cbn [list_ascii_of_string forallb]. intros [Ha Hs]%andb_true_iff.
  cbn [lower_latin lower_ascii_text]. rewrite <- (IH Hs).
  destruct s as [|b rest]; [reflexivity|].
  assert (Hno : is_latin1_capital a b = false).
  { unfold is_latin1_capital.
    destruct a as [[] [] [] [] [] [] [] []]; try reflexivity; discriminate Ha. }
  now rewrite Hno.
Qed.

Lemma decimal_digit_ascii : reads_ascii_digits decimal_digit.
Proof. intros c _. reflexivity. Qed.

Definition say_exn (e : exn) : string :=
  match e with
  | TypeError => "TypeError"
  | AttributeError => "AttributeError"
  | KeyError => "KeyError"
  | NameError => "NameError"
  | ValueError => "ValueError"
  | IndexError => "IndexError"
  | HTTPError status_code => str_of_int status_code ++ " Error"
  | RequestException detail => detail
  | OtherException detail => detail
  end.

Definition say_container (v : pyval) : string := "[...]".

Definition key : string := "KEY".

(** A provider that cannot be reached. *)
Definition offline (url : string) (params : list (string * pyval)) : http_outcome :=
  GetRaises (RequestException "offline").

(** An intent model that answers [v], and one whose call fails. *)
Definition intent_is (v : pyval) (user_query summary : string) : result pyval := Ok v.

Definition intent_call_fails (user_query summary : string) : result pyval :=
  Raise ValueError.

(** A model that streams its reply in the given fragments. *)
Definition streams (texts : list string) (prompt : string) : stream :=
  {| chunks := texts; failure := None |}.

Definition team_ab : Match :=
  [("id", PStr "m1"); ("name", PStr "Team A vs Team B"); ("status", PStr "Live")].

Definition team_cd : Match :=
  [("id", PStr "m2"); ("name", PStr "Team C vs Team D"); ("status", PStr "Toss")].


(** A match whose name begins with a capital E with an acute accent. *)
Definition ecole_xi : Match :=
  [("id", PStr "e1"); ("name", PStr (capital_e_acute ++ "cole XI"));
   ("status", PStr "Live")].

Definition six_matches : list Match :=
  [team_ab; team_cd;
   [("id", PStr "m3"); ("name", PStr "Team E vs Team F")];
   [("id", PStr "m4"); ("name", PStr "Team G vs Team H")];
   [("id", PStr "m5"); ("name", PStr "Team I vs Team J")];
   [("id", PStr "m6"); ("name", PStr "Team K vs Team L")]].

(** A session right after a refresh that fetched [ms], nothing shown. *)
Definition session (ms : list Match) : world :=
  {| messages := [];
     current_match_data := PList (map PDict ms);
     match_list_for_llm := entries_from 0 ms;
     trace := [];
     chat_history := [] |}.

(** A provider that answers every call with the payload [payload]. *)
Definition responds (status_code : Z) (payload : pyval)
           (url : string) (params : list (string * pyval)) : http_outcome :=
  Response status_code (Ok payload).

Definition success_with (data : pyval) : pyval :=
  PDict [("status", PStr "success"); ("data", data)].

(** A provider that answers the info and the squad of Team C vs Team D. *)
Definition info_cd : Match :=
  [("name", PStr "Team C vs Team D"); ("venue", PStr "Oval");
   ("score", PList []); ("matchStarted", PBool true)].

Definition squad_cd : list pyval :=
  [PDict [("name", PStr "Team C");
          ("players", PList [PDict [("name", PStr "Ann")]; PDict [("role", PStr "Bowler")]])];
   PDict [("players", PList [])]].

Definition provider_cd (url : string) (params : list (string * pyval)) : http_outcome :=
  if is_substring "match_info" url
  then Response 200 (Ok (success_with (PDict info_cd)))
  else Response 200 (Ok (success_with (PList squad_cd))).

(** Providers that fail one of the two detail calls and answer the other:
    the info with status 404, the squad with a payload that reports a
    failure. *)
Definition info_down_cd (url : string) (params : list (string * pyval)) : http_outcome :=
  if is_substring "match_info" url
  then Response 404 (Ok (PDict []))
  else Response 200 (Ok (success_with (PList squad_cd))).

Definition squad_down_cd (url : string) (params : list (string * pyval)) : http_outcome :=
  if is_substring "match_info" url
  then Response 200 (Ok (success_with (PDict info_cd)))
  else Response 200 (Ok (PDict [("status", PStr "failure"); ("reason", PStr "no squad")])).

(** [200 <= status_code < 300] *)
Definition is_2xx (status_code : Z) : bool :=
  andb (200 <=? status_code)%Z (status_code <? 300)%Z.

(** The prompt that holds the general match list and the query only:
    what an unresolved intent gets over the cached matches [ms]. *)
Definition general_only (ms : list Match) (q : string) : string :=
  general_text say_container ms ++ "User Query: " ++ q.

(** ** The claims at concrete inputs *)

(** C1 as stated fails: a whole turn in a fresh session leaves the
    [chat_history] table empty. *)
Lemma turn_writes_no_chat_record :
  ~ persisted_once initial_world
      (snd (chat_turn lower_latin decimal_digit digit_limit
            say_exn say_container key offline (intent_is (PDict []))
              (streams ["Go"; "od"; " luck"]) "hello" initial_world)).
Proof.
  intros (row & Hrow & _). vm_compute in Hrow. discriminate Hrow.
Qed.

Lemma turn_appends_reply_to_session_only_witness :
  nonempty "hello" = true
  /\ messages (snd (chat_turn lower_latin decimal_digit digit_limit
        say_exn say_container key offline (intent_is (PDict []))
                      (streams ["Go"; "od"; " luck"]) "hello" initial_world))
     = [ {| role := "user"; text := "hello" |};
         {| role := "assistant"; text := "Good luck" |} ]
  /\ chat_history (snd (chat_turn lower_latin decimal_digit digit_limit
        say_exn say_container key offline (intent_is (PDict []))
                          (streams ["Go"; "od"; " luck"]) "hello" initial_world))
     = [].
Proof.
  split; [reflexivity|].
  destruct (turn_appends_reply_to_session_only lower_latin decimal_digit digit_limit
        say_exn say_container key offline
              (intent_is (PDict [])) (streams ["Go"; "od"; " luck"])
              "hello" initial_world eq_refl) as (_ & Hm & Hc & _).
  split; [rewrite Hm; reflexivity | exact Hc].
Defined.

(** C5 as stated fails: in a query that holds "match " and a number of
    4301 digits the pattern is found, and the fallback returns the empty
    object, not the number. *)
Lemma long_number_is_found_but_unresolved :
  re_search decimal_digit (scanned lower_latin long_query) <> None
  /\ fst (get_match_intent lower_latin decimal_digit digit_limit say_exn
            intent_call_fails long_query "1. Team A vs Team B" initial_world)
     = Ok (intent_json Unresolved).
Proof.
  split; [intros H; vm_compute in H; discriminate H | vm_compute; reflexivity].
Qed.

Lemma failed_intent_call_falls_back_to_regex_witness :
  intent_call_fails "Tell me about Match 12 please" "1. Team A vs Team B" = Raise ValueError
  /\ fst (get_match_intent lower_latin decimal_digit digit_limit say_exn
            intent_call_fails
            "Tell me about Match 12 please" "1. Team A vs Team B" initial_world)
     = Ok (PDict [("match_number", PInt 12)])
  /\ fallback_spec lower_latin decimal_digit digit_limit
       "Tell me about Match 12 please" (ByNumber 12)
  /\ regex_fallback lower_latin decimal_digit digit_limit
       ("match " ++ arabic_three ++ " and match 2")
     = PDict [("match_number", PInt 3)].
Proof.
  split; [reflexivity|].
  destruct (failed_intent_call_falls_back_to_regex lower_latin decimal_digit
              digit_limit say_exn intent_call_fails
              "Tell me about Match 12 please" "1. Team A vs Team B" ValueError
              initial_world eq_refl) as (i & Hrun & Hspec).
  split; [reflexivity|]. split; [|reflexivity].
  assert (Hi : intent_json i = PDict [("match_number", PInt 12)]).
  { apply (f_equal fst) in Hrun. vm_compute in Hrun.
    injection Hrun as Hrun. symmetry. exact Hrun. }
  destruct i as [n|s|]; try discriminate Hi.
  injection Hi as ->. exact Hspec.
Defined.

(** C2 as stated fails: with one cached match and the intent
    [ByNumber 5], the prompt is not the general list and the query only. *)
Lemma number_five_prompt_is_not_general_only :
  fst (build_prompt lower_latin decimal_digit digit_limit say_exn say_container key offline
         (intent_is (PDict [("match_number", PInt 5)])) "match 5" (session [team_ab]))
  <> Ok (general_only [team_ab] "match 5").
Proof.
  intros H. vm_compute in H. discriminate H.
Qed.

Lemma number_five_of_one_match_warns_and_apologises_witness :
  refreshed [team_ab] (session [team_ab])
  /\ intent_of (intent_value lower_latin decimal_digit digit_limit
        (intent_is (PDict [("match_number", PInt 5)])) "match 5"
                  (summary_text say_container [team_ab]))
     = Some (ByNumber 5)
  /\ build_prompt lower_latin decimal_digit digit_limit say_exn say_container key offline
       (intent_is (PDict [("match_number", PInt 5)])) "match 5" (session [team_ab])
     = (Ok (general_text say_container [team_ab] ++ apology ++ nl
              ++ "User Query: match 5"),
        log [EvIntent "match 5" "1. Team A vs Team B";
             EvWarning "Match number 5 is out of range."] (session [team_ab])).
Proof.
  assert (Hr : refreshed [team_ab] (session [team_ab])).
  { split; [discriminate | split; reflexivity]. }
  split; [exact Hr|]. split; [reflexivity|].
  destruct (number_five_of_one_match_warns_and_apologises lower_latin decimal_digit digit_limit
        say_exn say_container key
              offline (intent_is (PDict [("match_number", PInt 5)]))
              (streams ["Sorry"]) "match 5" team_ab (session [team_ab]) Hr eq_refl)
    as (_ & Hbuild & _).
  exact Hbuild.
Defined.

(** C3 as stated fails: with two cached matches, the turn of the
    out-of-range intent [ByNumber 3] does not go on as the turn of an
    unresolved intent does: its prompt differs. *)
Lemma out_of_range_is_not_treated_as_unresolved :
  fst (build_prompt lower_latin decimal_digit digit_limit say_exn say_container key offline
         (intent_is (intent_json (ByNumber 3))) "match 3" (session [team_ab; team_cd]))
  <> fst (build_prompt lower_latin decimal_digit digit_limit say_exn say_container key offline
            (intent_is (intent_json Unresolved)) "match 3" (session [team_ab; team_cd])).
Proof.
  intros H. vm_compute in H. discriminate H.
Qed.

Lemma by_number_selects_nth_or_warns_witness :
  refreshed [team_ab; team_cd] (session [team_ab; team_cd])
  /\ fst (resolve_match lower_latin decimal_digit digit_limit say_exn say_container
            (intent_is (intent_json (ByNumber 2)))
            "tell me about match 2" (session [team_ab; team_cd]))
     = Ok (selected team_cd (intent_json (ByNumber 2)))
  /\ build_prompt lower_latin decimal_digit digit_limit say_exn say_container key
       offline (intent_is (intent_json (ByNumber 3))) "match 3"
       (session [team_ab; team_cd])
     = (Ok ("General Current Match Data:" ++ nl
              ++ "Match: Team A vs Team B, Status: Live, ID: m1" ++ nl
              ++ "Match: Team C vs Team D, Status: Toss, ID: m2" ++ nl ++ nl
              ++ apology ++ nl
              ++ "User Query: match 3"),
        log [EvIntent "match 3" ("1. Team A vs Team B" ++ nl ++ "2. Team C vs Team D");
             EvWarning "Match number 3 is out of range."]
          (session [team_ab; team_cd]))
  /\ build_prompt lower_latin decimal_digit digit_limit say_exn say_container key
       offline (intent_is (intent_json Unresolved)) "any tips?"
       (session [team_ab; team_cd])
     = (Ok ("General Current Match Data:" ++ nl
              ++ "Match: Team A vs Team B, Status: Live, ID: m1" ++ nl
              ++ "Match: Team C vs Team D, Status: Toss, ID: m2" ++ nl ++ nl
              ++ "User Query: any tips?"),
        log [EvIntent "any tips?" ("1. Team A vs Team B" ++ nl ++ "2. Team C vs Team D");
             EvWrite "DEBUG: No specific match intent detected by LLM."]
          (session [team_ab; team_cd])).
Proof.
  assert (Hr : refreshed [team_ab; team_cd] (session [team_ab; team_cd])).
  { split; [discriminate | split; reflexivity]. }
  split; [exact Hr|]. split; [|split].
  - destruct (by_number_selects_nth_or_warns lower_latin decimal_digit digit_limit
                say_exn say_container key offline
                (intent_is (intent_json (ByNumber 2))) "tell me about match 2"
                [team_ab; team_cd] 2 (session [team_ab; team_cd]) Hr)
      as (Hnumber & _).
    destruct (Hnumber eq_refl) as (Hin & _).
    destruct (Hin ltac:(cbn; lia)) as (m & Hm & Hres & _).
    injection Hm as <-. rewrite Hres. reflexivity.
  - destruct (by_number_selects_nth_or_warns lower_latin decimal_digit digit_limit
                say_exn say_container key offline
                (intent_is (intent_json (ByNumber 3))) "match 3"
                [team_ab; team_cd] 3 (session [team_ab; team_cd]) Hr)
      as (Hnumber & _).
    destruct (Hnumber eq_refl) as (_ & Hout).
    destruct (Hout ltac:(cbn; lia)) as (_ & Hbuild & _).
    rewrite Hbuild. reflexivity.
  - destruct (by_number_selects_nth_or_warns lower_latin decimal_digit digit_limit
                say_exn say_container key offline
                (intent_is (intent_json Unresolved)) "any tips?"
                [team_ab; team_cd] 0 (session [team_ab; team_cd]) Hr)
      as (_ & Hnone).
    destruct (Hnone eq_refl) as (_ & Hbuild & _).
    rewrite Hbuild. reflexivity.
Defined.

(** C4 as stated fails: with two cached matches and a name that none of
    them has, the turn does not go on as the turn of an unresolved intent
    does: its prompt differs. *)
Lemma unknown_name_is_not_treated_as_unresolved :
  fst (build_prompt lower_latin decimal_digit digit_limit say_exn say_container key offline
         (intent_is (intent_json (ByName "Team X vs Team Y"))) "team x?"
         (session [team_ab; team_cd]))
  <> fst (build_prompt lower_latin decimal_digit digit_limit say_exn say_container key offline
            (intent_is (intent_json Unresolved)) "team x?"
            (session [team_ab; team_cd])).
Proof.
  intros H. vm_compute in H. discriminate H.
Qed.

Lemma by_name_selects_first_match_or_warns_witness :
  refreshed [team_ab; team_cd] (session [team_ab; team_cd])
  /\ forallb name_is_text [team_ab; team_cd] = true
  /\ fst (resolve_match lower_latin decimal_digit digit_limit say_exn say_container
            (intent_is (intent_json (ByName "team c VS team d")))
            "how about team c vs team d?" (session [team_ab; team_cd]))
     = Ok (selected team_cd (intent_json (ByName "team c VS team d")))
  /\ fst (resolve_match lower_latin decimal_digit digit_limit say_exn say_container
            (intent_is (intent_json (ByName (small_e_acute ++ "cole xi"))))
            "who plays?" (session [team_ab; ecole_xi]))
     = Ok (selected ecole_xi (intent_json (ByName (small_e_acute ++ "cole xi"))))
  /\ build_prompt lower_latin decimal_digit digit_limit say_exn say_container key
       offline (intent_is (intent_json (ByName "Team X vs Team Y"))) "team x?"
       (session [team_ab; team_cd])
     = (Ok ("General Current Match Data:" ++ nl
              ++ "Match: Team A vs Team B, Status: Live, ID: m1" ++ nl
              ++ "Match: Team C vs Team D, Status: Toss, ID: m2" ++ nl ++ nl
              ++ apology ++ nl
              ++ "User Query: team x?"),
        log [EvIntent "team x?" ("1. Team A vs Team B" ++ nl ++ "2. Team C vs Team D");
             EvWarning "Could not find match with name: Team X vs Team Y."]
          (session [team_ab; team_cd])).
Proof.
  assert (Hr : refreshed [team_ab; team_cd] (session [team_ab; team_cd])).
  { split; [discriminate | split; reflexivity]. }
  assert (Hr' : refreshed [team_ab; ecole_xi] (session [team_ab; ecole_xi])).
  { split; [discriminate | split; reflexivity]. }
  split; [exact Hr|]. split; [reflexivity|]. split; [|split].
  - destruct (by_name_selects_first_match_or_warns lower_latin decimal_digit
                digit_limit say_exn say_container key offline
                (intent_is (intent_json (ByName "team c VS team d")))
                "how about team c vs team d?" [team_ab; team_cd] "team c VS team d"
                (session [team_ab; team_cd]) Hr eq_refl)
      as (Hname & _).
    destruct (Hname eq_refl) as (Hhit & _).
    destruct (Hhit [team_ab] team_cd [] eq_refl eq_refl eq_refl) as (Hres & _).
    rewrite Hres. reflexivity.
  - destruct (by_name_selects_first_match_or_warns lower_latin decimal_digit
                digit_limit say_exn say_container key offline
                (intent_is (intent_json (ByName (small_e_acute ++ "cole xi"))))
                "who plays?" [team_ab; ecole_xi] (small_e_acute ++ "cole xi")
                (session [team_ab; ecole_xi]) Hr' eq_refl)
      as (Hname & _).
    destruct (Hname eq_refl) as (Hhit & _).
    destruct (Hhit [team_ab] ecole_xi [] eq_refl eq_refl eq_refl) as (Hres & _).
    rewrite Hres. reflexivity.
  - destruct (by_name_selects_first_match_or_warns lower_latin decimal_digit
                digit_limit say_exn say_container key offline
                (intent_is (intent_json (ByName "Team X vs Team Y")))
                "team x?" [team_ab; team_cd] "Team X vs Team Y"
                (session [team_ab; team_cd]) Hr eq_refl)
      as (Hname & _).
    destruct (Hname eq_refl) as (_ & Hmiss & _).
    destruct (Hmiss eq_refl) as (_ & Hbuild & _).
    rewrite Hbuild. reflexivity.
Defined.

Lemma prompt_is_context_then_query_witness :
  truthy (current_match_data initial_world) = false
  /\ build_prompt lower_latin decimal_digit digit_limit
        say_exn say_container key offline (intent_is (PDict []))
       "Who should I pick?" initial_world
     = (Ok "Who should I pick?", initial_world).
Proof.
  split; [reflexivity|].
  apply (proj1 (prompt_is_context_then_query lower_latin decimal_digit digit_limit
        say_exn say_container key offline
                  (intent_is (PDict [])) "Who should I pick?" initial_world)).
  reflexivity.
Defined.

(** C7 as stated fails: a response with status 300, which is not a 2xx
    status, and a payload that reports success is not a Failure: the
    client returns its data. *)
Lemma status_300_with_success_payload_is_no_failure :
  is_2xx 300 = false
  /\ ~ Failure (fst (_make_api_request say_exn say_container key
                       (responds 300 (success_with (PList [PDict team_ab])))
                       "currentMatches" PNone initial_world)).
Proof.
  split; [reflexivity|].
  unfold Failure. intros H. vm_compute in H. discriminate H.
Qed.

Lemma failed_request_is_none_and_callers_go_on_witness :
  responds 404 (PDict []) (get_url say_container key "match_info" (PStr "m1"))
    (get_params key (PStr "m1"))
  = Response 404 (Ok (PDict []))
  /\ is_error_status 404 = true
  /\ _make_api_request say_exn say_container key (responds 404 (PDict []))
       "match_info" (PStr "m1") initial_world
     = (Ok PNone,
        log [EvGet "https://api.cricapi.com/v1/match_info?apikey=KEY&offset=0&id=m1"
               [("apikey", PStr "KEY"); ("offset", PInt 0); ("id", PStr "m1")];
             EvError "Network or API error for match_info: 404 Error"]
          initial_world)
  /\ fst (build_prompt lower_latin decimal_digit digit_limit say_exn say_container key
            info_down_cd (intent_is (intent_json (ByNumber 2)))
            "tell me about match 2" (session [team_ab; team_cd]))
     = Ok ("General Current Match Data:" ++ nl
             ++ "Match: Team A vs Team B, Status: Live, ID: m1" ++ nl
             ++ "Match: Team C vs Team D, Status: Toss, ID: m2" ++ nl ++ nl
             ++ "Squads:" ++ nl
             ++ "  - Team C: Ann, N/A" ++ nl
             ++ "  - Unknown Team: " ++ nl ++ nl ++ nl
             ++ "User Query: tell me about match 2")
  /\ fst (build_prompt lower_latin decimal_digit digit_limit say_exn say_container key
            squad_down_cd (intent_is (intent_json (ByNumber 2)))
            "tell me about match 2" (session [team_ab; team_cd]))
     = Ok ("General Current Match Data:" ++ nl
             ++ "Match: Team A vs Team B, Status: Live, ID: m1" ++ nl
             ++ "Match: Team C vs Team D, Status: Toss, ID: m2" ++ nl ++ nl
             ++ "Detailed Info for Match ID m2 (Team C vs Team D):" ++ nl
             ++ "- name: Team C vs Team D" ++ nl
             ++ "- venue: Oval" ++ nl
             ++ "- matchStarted: True" ++ nl ++ nl ++ nl
             ++ "User Query: tell me about match 2").
Proof.
  split; [reflexivity|]. split; [reflexivity|].
  assert (Hr : refreshed [team_ab; team_cd] (session [team_ab; team_cd])).
  { split; [discriminate | split; reflexivity]. }
  split; [|split].
  - destruct (failed_request_is_none_and_callers_go_on lower_latin decimal_digit
                digit_limit say_exn say_container key
                (responds 404 (PDict [])) (intent_is (PDict [])) (streams [])
                "match_info" (PStr "m1") initial_world)
      as (Hstatus & _).
    rewrite (Hstatus 404%Z (Ok (PDict [])) eq_refl eq_refl). reflexivity.
  - destruct (failed_request_is_none_and_callers_go_on lower_latin decimal_digit
                digit_limit say_exn say_container key
                info_down_cd (intent_is (intent_json (ByNumber 2))) (streams [])
                "match_info" (PStr "m2") initial_world)
      as (_ & _ & _ & _ & _ & Hinfo & _).
    assert (Hsquad : answers say_container key info_down_cd "match_squad" (PStr "m2")
                       (PList squad_cd)).
    { exists 200%Z, [("status", PStr "success"); ("data", PList squad_cd)].
      repeat split. }
    destruct (Hinfo "tell me about match 2" [team_ab; team_cd]
                (selected team_cd (intent_json (ByNumber 2)))
                [EvIntent "tell me about match 2"
                   (summary_text say_container [team_ab; team_cd]);
                 identified say_container "number" team_cd]
                squad_cd
                ("  - Team C: Ann, N/A" ++ nl ++ "  - Unknown Team: " ++ nl)
                (session [team_ab; team_cd])
                Hr eq_refl eq_refl eq_refl Hsquad ltac:(discriminate) eq_refl)
      as (Hbuild & _).
    rewrite Hbuild. reflexivity.
  - destruct (failed_request_is_none_and_callers_go_on lower_latin decimal_digit
                digit_limit say_exn say_container key
                squad_down_cd (intent_is (intent_json (ByNumber 2))) (streams [])
                "match_squad" (PStr "m2") initial_world)
      as (_ & _ & _ & _ & _ & _ & Hsquad & _).
    assert (Hinfo : answers say_container key squad_down_cd "match_info" (PStr "m2")
                      (PDict info_cd)).
    { exists 200%Z, [("status", PStr "success"); ("data", PDict info_cd)].
      repeat split. }
    destruct (Hsquad "tell me about match 2" [team_ab; team_cd]
                (selected team_cd (intent_json (ByNumber 2)))
                [EvIntent "tell me about match 2"
                   (summary_text say_container [team_ab; team_cd]);
                 identified say_container "number" team_cd]
                info_cd
                (session [team_ab; team_cd])
                Hr eq_refl eq_refl Hinfo ltac:(discriminate) eq_refl)
      as (Hbuild & _).
    rewrite Hbuild. reflexivity.
Defined.

(** C8 as stated fails: after a first fragment with an empty text the
    reply area still shows the placeholder, not the (empty) text so far
    followed by the cursor. *)
Lemma empty_first_fragment_leaves_the_placeholder :
  displayed (snd (consume (firstn 1 [""; "Go"]) "" (turn_start "hi" initial_world)))
  <> Some (String.concat "" (firstn 1 [""; "Go"]) ++ cursor).
Proof.
  intros H. vm_compute in H. discriminate H.
Qed.

Lemma stream_shows_growing_reply_witness :
  String.concat "" (firstn 2 ["Go"; "od"; " luck"]) <> ""
  /\ displayed (snd (consume (firstn 2 ["Go"; "od"; " luck"]) ""
                       (turn_start "hi" initial_world)))
     = Some ("Good" ++ cursor)
  /\ stream_reply (streams ["Go"; "od"; " luck"]) "hi" (turn_start "hi" initial_world)
     = (Ok "Good luck",
        log [EvSend "hi"; EvArea ("Go" ++ cursor); EvArea ("Good" ++ cursor);
             EvArea ("Good luck" ++ cursor); EvArea "Good luck"]
          (turn_start "hi" initial_world)).
Proof.
  assert (Hne : String.concat "" (firstn 2 ["Go"; "od"; " luck"]) <> "")
    by discriminate.
  split; [exact Hne|].
  destruct (stream_shows_growing_reply lower_latin decimal_digit digit_limit
        say_exn say_container key offline
              (intent_is (PDict [])) (streams ["Go"; "od"; " luck"])
              ["Go"; "od"; " luck"] 2 (turn_start "hi" initial_world))
    as (_ & Hshown & _ & Hend & _).
  split.
  - rewrite (Hshown Hne). reflexivity.
  - destruct (Hend "hi" eq_refl) as (Hrun & _). rewrite Hrun. reflexivity.
Defined.

Lemma refresh_stores_all_matches_and_lists_five_witness :
  six_matches <> []
  /\ messages (snd (fetch_latest_matches say_exn say_container key
                      (responds 200 (success_with (PList (map PDict six_matches))))
                      initial_world))
     = [ {| role := "assistant";
            text := "Here are some of the current matches:" ++ nl
                      ++ "1. **Team A vs Team B** - Live" ++ nl
                      ++ "2. **Team C vs Team D** - Toss" ++ nl
                      ++ "3. **Team E vs Team F** - N/A" ++ nl
                      ++ "4. **Team G vs Team H** - N/A" ++ nl
                      ++ "5. **Team I vs Team J** - N/A" ++ nl ++ nl
                      ++ "I've stored this information. Now you can ask me for fantasy recommendations based on these matches, or ask about a specific match by its number (e.g., 'tell me about match 1') or by its name." |} ]
  /\ List.length (match_list_for_llm
                    (snd (fetch_latest_matches say_exn say_container key
                            (responds 200 (success_with (PList (map PDict six_matches))))
                            initial_world))) = 6
  /\ fst (resolve_match lower_latin decimal_digit digit_limit say_exn say_container
            (intent_is (intent_json (ByNumber 6))) "match 6"
            (snd (fetch_latest_matches say_exn say_container key
                    (responds 200 (success_with (PList (map PDict six_matches))))
                    initial_world)))
     = Ok (selected [("id", PStr "m6"); ("name", PStr "Team K vs Team L")]
             (intent_json (ByNumber 6))).
Proof.
  assert (Hne : six_matches <> []) by discriminate.
  split; [exact Hne|].
  assert (Hans : answers say_container key
                   (responds 200 (success_with (PList (map PDict six_matches))))
                   "currentMatches" PNone (PList (map PDict six_matches))).
  { exists 200%Z, [("status", PStr "success");
                   ("data", PList (map PDict six_matches))].
    repeat split. }
  destruct (refresh_stores_all_matches_and_lists_five lower_latin decimal_digit
              digit_limit say_exn say_container key
              (responds 200 (success_with (PList (map PDict six_matches))))
              (intent_is (intent_json (ByNumber 6))) six_matches initial_world
              Hne Hans)
    as (_ & Hmessage & _ & _ & Hall & _ & Hsel).
  split; [rewrite Hmessage; reflexivity|]. split; [exact Hall|].
  destruct (Hsel "match 6" 6%Z eq_refl ltac:(cbn; lia)) as (m & Hm & Hres).
  injection Hm as <-. rewrite Hres. reflexivity.
Defined.


(** ** More scenarios *)

(** A model whose stream breaks with [e] after the given fragments. *)
Definition breaks (texts : list string) (e : exn) (prompt : string) : stream :=
  {| chunks := texts; failure := Some e |}.

Lemma client_raises_on_body_that_is_no_object_witness :
  is_error_status 200 = false
  /\ is_dict (PList [PDict team_ab]) = false
  /\ fetch_latest_matches say_exn say_container key
       (responds 200 (PList [PDict team_ab])) (session [team_cd])
     = (Raise AttributeError,
        log [EvSpinner "Fetching current matches...";
             EvGet (get_url say_container key "currentMatches" PNone)
               (get_params key PNone)] (session [team_cd])).
Proof.
  split; [reflexivity|]. split; [reflexivity|].
  destruct (client_raises_on_body_that_is_no_object say_exn say_container key
              (responds 200 (PList [PDict team_ab])) "currentMatches" PNone
              (PList [PDict team_ab]) 200 (session [team_cd]) eq_refl eq_refl)
    as (_ & _ & Hrefresh).
  exact (Hrefresh eq_refl).
Defined.

Lemma refresh_with_empty_answer_keeps_old_cache_witness :
  assoc "data" [("status", PStr "success")] = None
  /\ current_match_data
       (snd (fetch_latest_matches say_exn say_container key
               (responds 200 (PDict [("status", PStr "success")])) (session [team_cd])))
     = PList [PDict team_cd]
  /\ messages
       (snd (fetch_latest_matches say_exn say_container key
               (responds 200 (PDict [("status", PStr "success")])) (session [team_cd])))
     = [ {| role := "assistant";
            text := "Could not fetch current matches. Please try again later." |} ].
Proof.
  split; [reflexivity|].
  destruct (refresh_with_empty_answer_keeps_old_cache say_exn say_container key
              (responds 200 (PDict [("status", PStr "success")]))
              200 [("status", PStr "success")] (session [team_cd])
              eq_refl eq_refl eq_refl eq_refl)
    as (_ & Hcache & _ & Hmessages & _).
  split; [exact Hcache | exact Hmessages].
Defined.

Lemma fallback_reads_back_match_number_witness :
  is_ascii "Tell me about MATCH 12, please" = true
  /\ no_ascii_digit "Tell me about " = true
  /\ lower_ascii_text "MATCH " = "match "
  /\ over_int_limit digit_limit (String.length (str_of_int 12)) = false
  /\ starts_with_ascii_digit ", please" = false
  /\ regex_fallback lower_latin decimal_digit digit_limit
       "Tell me about MATCH 12, please"
     = PDict [("match_number", PInt 12)].
Proof.
  split; [reflexivity|]. split; [reflexivity|]. split; [reflexivity|].
  split; [reflexivity|]. split; [reflexivity|].
  exact (fallback_reads_back_match_number lower_latin decimal_digit digit_limit
           "Tell me about " "MATCH " ", please" 12
           lower_latin_ascii decimal_digit_ascii
           eq_refl eq_refl eq_refl ltac:(lia) eq_refl eq_refl).
Defined.

Lemma failed_intent_call_still_selects_numbered_match_witness :
  refreshed [team_ab; team_cd] (session [team_ab; team_cd])
  /\ is_ascii "tell me about match 2" = true
  /\ fst (resolve_match lower_latin decimal_digit digit_limit say_exn say_container
            intent_call_fails "tell me about match 2" (session [team_ab; team_cd]))
     = Ok (selected team_cd (PDict [("match_number", PInt 2)])).
Proof.
  assert (Hr : refreshed [team_ab; team_cd] (session [team_ab; team_cd])).
  { split; [discriminate | split; reflexivity]. }
  split; [exact Hr|]. split; [reflexivity|].
  destruct (failed_intent_call_still_selects_numbered_match lower_latin
              decimal_digit digit_limit say_exn say_container
              intent_call_fails "tell me about " "match " "" 2 ValueError
              [team_ab; team_cd] (session [team_ab; team_cd])
              lower_latin_ascii decimal_digit_ascii
              Hr eq_refl eq_refl eq_refl eq_refl eq_refl ltac:(cbn; lia) eq_refl)
    as (m & Hm & Hres).
  injection Hm as <-.
  change ("tell me about " ++ "match " ++ str_of_int 2 ++ "")
    with "tell me about match 2" in Hres.
  rewrite Hres. reflexivity.
Defined.

Lemma refresh_stopped_at_first_item_breaks_turns_witness :
  truthy (PList [PStr "oops"; PDict team_ab]) = true
  /\ first_is_object (PList [PStr "oops"; PDict team_ab]) = false
  /\ fst (fetch_latest_matches say_exn say_container key
            (responds 200 (success_with (PList [PStr "oops"; PDict team_ab])))
            initial_world)
     = Raise AttributeError
  /\ messages
       (snd (chat_turn lower_latin decimal_digit digit_limit say_exn say_container key
               (responds 200 (success_with (PList [PStr "oops"; PDict team_ab])))
               (intent_is (PDict [])) (streams ["Hi"]) "hello"
               (cache_without_entries say_container key
                  (PList [PStr "oops"; PDict team_ab]) initial_world)))
     = [ {| role := "user"; text := "hello" |};
         {| role := "assistant";
            text := "Error communicating with Gemini or fetching match details: NameError" |} ].
Proof.
  split; [reflexivity|]. split; [reflexivity|].
  assert (Hans : answers say_container key
                   (responds 200 (success_with (PList [PStr "oops"; PDict team_ab])))
                   "currentMatches" PNone (PList [PStr "oops"; PDict team_ab])).
  { exists 200%Z, [("status", PStr "success");
                   ("data", PList [PStr "oops"; PDict team_ab])].
    repeat split. }
  destruct (refresh_stopped_at_first_item_breaks_turns lower_latin decimal_digit digit_limit
        say_exn say_container key
              (responds 200 (success_with (PList [PStr "oops"; PDict team_ab])))
              (intent_is (PDict [])) (streams ["Hi"])
              (PList [PStr "oops"; PDict team_ab]) initial_world
              Hans eq_refl eq_refl) as (_ & Hturn).
  split; [reflexivity|].
  rewrite (Hturn "hello"
             (cache_without_entries say_container key
                (PList [PStr "oops"; PDict team_ab]) initial_world)
             eq_refl eq_refl eq_refl).
  reflexivity.
Defined.

Lemma broken_stream_ends_turn_with_error_reply_witness :
  nonempty "hello" = true
  /\ messages
       (snd (chat_turn lower_latin decimal_digit digit_limit
             say_exn say_container key offline (intent_is (PDict []))
               (breaks ["Go"; "od"] (OtherException "stream broke")) "hello"
               initial_world))
     = [ {| role := "user"; text := "hello" |};
         {| role := "assistant";
            text := "Error communicating with Gemini or fetching match details: stream broke" |} ]
  /\ displayed
       (snd (chat_turn lower_latin decimal_digit digit_limit
             say_exn say_container key offline (intent_is (PDict []))
               (breaks ["Go"; "od"] (OtherException "stream broke")) "hello"
               initial_world))
     = Some "Error communicating with Gemini or fetching match details: stream broke".
Proof.
  split; [reflexivity|].
  destruct (broken_stream_ends_turn_with_error_reply lower_latin decimal_digit digit_limit
        say_exn say_container key
              offline (intent_is (PDict []))
              (breaks ["Go"; "od"] (OtherException "stream broke"))
              "hello" "hello" ["Go"; "od"] (OtherException "stream broke")
              initial_world (turn_start "hello" initial_world)
              eq_refl eq_refl eq_refl) as (_ & Hm & Hd).
  split; [exact Hm | exact Hd].
Defined.

Lemma answered_details_fill_the_prompt_witness :
  refreshed [team_ab; team_cd] (session [team_ab; team_cd])
  /\ squad_text say_container squad_cd
     = Some ("  - Team C: Ann, N/A" ++ nl ++ "  - Unknown Team: " ++ nl)
  /\ fst (build_prompt lower_latin decimal_digit digit_limit say_exn say_container key provider_cd
            (intent_is (intent_json (ByNumber 2))) "tell me about match 2"
            (session [team_ab; team_cd]))
     = Ok (general_text say_container [team_ab; team_cd]
             ++ "Detailed Info for Match ID m2 (Team C vs Team D):" ++ nl
             ++ "- name: Team C vs Team D" ++ nl
             ++ "- venue: Oval" ++ nl
             ++ "- matchStarted: True" ++ nl ++ nl
             ++ "Squads:" ++ nl
             ++ "  - Team C: Ann, N/A" ++ nl
             ++ "  - Unknown Team: " ++ nl ++ nl ++ nl
             ++ "User Query: tell me about match 2").
Proof.
  assert (Hr : refreshed [team_ab; team_cd] (session [team_ab; team_cd])).
  { split; [discriminate | split; reflexivity]. }
  split; [exact Hr|]. split; [reflexivity|].
  assert (Hinfo : answers say_container key provider_cd "match_info" (PStr "m2")
                    (PDict info_cd)).
  { exists 200%Z, [("status", PStr "success"); ("data", PDict info_cd)].
    repeat split. }
  assert (Hsquad : answers say_container key provider_cd "match_squad" (PStr "m2")
                     (PList squad_cd)).
  { exists 200%Z, [("status", PStr "success"); ("data", PList squad_cd)].
    repeat split. }
  destruct (answered_details_fill_the_prompt lower_latin decimal_digit digit_limit
        say_exn say_container key provider_cd
              (intent_is (intent_json (ByNumber 2))) (streams ["Pick Ann"])
              "tell me about match 2" [team_ab; team_cd]
              (selected team_cd (intent_json (ByNumber 2)))
              [EvIntent "tell me about match 2"
                 (summary_text say_container [team_ab; team_cd]);
               identified say_container "number" team_cd]
              info_cd squad_cd
              ("  - Team C: Ann, N/A" ++ nl ++ "  - Unknown Team: " ++ nl)
              (session [team_ab; team_cd])
              Hr eq_refl eq_refl Hinfo ltac:(discriminate) Hsquad
              ltac:(discriminate) eq_refl) as (Hbuild & _).
  rewrite Hbuild. reflexivity.
Defined.
